(** * lp-longmao: the content pipeline and the discount model

    A shallow embedding of the pure core of the repository:
    - [gold-dashboard/generate_intel.py]: [parse_likes], [smart_summary],
      [classify_text], [merge_dedupe]; the item constructors, [esc],
      [rel_time], the builders of the page fragments and [generate_html];
    - [generate_dashboard.py]: [Store.effective_discount],
      [Store.simulated_final_price].

    Python values are modelled as follows.
    - [str] is a list of Unicode code points ([pystr]); a literal of the
      source is written as a UTF-8 string and decoded by [u].
    - [int] is [Z].
    - [float] is an IEEE 754 binary64 value ([spec_float] of the standard
      library, precision 53, emax 1024).
    - an exception is a constructor of [exn]; a function that can raise
      returns a [result]. *)

From Stdlib Require Import ZArith List String Ascii Lia Sorted.
From Stdlib Require Import Floats.SpecFloat.
From stdpp Require Import gmap list.

Local Open Scope Z_scope.

(** ** Python strings *)

Module PyStr.

Definition pystr := list Z.

(** The bytes of a literal. *)
Fixpoint bytes_of (s : string) : list Z :=
  match s with
  | EmptyString => []
  | String a s' => Z.of_N (N_of_ascii a) :: bytes_of s'
  end.

(** UTF-8 decoding of well-formed input (the literals of this file). *)
Fixpoint utf8_decode (bs : list Z) : pystr :=
  match bs with
  | [] => []
  | b0 :: r0 =>
      if b0 <? 0x80 then b0 :: utf8_decode r0
      else match r0 with
      | [] => [b0]
      | b1 :: r1 =>
          if b0 <? 0xE0 then
            ((b0 - 0xC0) * 64 + (b1 - 0x80)) :: utf8_decode r1
          else match r1 with
          | [] => [b0; b1]
          | b2 :: r2 =>
              if b0 <? 0xF0 then
                ((b0 - 0xE0) * 4096 + (b1 - 0x80) * 64 + (b2 - 0x80))
                  :: utf8_decode r2
              else match r2 with
              | [] => [b0; b1; b2]
              | b3 :: r3 =>
                  ((b0 - 0xF0) * 262144 + (b1 - 0x80) * 4096
                   + (b2 - 0x80) * 64 + (b3 - 0x80)) :: utf8_decode r3
              end
          end
      end
  end.

(** [u "万"] is the Python literal ["万"]. *)
Definition u (s : string) : pystr := utf8_decode (bytes_of s).

(** [len(s)] *)
Definition len (s : pystr) : Z := Z.of_nat (length s).

(** [not s] *)
Definition is_empty (s : pystr) : bool :=
  match s with [] => true | _ => false end.

(** [s[:n]], with Python's treatment of a negative or too large bound. *)
Definition slice_to (s : pystr) (n : Z) : pystr :=
  take (Z.to_nat (if n <? 0 then Z.max 0 (n + len s) else n)) s.

(** [s.startswith(p)] *)
Fixpoint startswith (s p : pystr) {struct p} : bool :=
  match p, s with
  | [], _ => true
  | _ :: _, [] => false
  | c :: p', d :: s' => (c =? d) && startswith s' p'
  end.

(** [sub in s] *)
Fixpoint contains (sub s : pystr) : bool :=
  startswith s sub
  || match s with [] => false | _ :: s' => contains sub s' end.

(** [s.rfind(sub)]: the highest index at which [sub] starts, or [-1];
    [rfind_from i] scans a suffix whose first character has index [i]. *)
Fixpoint rfind_from (i : Z) (s sub : pystr) : Z :=
  match s with
  | [] => if startswith [] sub then i else -1
  | _ :: s' =>
      let r := rfind_from (i + 1) s' sub in
      if 0 <=? r then r else if startswith s sub then i else -1
  end.

Definition rfind (s sub : pystr) : Z := rfind_from 0 s sub.

(** [s.replace(old, new)]: occurrences are replaced from the left and do
    not overlap; [skip] counts the characters of a found occurrence that
    are still to be dropped. *)
Fixpoint replace_aux (old new : pystr) (skip : nat) (s : pystr) : pystr :=
  match s with
  | [] => []
  | c :: s' =>
      match skip with
      | S k => replace_aux old new k s'
      | O =>
          if startswith s old
          then new ++ replace_aux old new (length old - 1) s'
          else c :: replace_aux old new 0 s'
      end
  end.

Definition replace (s old new : pystr) : pystr :=
  match old with
  | [] => new ++ flat_map (fun c => c :: new) s
  | _ => replace_aux old new 0 s
  end.

(** [s.lstrip], [s.rstrip] and [s.strip] over a set of characters given
    by a predicate. *)
Fixpoint lstrip_by (p : Z -> bool) (s : pystr) : pystr :=
  match s with
  | [] => []
  | c :: s' => if p c then lstrip_by p s' else s
  end.

Definition rstrip_by (p : Z -> bool) (s : pystr) : pystr :=
  rev (lstrip_by p (rev s)).

Definition strip_by (p : Z -> bool) (s : pystr) : pystr :=
  rstrip_by p (lstrip_by p s).

(** [c in chars] for a single character. *)
Definition mem (c : Z) (chars : pystr) : bool :=
  existsb (Z.eqb c) chars.

(** [s.strip(chars)] *)
Definition strip_chars (s chars : pystr) : pystr :=
  strip_by (fun c => mem c chars) s.

End PyStr.
Export PyStr.

(** ** Unicode data

    The character properties of the Unicode database that Python's string
    methods consult (version 14.0, as in CPython 3.11). *)

Module Unicode.

(** [str.isspace]: the white space of [str.strip], [int], [float] and
    of [\s]. *)
Definition space_ranges : list (Z * Z) :=
  [ (0x9, 0xD); (0x1C, 0x20); (0x85, 0x85); (0xA0, 0xA0);
    (0x1680, 0x1680); (0x2000, 0x200A); (0x2028, 0x2029);
    (0x202F, 0x202F); (0x205F, 0x205F); (0x3000, 0x3000) ].

(** The zeros of the decimal digits (general category Nd); the digits
    1 to 9 of a script follow its zero. *)
Definition digit_zeros : list Z :=
  [ 0x30; 0x660; 0x6F0; 0x7C0; 0x966; 0x9E6; 0xA66; 0xAE6; 0xB66; 0xBE6;
    0xC66; 0xCE6; 0xD66; 0xDE6; 0xE50; 0xED0; 0xF20; 0x1040; 0x1090;
    0x17E0; 0x1810; 0x1946; 0x19D0; 0x1A80; 0x1A90; 0x1B50; 0x1BB0;
    0x1C40; 0x1C50; 0xA620; 0xA8D0; 0xA900; 0xA9D0; 0xA9F0; 0xAA50;
    0xABF0; 0xFF10; 0x104A0; 0x10D30; 0x11066; 0x110F0; 0x11136; 0x111D0;
    0x112F0; 0x11450; 0x114D0; 0x11650; 0x116C0; 0x11730; 0x118E0;
    0x11950; 0x11C50; 0x11D50; 0x11DA0; 0x16A60; 0x16AC0; 0x16B50;
    0x1D7CE; 0x1D7D8; 0x1D7E2; 0x1D7EC; 0x1D7F6; 0x1E140; 0x1E2F0;
    0x1E950; 0x1FBF0 ].

(** The simple lowercase mappings, as [(first, last, step, delta)]: a
    character [c] of the progression [first, first + step, ..., last]
    maps to [c + delta]. *)
Definition lower_ranges : list (Z * Z * Z * Z) :=
  [ (0x41, 0x5A, 1, 32); (0xC0, 0xD6, 1, 32); (0xD8, 0xDE, 1, 32);
    (0x100, 0x12E, 2, 1); (0x132, 0x136, 2, 1); (0x139, 0x147, 2, 1);
    (0x14A, 0x176, 2, 1); (0x178, 0x178, 1, (-121)); (0x179, 0x17D, 2, 1);
    (0x181, 0x181, 1, 210); (0x182, 0x184, 2, 1); (0x186, 0x186, 1, 206);
    (0x187, 0x187, 1, 1); (0x189, 0x18A, 1, 205); (0x18B, 0x18B, 1, 1);
    (0x18E, 0x18E, 1, 79); (0x18F, 0x18F, 1, 202); (0x190, 0x190, 1, 203);
    (0x191, 0x191, 1, 1); (0x193, 0x193, 1, 205); (0x194, 0x194, 1, 207);
    (0x196, 0x196, 1, 211); (0x197, 0x197, 1, 209); (0x198, 0x198, 1, 1);
    (0x19C, 0x19C, 1, 211); (0x19D, 0x19D, 1, 213);
    (0x19F, 0x19F, 1, 214); (0x1A0, 0x1A4, 2, 1); (0x1A6, 0x1A6, 1, 218);
    (0x1A7, 0x1A7, 1, 1); (0x1A9, 0x1A9, 1, 218); (0x1AC, 0x1AC, 1, 1);
    (0x1AE, 0x1AE, 1, 218); (0x1AF, 0x1AF, 1, 1); (0x1B1, 0x1B2, 1, 217);
    (0x1B3, 0x1B5, 2, 1); (0x1B7, 0x1B7, 1, 219); (0x1B8, 0x1B8, 1, 1);
    (0x1BC, 0x1BC, 1, 1); (0x1C4, 0x1C4, 1, 2); (0x1C5, 0x1C5, 1, 1);
    (0x1C7, 0x1C7, 1, 2); (0x1C8, 0x1C8, 1, 1); (0x1CA, 0x1CA, 1, 2);
    (0x1CB, 0x1DB, 2, 1); (0x1DE, 0x1EE, 2, 1); (0x1F1, 0x1F1, 1, 2);
    (0x1F2, 0x1F4, 2, 1); (0x1F6, 0x1F6, 1, (-97));
    (0x1F7, 0x1F7, 1, (-56)); (0x1F8, 0x21E, 2, 1);
    (0x220, 0x220, 1, (-130)); (0x222, 0x232, 2, 1);
    (0x23A, 0x23A, 1, 10795); (0x23B, 0x23B, 1, 1);
    (0x23D, 0x23D, 1, (-163)); (0x23E, 0x23E, 1, 10792);
    (0x241, 0x241, 1, 1); (0x243, 0x243, 1, (-195));
    (0x244, 0x244, 1, 69); (0x245, 0x245, 1, 71); (0x246, 0x24E, 2, 1);
    (0x370, 0x372, 2, 1); (0x376, 0x376, 1, 1); (0x37F, 0x37F, 1, 116);
    (0x386, 0x386, 1, 38); (0x388, 0x38A, 1, 37); (0x38C, 0x38C, 1, 64);
    (0x38E, 0x38F, 1, 63); (0x391, 0x3A1, 1, 32); (0x3A3, 0x3AB, 1, 32);
    (0x3CF, 0x3CF, 1, 8); (0x3D8, 0x3EE, 2, 1); (0x3F4, 0x3F4, 1, (-60));
    (0x3F7, 0x3F7, 1, 1); (0x3F9, 0x3F9, 1, (-7)); (0x3FA, 0x3FA, 1, 1);
    (0x3FD, 0x3FF, 1, (-130)); (0x400, 0x40F, 1, 80);
    (0x410, 0x42F, 1, 32); (0x460, 0x480, 2, 1); (0x48A, 0x4BE, 2, 1);
    (0x4C0, 0x4C0, 1, 15); (0x4C1, 0x4CD, 2, 1); (0x4D0, 0x52E, 2, 1);
    (0x531, 0x556, 1, 48); (0x10A0, 0x10C5, 1, 7264);
    (0x10C7, 0x10C7, 1, 7264); (0x10CD, 0x10CD, 1, 7264);
    (0x13A0, 0x13EF, 1, 38864); (0x13F0, 0x13F5, 1, 8);
    (0x1C90, 0x1CBA, 1, (-3008)); (0x1CBD, 0x1CBF, 1, (-3008));
    (0x1E00, 0x1E94, 2, 1); (0x1E9E, 0x1E9E, 1, (-7615));
    (0x1EA0, 0x1EFE, 2, 1); (0x1F08, 0x1F0F, 1, (-8));
    (0x1F18, 0x1F1D, 1, (-8)); (0x1F28, 0x1F2F, 1, (-8));
    (0x1F38, 0x1F3F, 1, (-8)); (0x1F48, 0x1F4D, 1, (-8));
    (0x1F59, 0x1F5F, 2, (-8)); (0x1F68, 0x1F6F, 1, (-8));
    (0x1F88, 0x1F8F, 1, (-8)); (0x1F98, 0x1F9F, 1, (-8));
    (0x1FA8, 0x1FAF, 1, (-8)); (0x1FB8, 0x1FB9, 1, (-8));
    (0x1FBA, 0x1FBB, 1, (-74)); (0x1FBC, 0x1FBC, 1, (-9));
    (0x1FC8, 0x1FCB, 1, (-86)); (0x1FCC, 0x1FCC, 1, (-9));
    (0x1FD8, 0x1FD9, 1, (-8)); (0x1FDA, 0x1FDB, 1, (-100));
    (0x1FE8, 0x1FE9, 1, (-8)); (0x1FEA, 0x1FEB, 1, (-112));
    (0x1FEC, 0x1FEC, 1, (-7)); (0x1FF8, 0x1FF9, 1, (-128));
    (0x1FFA, 0x1FFB, 1, (-126)); (0x1FFC, 0x1FFC, 1, (-9));
    (0x2126, 0x2126, 1, (-7517)); (0x212A, 0x212A, 1, (-8383));
    (0x212B, 0x212B, 1, (-8262)); (0x2132, 0x2132, 1, 28);
    (0x2160, 0x216F, 1, 16); (0x2183, 0x2183, 1, 1);
    (0x24B6, 0x24CF, 1, 26); (0x2C00, 0x2C2F, 1, 48);
    (0x2C60, 0x2C60, 1, 1); (0x2C62, 0x2C62, 1, (-10743));
    (0x2C63, 0x2C63, 1, (-3814)); (0x2C64, 0x2C64, 1, (-10727));
    (0x2C67, 0x2C6B, 2, 1); (0x2C6D, 0x2C6D, 1, (-10780));
    (0x2C6E, 0x2C6E, 1, (-10749)); (0x2C6F, 0x2C6F, 1, (-10783));
    (0x2C70, 0x2C70, 1, (-10782)); (0x2C72, 0x2C72, 1, 1);
    (0x2C75, 0x2C75, 1, 1); (0x2C7E, 0x2C7F, 1, (-10815));
    (0x2C80, 0x2CE2, 2, 1); (0x2CEB, 0x2CED, 2, 1);
    (0x2CF2, 0x2CF2, 1, 1); (0xA640, 0xA66C, 2, 1);
    (0xA680, 0xA69A, 2, 1); (0xA722, 0xA72E, 2, 1);
    (0xA732, 0xA76E, 2, 1); (0xA779, 0xA77B, 2, 1);
    (0xA77D, 0xA77D, 1, (-35332)); (0xA77E, 0xA786, 2, 1);
    (0xA78B, 0xA78B, 1, 1); (0xA78D, 0xA78D, 1, (-42280));
    (0xA790, 0xA792, 2, 1); (0xA796, 0xA7A8, 2, 1);
    (0xA7AA, 0xA7AA, 1, (-42308)); (0xA7AB, 0xA7AB, 1, (-42319));
    (0xA7AC, 0xA7AC, 1, (-42315)); (0xA7AD, 0xA7AD, 1, (-42305));
    (0xA7AE, 0xA7AE, 1, (-42308)); (0xA7B0, 0xA7B0, 1, (-42258));
    (0xA7B1, 0xA7B1, 1, (-42282)); (0xA7B2, 0xA7B2, 1, (-42261));
    (0xA7B3, 0xA7B3, 1, 928); (0xA7B4, 0xA7C2, 2, 1);
    (0xA7C4, 0xA7C4, 1, (-48)); (0xA7C5, 0xA7C5, 1, (-42307));
    (0xA7C6, 0xA7C6, 1, (-35384)); (0xA7C7, 0xA7C9, 2, 1);
    (0xA7D0, 0xA7D0, 1, 1); (0xA7D6, 0xA7D8, 2, 1);
    (0xA7F5, 0xA7F5, 1, 1); (0xFF21, 0xFF3A, 1, 32);
    (0x10400, 0x10427, 1, 40); (0x104B0, 0x104D3, 1, 40);
    (0x10570, 0x1057A, 1, 39); (0x1057C, 0x1058A, 1, 39);
    (0x1058C, 0x10592, 1, 39); (0x10594, 0x10595, 1, 39);
    (0x10C80, 0x10CB2, 1, 64); (0x118A0, 0x118BF, 1, 32);
    (0x16E40, 0x16E5F, 1, 32); (0x1E900, 0x1E921, 1, 34) ].

(** The property Cased. *)
Definition cased_ranges : list (Z * Z) :=
  [ (0x41, 0x5A); (0x61, 0x7A); (0xAA, 0xAA); (0xB5, 0xB5); (0xBA, 0xBA);
    (0xC0, 0xD6); (0xD8, 0xF6); (0xF8, 0x1BA); (0x1BC, 0x1BF);
    (0x1C4, 0x293); (0x295, 0x2B8); (0x2C0, 0x2C1); (0x2E0, 0x2E4);
    (0x345, 0x345); (0x370, 0x373); (0x376, 0x377); (0x37A, 0x37D);
    (0x37F, 0x37F); (0x386, 0x386); (0x388, 0x38A); (0x38C, 0x38C);
    (0x38E, 0x3A1); (0x3A3, 0x3F5); (0x3F7, 0x481); (0x48A, 0x52F);
    (0x531, 0x556); (0x560, 0x588); (0x10A0, 0x10C5); (0x10C7, 0x10C7);
    (0x10CD, 0x10CD); (0x10D0, 0x10FA); (0x10FD, 0x10FF);
    (0x13A0, 0x13F5); (0x13F8, 0x13FD); (0x1C80, 0x1C88);
    (0x1C90, 0x1CBA); (0x1CBD, 0x1CBF); (0x1D00, 0x1DBF);
    (0x1E00, 0x1F15); (0x1F18, 0x1F1D); (0x1F20, 0x1F45);
    (0x1F48, 0x1F4D); (0x1F50, 0x1F57); (0x1F59, 0x1F59);
    (0x1F5B, 0x1F5B); (0x1F5D, 0x1F5D); (0x1F5F, 0x1F7D);
    (0x1F80, 0x1FB4); (0x1FB6, 0x1FBC); (0x1FBE, 0x1FBE);
    (0x1FC2, 0x1FC4); (0x1FC6, 0x1FCC); (0x1FD0, 0x1FD3);
    (0x1FD6, 0x1FDB); (0x1FE0, 0x1FEC); (0x1FF2, 0x1FF4);
    (0x1FF6, 0x1FFC); (0x2071, 0x2071); (0x207F, 0x207F);
    (0x2090, 0x209C); (0x2102, 0x2102); (0x2107, 0x2107);
    (0x210A, 0x2113); (0x2115, 0x2115); (0x2119, 0x211D);
    (0x2124, 0x2124); (0x2126, 0x2126); (0x2128, 0x2128);
    (0x212A, 0x212D); (0x212F, 0x2134); (0x2139, 0x2139);
    (0x213C, 0x213F); (0x2145, 0x2149); (0x214E, 0x214E);
    (0x2160, 0x217F); (0x2183, 0x2184); (0x24B6, 0x24E9);
    (0x2C00, 0x2CE4); (0x2CEB, 0x2CEE); (0x2CF2, 0x2CF3);
    (0x2D00, 0x2D25); (0x2D27, 0x2D27); (0x2D2D, 0x2D2D);
    (0xA640, 0xA66D); (0xA680, 0xA69D); (0xA722, 0xA787);
    (0xA78B, 0xA78E); (0xA790, 0xA7CA); (0xA7D0, 0xA7D1);
    (0xA7D3, 0xA7D3); (0xA7D5, 0xA7D9); (0xA7F5, 0xA7F6);
    (0xA7F8, 0xA7FA); (0xAB30, 0xAB5A); (0xAB5C, 0xAB68);
    (0xAB70, 0xABBF); (0xFB00, 0xFB06); (0xFB13, 0xFB17);
    (0xFF21, 0xFF3A); (0xFF41, 0xFF5A); (0x10400, 0x1044F);
    (0x104B0, 0x104D3); (0x104D8, 0x104FB); (0x10570, 0x1057A);
    (0x1057C, 0x1058A); (0x1058C, 0x10592); (0x10594, 0x10595);
    (0x10597, 0x105A1); (0x105A3, 0x105B1); (0x105B3, 0x105B9);
    (0x105BB, 0x105BC); (0x10780, 0x10780); (0x10783, 0x10785);
    (0x10787, 0x107B0); (0x107B2, 0x107BA); (0x10C80, 0x10CB2);
    (0x10CC0, 0x10CF2); (0x118A0, 0x118DF); (0x16E40, 0x16E7F);
    (0x1D400, 0x1D454); (0x1D456, 0x1D49C); (0x1D49E, 0x1D49F);
    (0x1D4A2, 0x1D4A2); (0x1D4A5, 0x1D4A6); (0x1D4A9, 0x1D4AC);
    (0x1D4AE, 0x1D4B9); (0x1D4BB, 0x1D4BB); (0x1D4BD, 0x1D4C3);
    (0x1D4C5, 0x1D505); (0x1D507, 0x1D50A); (0x1D50D, 0x1D514);
    (0x1D516, 0x1D51C); (0x1D51E, 0x1D539); (0x1D53B, 0x1D53E);
    (0x1D540, 0x1D544); (0x1D546, 0x1D546); (0x1D54A, 0x1D550);
    (0x1D552, 0x1D6A5); (0x1D6A8, 0x1D6C0); (0x1D6C2, 0x1D6DA);
    (0x1D6DC, 0x1D6FA); (0x1D6FC, 0x1D714); (0x1D716, 0x1D734);
    (0x1D736, 0x1D74E); (0x1D750, 0x1D76E); (0x1D770, 0x1D788);
    (0x1D78A, 0x1D7A8); (0x1D7AA, 0x1D7C2); (0x1D7C4, 0x1D7CB);
    (0x1DF00, 0x1DF09); (0x1DF0B, 0x1DF1E); (0x1E900, 0x1E943);
    (0x1F130, 0x1F149); (0x1F150, 0x1F169); (0x1F170, 0x1F189) ].

(** The property Case_Ignorable. *)
Definition case_ignorable_ranges : list (Z * Z) :=
  [ (0x27, 0x27); (0x2E, 0x2E); (0x3A, 0x3A); (0x5E, 0x5E); (0x60, 0x60);
    (0xA8, 0xA8); (0xAD, 0xAD); (0xAF, 0xAF); (0xB4, 0xB4); (0xB7, 0xB8);
    (0x2B0, 0x36F); (0x374, 0x375); (0x37A, 0x37A); (0x384, 0x385);
    (0x387, 0x387); (0x483, 0x489); (0x559, 0x559); (0x55F, 0x55F);
    (0x591, 0x5BD); (0x5BF, 0x5BF); (0x5C1, 0x5C2); (0x5C4, 0x5C5);
    (0x5C7, 0x5C7); (0x5F4, 0x5F4); (0x600, 0x605); (0x610, 0x61A);
    (0x61C, 0x61C); (0x640, 0x640); (0x64B, 0x65F); (0x670, 0x670);
    (0x6D6, 0x6DD); (0x6DF, 0x6E8); (0x6EA, 0x6ED); (0x70F, 0x70F);
    (0x711, 0x711); (0x730, 0x74A); (0x7A6, 0x7B0); (0x7EB, 0x7F5);
    (0x7FA, 0x7FA); (0x7FD, 0x7FD); (0x816, 0x82D); (0x859, 0x85B);
    (0x888, 0x888); (0x890, 0x891); (0x898, 0x89F); (0x8C9, 0x902);
    (0x93A, 0x93A); (0x93C, 0x93C); (0x941, 0x948); (0x94D, 0x94D);
    (0x951, 0x957); (0x962, 0x963); (0x971, 0x971); (0x981, 0x981);
    (0x9BC, 0x9BC); (0x9C1, 0x9C4); (0x9CD, 0x9CD); (0x9E2, 0x9E3);
    (0x9FE, 0x9FE); (0xA01, 0xA02); (0xA3C, 0xA3C); (0xA41, 0xA42);
    (0xA47, 0xA48); (0xA4B, 0xA4D); (0xA51, 0xA51); (0xA70, 0xA71);
    (0xA75, 0xA75); (0xA81, 0xA82); (0xABC, 0xABC); (0xAC1, 0xAC5);
    (0xAC7, 0xAC8); (0xACD, 0xACD); (0xAE2, 0xAE3); (0xAFA, 0xAFF);
    (0xB01, 0xB01); (0xB3C, 0xB3C); (0xB3F, 0xB3F); (0xB41, 0xB44);
    (0xB4D, 0xB4D); (0xB55, 0xB56); (0xB62, 0xB63); (0xB82, 0xB82);
    (0xBC0, 0xBC0); (0xBCD, 0xBCD); (0xC00, 0xC00); (0xC04, 0xC04);
    (0xC3C, 0xC3C); (0xC3E, 0xC40); (0xC46, 0xC48); (0xC4A, 0xC4D);
    (0xC55, 0xC56); (0xC62, 0xC63); (0xC81, 0xC81); (0xCBC, 0xCBC);
    (0xCBF, 0xCBF); (0xCC6, 0xCC6); (0xCCC, 0xCCD); (0xCE2, 0xCE3);
    (0xD00, 0xD01); (0xD3B, 0xD3C); (0xD41, 0xD44); (0xD4D, 0xD4D);
    (0xD62, 0xD63); (0xD81, 0xD81); (0xDCA, 0xDCA); (0xDD2, 0xDD4);
    (0xDD6, 0xDD6); (0xE31, 0xE31); (0xE34, 0xE3A); (0xE46, 0xE4E);
    (0xEB1, 0xEB1); (0xEB4, 0xEBC); (0xEC6, 0xEC6); (0xEC8, 0xECD);
    (0xF18, 0xF19); (0xF35, 0xF35); (0xF37, 0xF37); (0xF39, 0xF39);
    (0xF71, 0xF7E); (0xF80, 0xF84); (0xF86, 0xF87); (0xF8D, 0xF97);
    (0xF99, 0xFBC); (0xFC6, 0xFC6); (0x102D, 0x1030); (0x1032, 0x1037);
    (0x1039, 0x103A); (0x103D, 0x103E); (0x1058, 0x1059);
    (0x105E, 0x1060); (0x1071, 0x1074); (0x1082, 0x1082);
    (0x1085, 0x1086); (0x108D, 0x108D); (0x109D, 0x109D);
    (0x10FC, 0x10FC); (0x135D, 0x135F); (0x1712, 0x1714);
    (0x1732, 0x1733); (0x1752, 0x1753); (0x1772, 0x1773);
    (0x17B4, 0x17B5); (0x17B7, 0x17BD); (0x17C6, 0x17C6);
    (0x17C9, 0x17D3); (0x17D7, 0x17D7); (0x17DD, 0x17DD);
    (0x180B, 0x180F); (0x1843, 0x1843); (0x1885, 0x1886);
    (0x18A9, 0x18A9); (0x1920, 0x1922); (0x1927, 0x1928);
    (0x1932, 0x1932); (0x1939, 0x193B); (0x1A17, 0x1A18);
    (0x1A1B, 0x1A1B); (0x1A56, 0x1A56); (0x1A58, 0x1A5E);
    (0x1A60, 0x1A60); (0x1A62, 0x1A62); (0x1A65, 0x1A6C);
    (0x1A73, 0x1A7C); (0x1A7F, 0x1A7F); (0x1AA7, 0x1AA7);
    (0x1AB0, 0x1ACE); (0x1B00, 0x1B03); (0x1B34, 0x1B34);
    (0x1B36, 0x1B3A); (0x1B3C, 0x1B3C); (0x1B42, 0x1B42);
    (0x1B6B, 0x1B73); (0x1B80, 0x1B81); (0x1BA2, 0x1BA5);
    (0x1BA8, 0x1BA9); (0x1BAB, 0x1BAD); (0x1BE6, 0x1BE6);
    (0x1BE8, 0x1BE9); (0x1BED, 0x1BED); (0x1BEF, 0x1BF1);
    (0x1C2C, 0x1C33); (0x1C36, 0x1C37); (0x1C78, 0x1C7D);
    (0x1CD0, 0x1CD2); (0x1CD4, 0x1CE0); (0x1CE2, 0x1CE8);
    (0x1CED, 0x1CED); (0x1CF4, 0x1CF4); (0x1CF8, 0x1CF9);
    (0x1D2C, 0x1D6A); (0x1D78, 0x1D78); (0x1D9B, 0x1DFF);
    (0x1FBD, 0x1FBD); (0x1FBF, 0x1FC1); (0x1FCD, 0x1FCF);
    (0x1FDD, 0x1FDF); (0x1FED, 0x1FEF); (0x1FFD, 0x1FFE);
    (0x200B, 0x200F); (0x2018, 0x2019); (0x2024, 0x2024);
    (0x2027, 0x2027); (0x202A, 0x202E); (0x2060, 0x2064);
    (0x2066, 0x206F); (0x2071, 0x2071); (0x207F, 0x207F);
    (0x2090, 0x209C); (0x20D0, 0x20F0); (0x2C7C, 0x2C7D);
    (0x2CEF, 0x2CF1); (0x2D6F, 0x2D6F); (0x2D7F, 0x2D7F);
    (0x2DE0, 0x2DFF); (0x2E2F, 0x2E2F); (0x3005, 0x3005);
    (0x302A, 0x302D); (0x3031, 0x3035); (0x303B, 0x303B);
    (0x3099, 0x309E); (0x30FC, 0x30FE); (0xA015, 0xA015);
    (0xA4F8, 0xA4FD); (0xA60C, 0xA60C); (0xA66F, 0xA672);
    (0xA674, 0xA67D); (0xA67F, 0xA67F); (0xA69C, 0xA69F);
    (0xA6F0, 0xA6F1); (0xA700, 0xA721); (0xA770, 0xA770);
    (0xA788, 0xA78A); (0xA7F2, 0xA7F4); (0xA7F8, 0xA7F9);
    (0xA802, 0xA802); (0xA806, 0xA806); (0xA80B, 0xA80B);
    (0xA825, 0xA826); (0xA82C, 0xA82C); (0xA8C4, 0xA8C5);
    (0xA8E0, 0xA8F1); (0xA8FF, 0xA8FF); (0xA926, 0xA92D);
    (0xA947, 0xA951); (0xA980, 0xA982); (0xA9B3, 0xA9B3);
    (0xA9B6, 0xA9B9); (0xA9BC, 0xA9BD); (0xA9CF, 0xA9CF);
    (0xA9E5, 0xA9E6); (0xAA29, 0xAA2E); (0xAA31, 0xAA32);
    (0xAA35, 0xAA36); (0xAA43, 0xAA43); (0xAA4C, 0xAA4C);
    (0xAA70, 0xAA70); (0xAA7C, 0xAA7C); (0xAAB0, 0xAAB0);
    (0xAAB2, 0xAAB4); (0xAAB7, 0xAAB8); (0xAABE, 0xAABF);
    (0xAAC1, 0xAAC1); (0xAADD, 0xAADD); (0xAAEC, 0xAAED);
    (0xAAF3, 0xAAF4); (0xAAF6, 0xAAF6); (0xAB5B, 0xAB5F);
    (0xAB69, 0xAB6B); (0xABE5, 0xABE5); (0xABE8, 0xABE8);
    (0xABED, 0xABED); (0xFB1E, 0xFB1E); (0xFBB2, 0xFBC2);
    (0xFE00, 0xFE0F); (0xFE13, 0xFE13); (0xFE20, 0xFE2F);
    (0xFE52, 0xFE52); (0xFE55, 0xFE55); (0xFEFF, 0xFEFF);
    (0xFF07, 0xFF07); (0xFF0E, 0xFF0E); (0xFF1A, 0xFF1A);
    (0xFF3E, 0xFF3E); (0xFF40, 0xFF40); (0xFF70, 0xFF70);
    (0xFF9E, 0xFF9F); (0xFFE3, 0xFFE3); (0xFFF9, 0xFFFB);
    (0x101FD, 0x101FD); (0x102E0, 0x102E0); (0x10376, 0x1037A);
    (0x10780, 0x10785); (0x10787, 0x107B0); (0x107B2, 0x107BA);
    (0x10A01, 0x10A03); (0x10A05, 0x10A06); (0x10A0C, 0x10A0F);
    (0x10A38, 0x10A3A); (0x10A3F, 0x10A3F); (0x10AE5, 0x10AE6);
    (0x10D24, 0x10D27); (0x10EAB, 0x10EAC); (0x10F46, 0x10F50);
    (0x10F82, 0x10F85); (0x11001, 0x11001); (0x11038, 0x11046);
    (0x11070, 0x11070); (0x11073, 0x11074); (0x1107F, 0x11081);
    (0x110B3, 0x110B6); (0x110B9, 0x110BA); (0x110BD, 0x110BD);
    (0x110C2, 0x110C2); (0x110CD, 0x110CD); (0x11100, 0x11102);
    (0x11127, 0x1112B); (0x1112D, 0x11134); (0x11173, 0x11173);
    (0x11180, 0x11181); (0x111B6, 0x111BE); (0x111C9, 0x111CC);
    (0x111CF, 0x111CF); (0x1122F, 0x11231); (0x11234, 0x11234);
    (0x11236, 0x11237); (0x1123E, 0x1123E); (0x112DF, 0x112DF);
    (0x112E3, 0x112EA); (0x11300, 0x11301); (0x1133B, 0x1133C);
    (0x11340, 0x11340); (0x11366, 0x1136C); (0x11370, 0x11374);
    (0x11438, 0x1143F); (0x11442, 0x11444); (0x11446, 0x11446);
    (0x1145E, 0x1145E); (0x114B3, 0x114B8); (0x114BA, 0x114BA);
    (0x114BF, 0x114C0); (0x114C2, 0x114C3); (0x115B2, 0x115B5);
    (0x115BC, 0x115BD); (0x115BF, 0x115C0); (0x115DC, 0x115DD);
    (0x11633, 0x1163A); (0x1163D, 0x1163D); (0x1163F, 0x11640);
    (0x116AB, 0x116AB); (0x116AD, 0x116AD); (0x116B0, 0x116B5);
    (0x116B7, 0x116B7); (0x1171D, 0x1171F); (0x11722, 0x11725);
    (0x11727, 0x1172B); (0x1182F, 0x11837); (0x11839, 0x1183A);
    (0x1193B, 0x1193C); (0x1193E, 0x1193E); (0x11943, 0x11943);
    (0x119D4, 0x119D7); (0x119DA, 0x119DB); (0x119E0, 0x119E0);
    (0x11A01, 0x11A0A); (0x11A33, 0x11A38); (0x11A3B, 0x11A3E);
    (0x11A47, 0x11A47); (0x11A51, 0x11A56); (0x11A59, 0x11A5B);
    (0x11A8A, 0x11A96); (0x11A98, 0x11A99); (0x11C30, 0x11C36);
    (0x11C38, 0x11C3D); (0x11C3F, 0x11C3F); (0x11C92, 0x11CA7);
    (0x11CAA, 0x11CB0); (0x11CB2, 0x11CB3); (0x11CB5, 0x11CB6);
    (0x11D31, 0x11D36); (0x11D3A, 0x11D3A); (0x11D3C, 0x11D3D);
    (0x11D3F, 0x11D45); (0x11D47, 0x11D47); (0x11D90, 0x11D91);
    (0x11D95, 0x11D95); (0x11D97, 0x11D97); (0x11EF3, 0x11EF4);
    (0x13430, 0x13438); (0x16AF0, 0x16AF4); (0x16B30, 0x16B36);
    (0x16B40, 0x16B43); (0x16F4F, 0x16F4F); (0x16F8F, 0x16F9F);
    (0x16FE0, 0x16FE1); (0x16FE3, 0x16FE4); (0x1AFF0, 0x1AFF3);
    (0x1AFF5, 0x1AFFB); (0x1AFFD, 0x1AFFE); (0x1BC9D, 0x1BC9E);
    (0x1BCA0, 0x1BCA3); (0x1CF00, 0x1CF2D); (0x1CF30, 0x1CF46);
    (0x1D167, 0x1D169); (0x1D173, 0x1D182); (0x1D185, 0x1D18B);
    (0x1D1AA, 0x1D1AD); (0x1D242, 0x1D244); (0x1DA00, 0x1DA36);
    (0x1DA3B, 0x1DA6C); (0x1DA75, 0x1DA75); (0x1DA84, 0x1DA84);
    (0x1DA9B, 0x1DA9F); (0x1DAA1, 0x1DAAF); (0x1E000, 0x1E006);
    (0x1E008, 0x1E018); (0x1E01B, 0x1E021); (0x1E023, 0x1E024);
    (0x1E026, 0x1E02A); (0x1E130, 0x1E13D); (0x1E2AE, 0x1E2AE);
    (0x1E2EC, 0x1E2EF); (0x1E8D0, 0x1E8D6); (0x1E944, 0x1E94B);
    (0x1F3FB, 0x1F3FF); (0xE0001, 0xE0001); (0xE0020, 0xE007F);
    (0xE0100, 0xE01EF) ].

Definition in_ranges (rs : list (Z * Z)) (c : Z) : bool :=
  existsb (fun r => (r.1 <=? c) && (c <=? r.2)) rs.

(** [Py_UNICODE_ISSPACE] *)
Definition isspace (c : Z) : bool := in_ranges space_ranges c.

(** [Py_UNICODE_TODECIMAL]: the value of a decimal digit. *)
Definition decimal (c : Z) : option Z :=
  match find (fun z => (z <=? c) && (c <=? z + 9)) digit_zeros with
  | Some z => Some (c - z)
  | None => None
  end.

(** [Py_UNICODE_ISDECIMAL], which is also [\d]. *)
Definition isdecimal (c : Z) : bool :=
  match decimal c with Some _ => true | None => false end.

Definition in_lower_range (c : Z) (r : Z * Z * Z * Z) : bool :=
  let '(first, last, step, _) := r in
  (first <=? c) && (c <=? last) && ((c - first) mod step =? 0).

(** [_PyUnicode_ToLowerFull]: U+0130 is the one character whose lowercase
    form has two characters. *)
Definition to_lower_full (c : Z) : pystr :=
  if c =? 0x130 then [0x69; 0x307]
  else match find (in_lower_range c) lower_ranges with
       | Some (_, _, _, delta) => [c + delta]
       | None => [c]
       end.

(** [_PyUnicode_IsCased] and [_PyUnicode_IsCaseIgnorable] *)
Definition is_cased (c : Z) : bool := in_ranges cased_ranges c.
Definition is_case_ignorable (c : Z) : bool :=
  in_ranges case_ignorable_ranges c.

(** [handle_capital_sigma]: U+03A3 is in final position when a cased
    letter stands before it and none after it, case-ignorable characters
    aside.  [before] holds the characters before it, nearest first. *)
Definition final_sigma (before after : pystr) : bool :=
  match lstrip_by is_case_ignorable before with
  | [] => false
  | c :: _ =>
      is_cased c
      && match lstrip_by is_case_ignorable after with
         | [] => true
         | d :: _ => negb (is_cased d)
         end
  end.

(** The lowercase form of the character [c] between [before] and
    [after]. *)
Definition lower_char (before : pystr) (c : Z) (after : pystr) : pystr :=
  if c =? 0x3A3
  then [if final_sigma before after then 0x3C2 else 0x3C3]
  else to_lower_full c.

Fixpoint lower_aux (before s : pystr) : pystr :=
  match s with
  | [] => []
  | c :: s' => lower_char before c s' ++ lower_aux (c :: before) s'
  end.

(** [s.lower()] *)
Definition lower (s : pystr) : pystr := lower_aux [] s.

(** [s.strip()] *)
Definition strip (s : pystr) : pystr := strip_by isspace s.

End Unicode.

(** ** Regular expressions

    The part of Python's [re] that [smart_summary] uses, with the search
    order of its backtracking matcher: alternatives from the left,
    repetitions greedy.  Patterns are compiled for [str], so [\d] and [\s]
    are the Unicode classes. *)

Module Re.

Import Unicode.

(** An item of a character set. *)
Inductive citem :=
| CChar (c : Z)
| CRange (lo hi : Z)
| CDigit   (* \d *)
| CSpace.  (* \s *)

Definition citem_matches (i : citem) (c : Z) : bool :=
  match i with
  | CChar d => c =? d
  | CRange lo hi => (lo <=? c) && (c <=? hi)
  | CDigit => isdecimal c
  | CSpace => isspace c
  end.

Inductive regex :=
| Eps
| OneOf (items : list citem)    (* [...], a literal, \d, \s *)
| NoneOf (items : list citem)   (* [^...] *)
| Seq (r1 r2 : regex)
| Alt (r1 r2 : regex)           (* r1|r2 *)
| Star (r : regex)              (* r* *)
| Bol                           (* ^ *)
| Eol.                          (* $ *)

Definition Lit (c : Z) : regex := OneOf [CChar c].
Definition Chars (s : pystr) : list citem := map CChar s.
Definition Digit : regex := OneOf [CDigit].
Definition Space : regex := OneOf [CSpace].
Definition Cat (rs : list regex) : regex := foldr Seq Eps rs.
(** [r+] *)
Definition Plus (r : regex) : regex := Seq r (Star r).
(** [r{n}] *)
Fixpoint Repeat (n : nat) (r : regex) : regex :=
  match n with O => Eps | S n' => Seq r (Repeat n' r) end.
(** [r{0,n}] *)
Fixpoint UpTo (n : nat) (r : regex) : regex :=
  match n with O => Eps | S n' => Alt (Seq r (UpTo n' r)) Eps end.
(** [r{m,n}] *)
Definition Between (m n : nat) (r : regex) : regex :=
  Seq (Repeat m r) (UpTo (n - m) r).
(** [r{m,}] *)
Definition AtLeast (m : nat) (r : regex) : regex :=
  Seq (Repeat m r) (Star r).

(** A matcher takes the index [pos], the rest [s] of the subject from
    [pos] on and a continuation [k], to which it hands the index and the
    rest behind the match; [None] sends it back to its last choice. *)
Definition matcher : Type :=
  nat -> pystr -> (nat -> pystr -> option nat) -> option nat.

(** The greedy repetition of [body]: one more iteration is tried before
    the continuation.  An iteration must consume a character (the bodies of
    the repetitions of this file match no empty string), so [length s]
    iterations at most follow and [fuel] is never used up. *)
Fixpoint star_loop (body : matcher) (k : nat -> pystr -> option nat)
    (fuel pos : nat) (s : pystr) : option nat :=
  match fuel with
  | O => k pos s
  | S fuel' =>
      match body pos s
              (fun pos' s' =>
                 if (length s' <? length s)%nat
                 then star_loop body k fuel' pos' s' else None) with
      | Some e => Some e
      | None => k pos s
      end
  end.

(** [run r pos s k]: match [r] at index [pos]. *)
Fixpoint run (r : regex) : matcher :=
  fun pos s k =>
  match r with
  | Eps => k pos s
  | OneOf items =>
      match s with
      | c :: s' =>
          if existsb (fun i => citem_matches i c) items
          then k (S pos) s' else None
      | [] => None
      end
  | NoneOf items =>
      match s with
      | c :: s' =>
          if existsb (fun i => citem_matches i c) items
          then None else k (S pos) s'
      | [] => None
      end
  | Seq r1 r2 => run r1 pos s (fun pos' s' => run r2 pos' s' k)
  | Alt r1 r2 =>
      match run r1 pos s k with
      | Some e => Some e
      | None => run r2 pos s k
      end
  | Star r1 => star_loop (run r1) k (S (length s)) pos s
  | Bol => if (pos =? 0)%nat then k pos s else None
  | Eol =>
      match s with
      | [] => k pos s
      | [c] => if c =? 10 then k pos s else None   (* a final newline *)
      | _ => None
      end
  end.

(** The end of the match of [r] that starts at [pos], if there is one. *)
Definition match_at (r : regex) (pos : nat) (s : pystr) : option nat :=
  run r pos s (fun pos' _ => Some pos').

(** [re.sub(r, "", s)] for a pattern that matches no empty string: the
    leftmost match is deleted and the search goes on behind it.  [skip]
    counts the characters of the match that are still to be dropped. *)
Fixpoint sub_aux (r : regex) (pos skip : nat) (s : pystr) : pystr :=
  match s with
  | [] => []
  | c :: s' =>
      match skip with
      | S n => sub_aux r (S pos) n s'
      | O =>
          match match_at r pos s with
          | Some e =>
              if (pos <? e)%nat then sub_aux r (S pos) (e - pos - 1) s'
              else c :: sub_aux r (S pos) 0 s'
          | None => c :: sub_aux r (S pos) 0 s'
          end
      end
  end.

Definition sub (r : regex) (s : pystr) : pystr := sub_aux r 0 0 s.

End Re.

(** ** Exceptions *)

Module Exn.

Inductive exn := ValueError | OverflowError.

Inductive result (A : Type) :=
| Return (a : A)
| Raise (e : exn).
Arguments Return {A} a.
Arguments Raise {A} e.

Definition bind {A B} (r : result A) (f : A -> result B) : result B :=
  match r with
  | Return a => f a
  | Raise e => Raise e
  end.

(** [try: body  except ValueError: handler] *)
Definition except_ValueError {A} (body handler : result A) : result A :=
  match body with
  | Raise ValueError => handler
  | _ => body
  end.

End Exn.

(** ** Numbers: [float], [int(str)], [float(str)], [int(float)] *)

Module PyNum.

Import Unicode Exn.

(** *** binary64 *)

Definition prec : Z := 53.
Definition emax : Z := 1024.

Definition float := spec_float.
Definition fmul : float -> float -> float := SFmul prec emax.


(** An [int] operand of a float operation ([PyLong_AsDouble]); every
    integer of the source is far below the overflow threshold. *)
Definition float_of_int (n : Z) : float := binary_normalize prec emax n 0 false.

(** The nearest binary64 value, ties to even, of [d * 10 ^ e10], with the
    sign [neg]: the result of [_Py_dg_strtod] on the digits [d]. *)
Definition float_of_decimal (neg : bool) (d : Z) (e10 : Z) : float :=
  match d with
  | Zpos p =>
      if 0 <=? e10
      then binary_round prec emax neg (p * Z.to_pos (10 ^ e10)) 0
      else SFdiv prec emax (S754_finite neg p 0)
                 (S754_finite false (Z.to_pos (10 ^ (- e10))) 0)
  | _ => S754_zero neg
  end.


(** [int(x)] for a float [x] ([PyLong_FromDouble]): truncation towards
    zero. *)
Definition int_of_float (x : float) : result Z :=
  match x with
  | S754_nan => Raise ValueError
  | S754_infinity _ => Raise OverflowError
  | S754_zero _ => Return 0
  | S754_finite s m e =>
      let a := if 0 <=? e then Zpos m * 2 ^ e else Zpos m / 2 ^ (- e) in
      Return (if s then - a else a)
  end.

(** *** Reading numbers

    [int] and [float] first map the string to ASCII
    ([_PyUnicode_TransformDecimalAndSpaceToASCII]): a decimal digit of any
    script becomes its ASCII digit, white space beyond ASCII becomes a
    space, and the string is cut behind the first other character beyond
    ASCII, which becomes a question mark. *)

Fixpoint to_ascii_aux (s : pystr) : pystr :=
  match s with
  | [] => []
  | c :: s' =>
      if c <? 127 then c :: to_ascii_aux s'
      else if isspace c then 0x20 :: to_ascii_aux s'
      else match decimal c with
           | Some d => (0x30 + d) :: to_ascii_aux s'
           | None => [0x3F]
           end
  end.

Definition to_ascii (s : pystr) : pystr :=
  if forallb (fun c => c <? 128) s then s else to_ascii_aux s.

(** [Py_ISSPACE] *)
Definition c_isspace (c : Z) : bool :=
  (c =? 0x20) || ((0x09 <=? c) && (c <=? 0x0D)).

Definition digit_value (c : Z) : option Z :=
  if (0x30 <=? c) && (c <=? 0x39) then Some (c - 0x30) else None.

Definition is_digit (c : Z) : bool :=
  match digit_value c with Some _ => true | None => false end.

(** An optional sign: [true] for a minus sign. *)
Definition read_sign (s : pystr) : bool * pystr :=
  match s with
  | c :: s' =>
      if c =? 0x2D then (true, s')
      else if c =? 0x2B then (false, s')
      else (false, s)
  | [] => (false, s)
  end.

(** The first character of [s] is [c]. *)
Definition head_is (c : Z) (s : pystr) : bool :=
  match s with
  | d :: _ => d =? c
  | [] => false
  end.

(** [sys.int_info.default_max_str_digits] *)
Definition int_max_str_digits : Z := 4300.

(** The digits of [PyLong_FromString] in base 10, with single underscores
    between them: the value, the number of digits and the rest.
    [after_underscore] says that the last character read was an
    underscore. *)
Fixpoint int_digits (acc ndigits : Z) (after_underscore : bool)
    (s : pystr) : option (Z * Z * pystr) :=
  match s with
  | [] => if after_underscore then None else Some (acc, ndigits, s)
  | c :: s' =>
      if c =? 0x5F then
        if after_underscore then None else int_digits acc ndigits true s'
      else
        match digit_value c with
        | Some d => int_digits (10 * acc + d) (ndigits + 1) false s'
        | None => if after_underscore then None else Some (acc, ndigits, s)
        end
  end.

(** [int(s)] for a string [s] ([PyLong_FromUnicodeObject] in base 10). *)
Definition py_int (s : pystr) : result Z :=
  let t := lstrip_by c_isspace (to_ascii s) in
  let '(neg, t) := read_sign t in
  if head_is 0x5F t then Raise ValueError
  else
    match int_digits 0 0 false t with
    | None => Raise ValueError
    | Some (v, ndigits, rest) =>
        if ndigits =? 0 then Raise ValueError
        else if int_max_str_digits <? ndigits then Raise ValueError
        else if is_empty (lstrip_by c_isspace rest)
             then Return (if neg then - v else v)
             else Raise ValueError
    end.

(** [_Py_string_to_number_with_underscores]: an underscore must stand
    between two digits; the underscores are then dropped. *)
Fixpoint drop_underscores (prev : Z) (s : pystr) : option pystr :=
  match s with
  | [] => if prev =? 0x5F then None else Some []
  | c :: s' =>
      if c =? 0x5F then
        if is_digit prev then drop_underscores c s' else None
      else if (prev =? 0x5F) && negb (is_digit c) then None
      else option_map (cons c) (drop_underscores c s')
  end.

(** A run of digits: the value appended to [acc], the number of digits
    read and the rest. *)
Fixpoint digits (acc n : Z) (s : pystr) : Z * Z * pystr :=
  match s with
  | [] => (acc, n, s)
  | c :: s' =>
      match digit_value c with
      | Some d => digits (10 * acc + d) (n + 1) s'
      | None => (acc, n, s)
      end
  end.

(** [Py_TOLOWER] *)
Definition c_tolower (c : Z) : Z :=
  if (0x41 <=? c) && (c <=? 0x5A) then c + 32 else c.

(** [case_insensitive_match]: the rest behind the word [t], if [s] starts
    with it. *)
Fixpoint match_word (s t : pystr) : option pystr :=
  match t, s with
  | [], _ => Some s
  | _ :: _, [] => None
  | d :: t', c :: s' =>
      if c_tolower c =? d then match_word s' t' else None
  end.

(** [_Py_parse_inf_or_nan] *)
Definition parse_inf_or_nan (s : pystr) : option (float * pystr) :=
  let '(neg, t) := read_sign s in
  match match_word t (u "inf") with
  | Some t1 =>
      match match_word t1 (u "inity") with
      | Some t2 => Some (S754_infinity neg, t2)
      | None => Some (S754_infinity neg, t1)
      end
  | None =>
      match match_word t (u "nan") with
      | Some t1 => Some (S754_nan, t1)
      | None => None
      end
  end.

(** Significant digits beyond this bound are refused ([MAX_DIGITS]). *)
Definition max_digits : Z := 1000000000.

Definition count_leading_zeros (s : pystr) : Z :=
  len s - len (lstrip_by (Z.eqb 0x30) s).

(** The exponent part [e[+-]digits]; without a digit it is not part of
    the number. *)
Definition read_exponent (s : pystr) : Z * pystr :=
  match s with
  | c :: s1 =>
      if (c =? 0x65) || (c =? 0x45) then
        let '(eneg, s2) := read_sign s1 in
        let '(e, n, s3) := digits 0 0 s2 in
        if n =? 0 then (0, s) else (if eneg then - e else e, s3)
      else (0, s)
  | [] => (0, s)
  end.

(** [_Py_dg_strtod]: sign, digits with an optional point, optional
    exponent; the value and the rest, or [None] when no digit is there.
    [zeros] counts the zeros before the first other digit; the digits
    behind them and the digits behind the point are bounded. *)
Definition parse_decimal (s : pystr) : option (float * pystr) :=
  let '(neg, s1) := read_sign s in
  let '(ip, n_int, s2) := digits 0 0 s1 in
  let '(d, n_frac, s3) :=
    if head_is 0x2E s2 then digits ip 0 (tail s2) else (ip, 0, s2) in
  if n_int + n_frac =? 0 then None
  else
    let zeros :=
      if ip =? 0 then
        n_int + (if head_is 0x2E s2 then count_leading_zeros (tail s2)
                 else 0)
      else count_leading_zeros s1 in
    if (max_digits <? n_int + n_frac - zeros) || (max_digits <? n_frac)
    then None
    else
      let '(e, s4) := read_exponent s3 in
      Some (float_of_decimal neg d (e - n_frac), s4).

(** [_PyOS_ascii_strtod] *)
Definition strtod (s : pystr) : option (float * pystr) :=
  match parse_decimal s with
  | Some r => Some r
  | None => parse_inf_or_nan s
  end.

(** [float(s)] for a string [s] ([PyFloat_FromString]). *)
Definition py_float (s : pystr) : result float :=
  let t := to_ascii s in
  match (if mem 0x5F t then drop_underscores 0 t else Some t) with
  | None => Raise ValueError
  | Some t =>
      let t := strip_by c_isspace t in
      match strtod t with
      | Some (x, []) => Return x
      | _ => Raise ValueError
      end
  end.

End PyNum.

(** ** Timestamps

    Every timestamp of the pipeline is an aware [datetime] whose [tzinfo]
    is a fixed offset ([CST] in all adapters).  Two such values compare by
    their UTC instant.  [wall] counts the microseconds of the local clock
    since 0001-01-01T00:00:00, [utcoffset] is the offset of the zone in
    microseconds.  A naive [datetime] is not among the values: no adapter
    builds one, and its comparison with an aware one raises [TypeError]. *)

Module Datetime.

Record datetime := { wall : Z; utcoffset : Z }.

Definition hour_us : Z := 3600 * 1000000.

(** [datetime.max] is 9999-12-31T23:59:59.999999, the last microsecond of
    day 3652059. *)
Definition max_wall : Z := 3652059 * 24 * hour_us - 1.


Definition instant (d : datetime) : Z := wall d - utcoffset d.

(** [CST = timezone(timedelta(hours=8))] *)
Definition CST : Z := 8 * hour_us.

(** [datetime.min.replace(tzinfo=CST)] *)
Definition min_CST : datetime := {| wall := 0; utcoffset := CST |}.

Definition lt (a b : datetime) : bool := instant a <? instant b.
Definition ge (a b : datetime) : Prop := instant b <= instant a.

End Datetime.

(** ** gold-dashboard/generate_intel.py *)

Module Intel.

Import Datetime.

(** A content item: the dictionary built by [_make_news_item] or by
    [_make_social_item].  Both set ["title"], ["source"], ["link"],
    ["pub_dt"] (a timestamp or [None]) and ["category"]; [extra] holds the
    entries that only one of them sets (["channel"]; ["platform"],
    ["preview"], ["stats"]).  [merge_dedupe] reads ["title"] and
    ["pub_dt"]; the other entries travel with the item. *)
Record item := {
  title : pystr;
  source : pystr;
  link : pystr;
  pub_dt : option datetime;
  category : string;
  extra : list (pystr * pystr)
}.

#[global] Instance datetime_eq_dec : EqDecision datetime.
Proof. solve_decision. Defined.

#[global] Instance item_eq_dec : EqDecision item.
Proof. solve_decision. Defined.

(** [item["title"][:key_len]] *)
Definition dedupe_key (key_len : Z) (it : item) : pystr :=
  slice_to (title it) key_len.

(** The body of the inner loop of [merge_dedupe]. *)
Definition dedupe_step (key_len : Z)
    (st : gset pystr * list item) (it : item) : gset pystr * list item :=
  let key := dedupe_key key_len it in
  if decide (key ∈ st.1) then st
  else ({[ key ]} ∪ st.1, st.2 ++ [it]).

(** The two nested loops: [for src in sources: for item in src: ...]. *)
Definition dedupe_loop (key_len : Z) (sources : list (list item))
    : gset pystr * list item :=
  fold_left (fun st src => fold_left (dedupe_step key_len) src st)
            sources (∅, []).

(** [merged] as it stands before [merged.sort]. *)
Definition dedupe (sources : list (list item)) (key_len : Z) : list item :=
  (dedupe_loop key_len sources).2.

(** The sort key: [x.get("pub_dt") or datetime.min.replace(tzinfo=CST)]
    (a [datetime] is always true). *)
Definition sort_key (it : item) : datetime :=
  match pub_dt it with
  | Some d => d
  | None => min_CST
  end.

(** [list.sort(key=..., reverse=True)]: a stable sort into descending
    order; items with equal keys keep their relative order. *)
Fixpoint insert_desc {A} (key : A -> datetime) (x : A) (l : list A) : list A :=
  match l with
  | [] => [x]
  | y :: l' =>
      if lt (key x) (key y) then y :: insert_desc key x l'
      else x :: l
  end.

Definition sort_desc {A} (key : A -> datetime) (l : list A) : list A :=
  foldr (insert_desc key) [] l.

Definition merge_dedupe (sources : list (list item)) (key_len : Z)
    : list item :=
  sort_desc sort_key (dedupe sources key_len).

(** The default of the parameter [key_len]. *)
Definition default_key_len : Z := 20.

(** *** [smart_summary] *)

Import Unicode Re.

(** [^\d{4}年\d+月\d+日\s*[-·]\s*] *)
Definition re_date_prefix : regex :=
  Cat [Bol; Repeat 4 Digit; Lit 0x5E74 (* 年 *); Plus Digit;
       Lit 0x6708 (* 月 *); Plus Digit; Lit 0x65E5 (* 日 *); Star Space;
       OneOf (Chars (u "-·")); Star Space].

(** [^\d+\s*[天小时分钟月年]+前\s*[-·]\s*] *)
Definition re_ago_prefix : regex :=
  Cat [Bol; Plus Digit; Star Space; Plus (OneOf (Chars (u "天小时分钟月年")));
       Lit 0x524D (* 前 *); Star Space; OneOf (Chars (u "-·")); Star Space].

(** The set [[^_|。！？，\n]] of the two tag patterns. *)
Definition tag_body : regex := NoneOf (Chars (u "_|。！？，" ++ [10])).

(** [[_|][^_|。！？，\n]+$] *)
Definition re_tag : regex :=
  Cat [OneOf (Chars (u "_|")); Plus tag_body; Eol].

(** [([_|][^_|。！？，\n]+)+$] *)
Definition re_tags : regex :=
  Cat [Plus (Cat [OneOf (Chars (u "_|")); Plus tag_body]); Eol].

(** [\s*[-–—]\s*[一-龥a-zA-Z]{2,10}$] *)
Definition re_dash_source : regex :=
  Cat [Star Space; OneOf (Chars (u "-–—")); Star Space;
       Between 2 10 (OneOf [CRange 0x4E00 0x9FA5; CRange 0x61 0x7A;
                             CRange 0x41 0x5A]);
       Eol].

(** [\.{3,}$|…+$] *)
Definition re_ellipsis : regex :=
  Alt (Cat [AtLeast 3 (Lit 0x2E); Eol]) (Cat [Plus (Lit 0x2026); Eol]).

(** The text after the clean-up steps of [smart_summary]. *)
Definition cleaned (text : pystr) : pystr :=
  let text := strip text in
  let text := Re.sub re_date_prefix text in
  let text := Re.sub re_ago_prefix text in
  let text := Re.sub re_tag text in
  let text := Re.sub re_tags text in
  let text := Re.sub re_dash_source text in
  let text := Re.sub re_ellipsis text in
  strip_chars text (u "_|… " ++ [9]).

(** The marks of the loop [for punct in [...]], in its order. *)
Definition puncts : list pystr :=
  map u ["。"; "！"; "？"; "；"; "，"; "、"; ","; "."]%string.

(** The loop: the first mark whose last occurrence in [text[:max_len]]
    lies behind index [max_len // 3] decides where to cut. *)
Fixpoint cut_at_punct (text : pystr) (max_len : Z) (ps : list pystr)
    : option pystr :=
  match ps with
  | [] => None
  | punct :: ps' =>
      let idx := rfind (slice_to text max_len) punct in
      if max_len / 3 <? idx then Some (slice_to text (idx + 1))
      else cut_at_punct text max_len ps'
  end.

Definition smart_summary (text : pystr) (max_len : Z) : pystr :=
  if is_empty text then []
  else
    let text := cleaned text in
    if is_empty text then []
    else if len text <=? max_len then text
    else match cut_at_punct text max_len puncts with
         | Some r => r
         | None => slice_to text max_len ++ u "…"
         end.

(** *** [classify_text] *)

Definition KEYWORDS_ADJUST : list pystr :=
  map u ["调价"; "涨价"; "提价"; "降价"; "价格调整"; "上调"; "下调"]%string.
Definition KEYWORDS_PROMO : list pystr :=
  map u ["促销"; "大促"; "优惠"; "折扣"; "满减"; "活动"; "专场"; "限时";
         "秒杀"]%string.
Definition KEYWORDS_FINANCE : list pystr :=
  map u ["财报"; "业绩"; "营收"; "利润"; "IPO"; "股东"; "股权"; "分红";
         "回购"; "评级"]%string.

(** [any(kw in t for kw in kws)] *)
Definition any_in (kws : list pystr) (t : pystr) : bool :=
  existsb (fun kw => contains kw t) kws.

Definition classify_text (text : pystr) : string :=
  let t := lower text in
  if any_in KEYWORDS_ADJUST t then "adjust"%string
  else if any_in KEYWORDS_PROMO t then "promo"%string
  else if any_in KEYWORDS_FINANCE t then "finance"%string
  else "general"%string.

(** *** [parse_likes] *)

Import Exn PyNum.

(** The body of the [try] statement. *)
Definition convert_likes (s : pystr) : result Z :=
  if contains (u "万") s
  then bind (py_float (replace s (u "万") []))
            (fun x => int_of_float (fmul x (float_of_int 10000)))
  else py_int s.

Definition parse_likes (s : pystr) : result Z :=
  if is_empty s then Return 0
  else
    let s := replace (strip s) (u ",") [] in
    except_ValueError (convert_likes s) (Return 0).

End Intel.

(** ** generate_dashboard.py *)

Module Dashboard.

Import Exn PyNum.







End Dashboard.

(** ** gold-dashboard/generate_intel.py: the page fragments

    The clock [datetime.now(CST)] is the parameter [now] of the functions
    that read it. *)

Module Page.

Import Datetime Unicode Intel.

(** *** The items

    [extra] holds the entries that only one kind of item has; an entry
    of the dictionary under ["stats"] stands there with ["stats."]
    before its key. *)

Definition _make_news_item (title source link : pystr)
    (pub_dt : option datetime) (channel : pystr) : item :=
  {| title := title; source := source; link := link; pub_dt := pub_dt;
     category := classify_text title;
     extra := [(u "channel", channel)] |}.

(** [stats or {}] *)
Definition stats_or_empty (stats : option (list (pystr * pystr)))
    : list (pystr * pystr) :=
  match stats with
  | Some d => d
  | None => []
  end.

Definition _make_social_item (platform title preview source link : pystr)
    (pub_dt : option datetime) (stats : option (list (pystr * pystr)))
    : item :=
  {| title := title; source := source; link := link; pub_dt := pub_dt;
     category := classify_text (title ++ u " " ++ preview);
     extra := [(u "platform", platform); (u "preview", preview)]
              ++ map (fun kv => (u "stats." ++ kv.1, kv.2))
                     (stats_or_empty stats) |}.

(** *** [html.escape] and [esc] *)

(** [html.escape(s)] with its default [quote=True]: five replacements
    one after the other, the ampersand first. *)
Definition html_escape (s : pystr) : pystr :=
  let s := replace s (u "&") (u "&amp;") in
  let s := replace s (u "<") (u "&lt;") in
  let s := replace s (u ">") (u "&gt;") in
  let s := replace s [0x22] (u "&quot;") in
  let s := replace s (u "'") (u "&#x27;") in
  s.

(** [esc(text)]; [str(text)] is [text] for a string. *)
Definition esc (text : pystr) : pystr := html_escape text.

(** *** Decimal numerals *)

(** The decimal digits of [n >= 0], the most significant first. *)
Fixpoint digits_of (fuel : nat) (n : Z) : pystr :=
  match fuel with
  | O => []
  | S fuel' =>
      (if n <? 10 then [] else digits_of fuel' (n / 10))
      ++ [0x30 + n mod 10]
  end.

(** [str(n)] for an [int] *)
Definition str_int (n : Z) : pystr :=
  if n <? 0
  then 0x2D :: digits_of (S (Z.to_nat (Z.log2 (- n)))) (- n)
  else digits_of (S (Z.to_nat (Z.log2 n))) n.

(** The C conversion [%02d]. *)
Definition pad2 (n : Z) : pystr :=
  let s := str_int n in
  if len s <? 2 then 0x30 :: s else s.

(** *** [datetime.strftime]

    A [datetime] holds its calendar fields; here they are read off
    [wall], the count of microseconds since 0001-01-01T00:00:00, by
    the proleptic Gregorian calendar. *)

Definition day_us : Z := 24 * hour_us.
Definition minute_us : Z := 60 * 1000000.

Definition DI400Y : Z := 146097.
Definition DI100Y : Z := 36524.
Definition DI4Y : Z := 1461.

Definition days_before_month : list Z :=
  [0; 0; 31; 59; 90; 120; 151; 181; 212; 243; 273; 304; 334].
Definition days_in_month_table : list Z :=
  [0; 31; 28; 31; 30; 31; 30; 31; 31; 30; 31; 30; 31].

(** Year, month and day of the day numbered [n0], day 0 being
    0001-01-01. *)
Definition ymd (n0 : Z) : Z * Z * Z :=
  let n400 := n0 / DI400Y in
  let n := n0 mod DI400Y in
  let n100 := n / DI100Y in
  let n := n mod DI100Y in
  let n4 := n / DI4Y in
  let n := n mod DI4Y in
  let n1 := n / 365 in
  let n := n mod 365 in
  let year := n400 * 400 + 1 + n100 * 100 + n4 * 4 + n1 in
  if (n1 =? 4) || (n100 =? 4) then (year - 1, 12, 31)
  else
    let leapyear := (n1 =? 3) && (negb (n4 =? 24) || (n100 =? 3)) in
    let month := Z.shiftr (n + 50) 5 in
    let preceding :=
      nth (Z.to_nat month) days_before_month 0
      + (if (2 <? month) && leapyear then 1 else 0) in
    if n <? preceding then
      let month := month - 1 in
      let preceding :=
        preceding
        - (nth (Z.to_nat month) days_in_month_table 0
           + (if (month =? 2) && leapyear then 1 else 0)) in
      (year, month, n - preceding + 1)
    else (year, month, n - preceding + 1).

Definition year (d : datetime) : Z := (ymd (wall d / day_us)).1.1.
Definition month (d : datetime) : Z := (ymd (wall d / day_us)).1.2.
Definition day (d : datetime) : Z := (ymd (wall d / day_us)).2.
Definition hour (d : datetime) : Z := wall d mod day_us / hour_us.
Definition minute (d : datetime) : Z := wall d mod hour_us / minute_us.

(** The directives that the formats of the source use; [%Y] as the C
    library of Linux prints it, without padding. *)
Definition directive (c : Z) (d : datetime) : option pystr :=
  if c =? 0x59 (* Y *) then Some (str_int (year d))
  else if c =? 0x6D (* m *) then Some (pad2 (month d))
  else if c =? 0x64 (* d *) then Some (pad2 (day d))
  else if c =? 0x48 (* H *) then Some (pad2 (hour d))
  else if c =? 0x4D (* M *) then Some (pad2 (minute d))
  else None.

(** [d.strftime(fmt)] *)
Fixpoint strftime (d : datetime) (fmt : pystr) : pystr :=
  match fmt with
  | [] => []
  | c :: rest =>
      match rest with
      | e :: rest' =>
          if c =? 0x25 (* % *) then
            match directive e d with
            | Some s => s ++ strftime d rest'
            | None => c :: strftime d rest
            end
          else c :: strftime d rest
      | [] => [c]
      end
  end.

(** *** [build_alert_bar_text] *)

(** [[n for n in news if n["category"] == k]] *)
Definition of_category (k : string) (news : list item) : list item :=
  filter (fun n => category n = k) news.

Definition build_alert_bar_text (now : datetime) (news : list item)
    : pystr :=
  let adj := of_category "adjust" news in
  let promo := of_category "promo" news in
  match adj, promo, news with
  | n :: _, _, _ =>
      u "⚡ " ++ esc (slice_to (title n) 30)
      ++ u " · 点击「价格情报」查看详情"
  | [], n :: _, _ =>
      u "🎁 " ++ esc (slice_to (title n) 30)
      ++ u " · 点击「门店促销」查看详情"
  | [], [], n :: _ =>
      u "📰 最新：" ++ esc (slice_to (title n) 28)
  | [], [], [] =>
      u "金价数据已更新 · " ++ strftime now (u "%Y-%m-%d %H:%M")
      ++ u " CST"
  end.

End Page.

(** ** gold-dashboard/generate_intel.py: the news fragments *)

Module News.

Import Datetime Unicode Intel PyNum Page.

(** [h "..."] is the Python literal with a double quote for every
    backquote (the literals of the source hold no backquote). *)
Definition h (s : string) : pystr :=
  map (fun c => if c =? 0x60 then 0x22 else c) (u s).

(** [sep.join(parts)] *)
Fixpoint join (sep : pystr) (parts : list pystr) : pystr :=
  match parts with
  | [] => []
  | p :: rest =>
      match rest with
      | [] => p
      | _ :: _ => p ++ sep ++ join sep rest
      end
  end.

(** [s[a:b]] for literal bounds. *)
Definition slice (s : pystr) (a b : nat) : pystr := drop a (take b s).

(** [d.get(k, default)] on a dictionary given by its entries. *)
Fixpoint get {K V} `{EqDecision K} (d : list (K * V)) (k : K) (default : V)
    : V :=
  match d with
  | [] => default
  | (k', v) :: d' => if decide (k' = k) then v else get d' k default
  end.

Definition TAG_MAP : list (string * pystr) :=
  [("adjust"%string,
    h "<span class=`news-tag news-tag-adjust`>⚡ 调价</span>");
   ("promo"%string,
    h "<span class=`news-tag news-tag-promo`>🎁 促销</span>");
   ("finance"%string,
    h "<span class=`news-tag news-tag-finance`>📊 财务</span>");
   ("general"%string,
    h "<span class=`news-tag news-tag-general`>📰 资讯</span>")].

(** [n["pub_dt"].strftime("%m-%d %H:%M") if n["pub_dt"] else "—"]; a
    [datetime] is always true. *)
Definition dt_str (n : item) : pystr :=
  match pub_dt n with
  | Some d => strftime d (u "%m-%d %H:%M")
  | None => u "—"
  end.

(** *** [build_price_alert_card] *)

(** The dictionary [market]; ["gold_change"] is a float (the [0] of
    the fallback dictionary behaves as [0.0] here). *)
Record Market := {
  gold_spot : pystr;
  gold_change : float;
  gold_note : pystr;
  gold_cny : pystr;
  usd_cny : pystr;
  hk_price : pystr;
  hk_change : pystr;
  hk_color : pystr
}.

(** [a / b] rounded to the nearest integer, ties to even, for
    [0 <= a] and [0 < b]. *)
Definition div_half_even (a b : Z) : Z :=
  let q := a / b in
  let r := a mod b in
  if 2 * r <? b then q
  else if b <? 2 * r then q + 1
  else if Z.even q then q else q + 1.

(** [format(x, ".1f")]: the decimal numeral with one digit behind the
    point that is nearest to [x], ties to even. *)
Definition format_1f (x : float) : pystr :=
  match x with
  | S754_nan => u "nan"
  | S754_infinity s => (if s then u "-" else []) ++ u "inf"
  | S754_zero s => (if s then u "-" else []) ++ u "0.0"
  | S754_finite s m e =>
      let tenths :=
        if 0 <=? e then Zpos m * 10 * 2 ^ e
        else div_half_even (Zpos m * 10) (2 ^ (- e)) in
      (if s then u "-" else [])
      ++ str_int (tenths / 10) ++ u "." ++ str_int (tenths mod 10)
  end.

(** [abs(x)] *)
Definition fabs (x : float) : float := SFabs x.

Definition price_row (n : item) : pystr :=
  let dt_str := dt_str n in
  let link := esc (link n) in
  let t :=
    if is_empty link then esc (title n)
    else h "<a href=`" ++ link
         ++ h "` target=`_blank` style=`color:#E74C3C;"
         ++ h "text-decoration:none`>" ++ esc (title n) ++ u "</a>" in
  u "<strong>⚡ " ++ t ++ u "</strong><br>"
  ++ h "<span style=`font-size:10px;color:rgba(231,76,60,0.7)`>"
  ++ u "来源：" ++ esc (source n) ++ u " · " ++ dt_str ++ u "</span>".

Definition build_price_alert_card (now : datetime) (news : list item)
    (market : Market) : pystr :=
  let adj := of_category "adjust" news in
  match adj with
  | _ :: _ =>
      let rows := map price_row (take 3 adj) in
      h "<div class=`alert-card`>" ++ join (u "<br><br>") rows
      ++ u "</div>"
  | [] =>
      let gc := gold_change market in
      if SFleb (float_of_int 2) (fabs gc) then
        let up := SFltb (float_of_int 0) gc in
        let msg :=
          u "金价今日" ++ (if up then u "上涨" else u "下跌") ++ u " "
          ++ format_1f (fabs gc) ++ u "%，"
          ++ (if up then u "关注是否触发品牌调价。"
              else u "暂无调价信号。") in
        h "<div class=`alert-card`><strong>📊 金价动态</strong><br>"
        ++ msg ++ u "<br>"
        ++ h "<span style=`font-size:10px;color:rgba(231,76,60,0.7)`>"
        ++ u "自动监测 · " ++ strftime now (u "%Y-%m-%d %H:%M")
        ++ u " CST</span></div>"
      else []
  end.

(** *** [build_promo_alert_block] *)

Definition card_row (color_hex : pystr) (n : item) : pystr :=
  let dt := dt_str n in
  let lnk := esc (link n) in
  let t :=
    if is_empty lnk then esc (title n)
    else h "<a href=`" ++ lnk ++ h "` target=`_blank` style=`color:"
         ++ color_hex ++ u ";"
         ++ h "text-decoration:none`>" ++ esc (title n) ++ u "</a>" in
  t ++ h "<br><span style=`font-size:10px;color:rgba"
  ++ u "(" ++ slice color_hex 1 3 ++ u "," ++ slice color_hex 3 5
  ++ u "," ++ drop 5 color_hex ++ h ",0.55);`>"
  ++ u "来源：" ++ esc (source n) ++ u " · " ++ dt ++ u "</span>".

Definition _news_card (items : list item)
    (color_hex bg_alpha title_emoji label : pystr) : pystr :=
  match items with
  | [] => []
  | _ :: _ =>
      let rows := map (card_row color_hex) (take 2 items) in
      h "<div style=`margin:0 16px 10px;background:rgba" ++ bg_alpha
      ++ u ";"
      ++ u "border:1px solid rgba"
      ++ replace bg_alpha (u "0.07") (u "0.25") ++ u ";"
      ++ u "border-radius:10px;padding:13px 15px;font-size:13px;"
      ++ u "color:" ++ color_hex ++ h ";line-height:1.85`>"
      ++ u "<strong>" ++ title_emoji ++ u " " ++ label
      ++ u "</strong><br>"
      ++ join (u "<br><br>") rows ++ u "</div>"
  end.

Definition feed_row (n : item) : pystr :=
  let dt := dt_str n in
  let tag := get TAG_MAP (category n)
                 (get TAG_MAP "general"%string []) in
  let lnk := esc (link n) in
  let t :=
    if is_empty lnk then esc (title n)
    else h "<a href=`" ++ lnk ++ h "` target=`_blank`>"
         ++ esc (title n) ++ u "</a>" in
  h "<div class=`news-item`>"
  ++ h "<div class=`news-item-head`>"
  ++ h "<div class=`news-item-title`>" ++ tag ++ t ++ u "</div>"
  ++ h "<div class=`news-item-meta`>" ++ dt ++ u "</div>"
  ++ u "</div>"
  ++ h "<div style=`font-size:10px;color:var(--gold-dim)`>"
  ++ esc (source n) ++ u "</div>"
  ++ u "</div>".

(** The card shown when nothing else is. *)
Definition no_news_card : pystr :=
  h "<div style=`margin:0 16px 10px;padding:12px 15px;background:rgba(154,143,126,0.07);"
  ++ h "border-radius:10px;font-size:12px;color:var(--gold-dim);text-align:center`>"
  ++ u "暂未获取到最新资讯，请稍后刷新</div>".

(** The list [cards] when the loop over [others] is done. *)
Definition promo_cards (now : datetime) (adj promo others : list item)
    : list pystr :=
  let cards :=
    [_news_card adj (u "#E74C3C") (u "(192,57,43,0.07)") (u "⚡")
                (u "调价动态");
     _news_card promo (u "#2ECC71") (u "(46,204,113,0.07)") (u "🎁")
                (u "促销动态")] in
  match others with
  | [] => cards
  | _ :: _ =>
      let rows_html := flat_map feed_row others in
      cards
      ++ [h "<div class=`news-feed`>"
          ++ h "<div class=`news-feed-title`>📡 自动追踪 · 老铺黄金最新资讯 "
          ++ h "<span style=`float:right;font-weight:400`>"
          ++ strftime now (u "%m-%d %H:%M") ++ u " 更新</span></div>"
          ++ rows_html ++ u "</div>"]
  end.

Definition build_promo_alert_block (now : datetime) (news : list item)
    : pystr :=
  let adj := of_category "adjust" news in
  let promo := of_category "promo" news in
  let others :=
    take 8 (filter (fun n => category n = "finance"%string
                             \/ category n = "general"%string) news) in
  let cards := promo_cards now adj promo others in
  let result := join [10] (filter (fun c => c <> []) cards) in
  if is_empty result then no_news_card else result.

End News.

(** ** gold-dashboard/generate_intel.py: the social tab and the page

    [datetime.now(CST)] is read more than once on the way: [clock] gives
    the successive readings, and a function that reads the clock takes
    the number [t] of readings made so far and returns the new number
    with its result. *)

Module Social.

Import Datetime Unicode Intel Exn PyNum Page News Re.

Definition clock : Type := nat -> datetime.

(** *** [rel_time] *)

Definition in_range (w : Z) : bool := (0 <=? w) && (w <=? max_wall).

(** [dt.astimezone(CST)]: nothing to do for a timestamp that is in
    [CST] already (every timestamp with this offset carries the [CST]
    object of the module); otherwise the offset of [dt] is subtracted
    and the offset of [CST] added, and a step that leaves the years 1
    to 9999 raises [OverflowError]. *)
Definition astimezone_CST (dt : datetime) : result datetime :=
  if utcoffset dt =? CST then Return dt
  else
    let utc := wall dt - utcoffset dt in
    if negb (in_range utc) then Raise OverflowError
    else
      let w := utc + CST in
      if negb (in_range w) then Raise OverflowError
      else Return {| wall := w; utcoffset := CST |}.

(** [td.total_seconds()] for a [timedelta] of [us] microseconds: the
    quotient [us / 10**6] of two integers, correctly rounded. *)
Definition total_seconds (us : Z) : float :=
  float_of_decimal (us <? 0) (Z.abs us) (-6).

Definition fdiv : float -> float -> float := SFdiv prec emax.

Definition rel_time (clk : clock) (t : nat) (dt : option datetime)
    : result (pystr * nat) :=
  match dt with
  | None => Return (u "—", t)
  | Some dt =>
      let now := clk t in
      let t := S t in
      bind (astimezone_CST dt) (fun local =>
      let diff := instant now - instant local in
      bind (int_of_float (fdiv (total_seconds diff) (float_of_int 60)))
           (fun minutes =>
      if minutes <? 1 then Return (u "刚刚", t)
      else if minutes <? 60 then Return (str_int minutes ++ u "分钟前", t)
      else
        let hours := minutes / 60 in
        if hours <? 24 then Return (str_int hours ++ u "小时前", t)
        else
          let days := hours / 24 in
          if days <? 7 then Return (str_int days ++ u "天前", t)
          else
            bind (astimezone_CST dt) (fun local =>
            Return (strftime local (u "%m-%d"), t))))
  end.

(** *** [build_social_tab_html] *)

Definition PLATFORM_META : list (pystr * (pystr * pystr)) :=
  [(u "xhs", (u "📕 小红书", u "xhs"));
   (u "weibo", (u "🔵 微博", u "weibo"));
   (u "weixin", (u "💚 微信", u "weixin"))].

Definition SP_TAG_MAP : list (string * pystr) :=
  [("adjust"%string, h "<span class=`sp-tag sp-tag-adjust`>⚡ 调价</span>");
   ("promo"%string, h "<span class=`sp-tag sp-tag-promo`>🎁 促销</span>");
   ("general"%string, []);
   ("finance"%string, [])].

(** [stats.get("likes")] for [stats = item.get("stats", {})] *)
Definition stats_likes (it : item) : option pystr :=
  snd <$> find (fun kv => bool_decide (kv.1 = u "stats.likes")) (extra it).

(** The local values [title_html], [likes_html] and [link_html] of
    the loop body, and the content of the [sp-stats] element. *)
Definition title_html (link cat_tag title : pystr) : pystr :=
  if is_empty link
  then h "<span class=`sp-title`>" ++ cat_tag ++ title ++ u "</span>"
  else h "<a class=`sp-title` href=`" ++ link ++ h "` target=`_blank`>"
       ++ cat_tag ++ title ++ u "</a>".

Definition likes_html (it : item) : pystr :=
  match stats_likes it with
  | Some likes => if is_empty likes then [] else u "❤️ " ++ esc likes
  | None => []
  end.

Definition link_html (link : pystr) : pystr :=
  if is_empty link then []
  else h "<a class=`sp-link` href=`" ++ link
       ++ h "` target=`_blank`>查看原文 →</a>".

Definition stats_html (likes_html source : pystr) : pystr :=
  if is_empty likes_html
  then h "<span style=`opacity:.5`>" ++ source ++ u "</span>"
  else likes_html.

Definition preview_html (preview : pystr) : pystr :=
  if is_empty preview then []
  else h "<div class=`sp-preview`>" ++ preview ++ u "</div>".

(** The body of the loop, behind the call of [rel_time]. *)
Definition social_post (it : item) (time_str : pystr) : pystr :=
  let platform := get (extra it) (u "platform") (u "weibo") in
  let meta := get PLATFORM_META platform (u "📰", u "weibo") in
  let label := meta.1 in
  let css_cls := meta.2 in
  let title := esc (Intel.title it) in
  let preview := esc (get (extra it) (u "preview") []) in
  let source := esc (Intel.source it) in
  let link := esc (Intel.link it) in
  let cat_tag := get SP_TAG_MAP (category it) [] in
  h "<div class=`social-post` data-platform=`" ++ css_cls ++ h "`>"
  ++ h "<div class=`sp-header`>"
  ++ h "<span class=`sp-platform " ++ css_cls ++ h "`>" ++ label
  ++ u "</span>"
  ++ h "<span class=`sp-time`>" ++ time_str ++ u "</span>"
  ++ u "</div>"
  ++ title_html link cat_tag title
  ++ preview_html preview
  ++ h "<div class=`sp-footer`>"
  ++ h "<div class=`sp-stats`>"
  ++ stats_html (likes_html it) source
  ++ u "</div>"
  ++ link_html link
  ++ u "</div>"
  ++ u "</div>".

(** The loop [for item in social_items]. *)
Fixpoint social_parts (clk : clock) (t : nat) (items : list item)
    : result (list pystr * nat) :=
  match items with
  | [] => Return ([], t)
  | it :: rest =>
      bind (rel_time clk t (pub_dt it)) (fun r =>
      bind (social_parts clk r.2 rest) (fun rs =>
      Return (social_post it r.1 :: rs.1, rs.2)))
  end.

Definition social_empty : pystr :=
  h "<div class=`social-empty`>"
  ++ u "暂未抓取到社媒内容<br>"
  ++ h "<span style=`font-size:10px`>可能原因：网络超时 / 平台访问限制</span>"
  ++ u "</div>".

(** [header], for [n] items. *)
Definition social_header (now : datetime) (n : nat) : pystr :=
  let update_str := strftime now (u "%m-%d %H:%M") in
  h "<div style=`margin:0 16px 8px;font-size:10px;color:var(--gold-dim)`>"
  ++ u "共 " ++ str_int (Z.of_nat n) ++ u " 条 · "
  ++ update_str ++ u " 更新 · "
  ++ u "来源：小红书 / 微博 / 微信公众号</div>".

Definition build_social_tab_html (clk : clock) (t : nat)
    (social_items : list item) : result (pystr * nat) :=
  match social_items with
  | [] => Return (social_empty, t)
  | _ :: _ =>
      let now := clk t in
      bind (social_parts clk (S t) social_items) (fun ps =>
      Return (social_header now (length social_items) ++ join [10] ps.1,
              ps.2))
  end.

(** *** [generate_html] *)






(** *** [main]: the counts of the summary line *)

(** [sum(1 for n in news if n["category"] == k)] *)
Definition count_category (k : string) (news : list item) : nat :=
  length (of_category k news).

End Social.

(* ================================================================== *)
(** * Properties *)

(** ** Slices and dedupe keys *)

Section Slices.

Lemma slice_to_nonneg (s : pystr) (n : Z) :
  0 <= n -> slice_to s n = take (Z.to_nat n) s.
Proof.
  intros Hn. unfold slice_to.
  destruct (Z.ltb_spec n 0) as [Hlt | _]; [lia | reflexivity].
Qed.

Lemma slice_to_length (s : pystr) (n : Z) :
  0 <= n -> len (slice_to s n) <= n.
Proof.
  intros Hn. rewrite slice_to_nonneg by assumption.
  unfold len. rewrite length_take. lia.
Qed.

Lemma slice_to_nil_iff (s : pystr) (n : Z) :
  0 < n -> slice_to s n = [] <-> s = [].
Proof.
  intros Hn. rewrite slice_to_nonneg by lia.
  destruct s as [| c s]; [by rewrite take_nil |].
  destruct (Z.to_nat n) as [| k] eqn:Hk; [lia |].
  simpl. split; discriminate.
Qed.

End Slices.

(** ** The stable descending sort *)

Section Sort.

Import Datetime Intel.

Context {A : Type} (key : A -> datetime).

Lemma insert_desc_perm (x : A) (l : list A) :
  insert_desc key x l ≡ₚ x :: l.
Proof.
  induction l as [| y l IH]; simpl; [done |].
  destruct (lt (key x) (key y)); [| done].
  rewrite IH. apply Permutation_swap.
Qed.

Lemma sort_desc_perm (l : list A) : sort_desc key l ≡ₚ l.
Proof.
  induction l as [| x l IH]; simpl; [done |].
  rewrite insert_desc_perm. by rewrite IH.
Qed.

Lemma sort_desc_elem_of (x : A) (l : list A) :
  x ∈ sort_desc key l <-> x ∈ l.
Proof. by rewrite sort_desc_perm. Qed.

(** Descending order of two items by their keys. *)
Definition desc (a b : A) : Prop := ge (key a) (key b).

Lemma insert_desc_sorted (x : A) (l : list A) :
  StronglySorted desc l -> StronglySorted desc (insert_desc key x l).
Proof.
  induction 1 as [| y l Hl IH Hy]; simpl.
  - repeat constructor.
  - destruct (lt (key x) (key y)) eqn:Hlt; unfold lt in Hlt.
    + apply Z.ltb_lt in Hlt. constructor; [exact IH |].
      rewrite insert_desc_perm. constructor; [| exact Hy].
      unfold desc, ge. lia.
    + apply Z.ltb_ge in Hlt. constructor; [by constructor |].
      constructor; [unfold desc, ge; lia |].
      eapply Forall_impl; [exact Hy |].
      unfold desc, ge. intros z Hz. lia.
Qed.

Lemma sort_desc_sorted (l : list A) : StronglySorted desc (sort_desc key l).
Proof.
  induction l as [| x l IH]; simpl; [constructor |].
  by apply insert_desc_sorted.
Qed.



End Sort.

(** ** The dedupe loop *)

Section Dedupe.

Import Datetime Intel.

Variable key_len : Z.

Local Abbreviation key := (dedupe_key key_len).
Local Abbreviation step := (dedupe_step key_len).

(** [x] is the first item of [l] with its key. *)
Definition first_occurrence (l : list item) (x : item) : Prop :=
  exists l1 l2, l = l1 ++ x :: l2 /\ forall y, y ∈ l1 -> key y <> key x.

Lemma elem_of_concat (x : item) (ls : list (list item)) :
  x ∈ concat ls <-> exists l, x ∈ l /\ l ∈ ls.
Proof.
  induction ls as [| l0 ls IH]; simpl.
  - split; [by intros ?%elem_of_nil | by intros (l & _ & ?%elem_of_nil)].
  - rewrite elem_of_app, IH. split.
    + intros [H | (l & Hx & Hl)]; [exists l0 | exists l];
        (split; [done |]); [by left | by right].
    + intros (l & Hx & [-> | Hl]%elem_of_cons); [by left | right; by exists l].
Qed.

(** The nested loops visit the items in concatenation order. *)
Lemma dedupe_loop_concat (sources : list (list item)) :
  dedupe_loop key_len sources = fold_left step (concat sources) (∅, []).
Proof.
  unfold dedupe_loop. generalize (∅ : gset pystr, [] : list item).
  induction sources as [| src sources IH]; intros st; simpl; [done |].
  by rewrite fold_left_app, IH.
Qed.

Lemma first_occurrence_snoc (l : list item) (a x : item) :
  first_occurrence (l ++ [a]) x <->
  first_occurrence l x \/ (x = a /\ forall y, y ∈ l -> key y <> key a).
Proof.
  split.
  - intros (l1 & l2 & Heq & Hfirst).
    destruct (decide (l2 = [])) as [-> | Hne].
    + apply app_inj_tail in Heq as [-> ->]. right. split; [done | exact Hfirst].
    + destruct (exists_last Hne) as (l2' & b & ->).
      rewrite app_comm_cons, app_assoc in Heq.
      apply app_inj_tail in Heq as [-> ->].
      left. by exists l1, l2'.
  - intros [(l1 & l2 & -> & Hfirst) | [-> Hfirst]].
    + exists l1, (l2 ++ [a]). by rewrite <- app_assoc.
    + by exists l, [].
Qed.

(** What the loop has built after the items of [l]. *)
Record loop_inv (l : list item) (st : gset pystr * list item) : Prop := {
  inv_seen : forall k, k ∈ st.1 <-> exists y, y ∈ l /\ key y = k;
  inv_keys : forall k, k ∈ st.1 <-> k ∈ key <$> st.2;
  inv_first : forall x, x ∈ st.2 <-> first_occurrence l x;
  inv_nodup : NoDup (key <$> st.2)
}.

Lemma loop_inv_fold (l : list item) :
  loop_inv l (fold_left step l (∅, [])).
Proof.
  induction l as [| a l IH] using rev_ind.
  - simpl. split; simpl.
    + intros k. split; [by intros ?%not_elem_of_empty |].
      intros (y & Hy & _). by apply elem_of_nil in Hy.
    + intros k. split; [by intros ?%not_elem_of_empty |].
      by intros ?%elem_of_nil.
    + intros x. split; [by intros ?%elem_of_nil |].
      intros (l1 & l2 & Heq & _). by destruct l1.
    + constructor.
  - rewrite fold_left_app. simpl.
    destruct (fold_left step l (∅, [])) as [seen merged].
    destruct IH as [Hseen Hkeys Hfirst Hnodup]. simpl in *.
    unfold dedupe_step. simpl.
    destruct (decide (key a ∈ seen)) as [Hin | Hnin]; split; simpl.
    + intros k. rewrite Hseen. split.
      * intros (y & Hy & <-). exists y. split; [| done].
        apply elem_of_app. by left.
      * intros (y & [Hy | ->%list_elem_of_singleton]%elem_of_app & <-).
        -- by exists y.
        -- by apply Hseen.
    + exact Hkeys.
    + intros x. rewrite first_occurrence_snoc, Hfirst.
      split; [tauto |]. intros [H | [-> Hno]]; [done |].
      apply Hseen in Hin as (y & Hy & Heq). by destruct (Hno y Hy).
    + exact Hnodup.
    + intros k. rewrite elem_of_union, elem_of_singleton, Hseen. split.
      * intros [-> | (y & Hy & <-)].
        -- exists a. split; [| done].
           apply elem_of_app. right. by apply list_elem_of_singleton.
        -- exists y. split; [| done]. apply elem_of_app. by left.
      * intros (y & [Hy | ->%list_elem_of_singleton]%elem_of_app & <-).
        -- right. by exists y.
        -- by left.
    + intros k. rewrite fmap_app, elem_of_app, elem_of_union. simpl.
      rewrite elem_of_singleton, list_elem_of_singleton, Hkeys. tauto.
    + intros x. rewrite first_occurrence_snoc, elem_of_app, Hfirst.
      rewrite list_elem_of_singleton. split; [| tauto].
      intros [H | ->]; [by left | right]. split; [done |].
      intros y Hy Heq. apply Hnin, Hseen. by exists y.
    + rewrite fmap_app. simpl. apply NoDup_app. split; [done |].
      split; [| apply NoDup_singleton].
      intros k Hk ->%list_elem_of_singleton. by apply Hnin, Hkeys.
Qed.

Lemma dedupe_inv (sources : list (list item)) :
  loop_inv (concat sources) (dedupe_loop key_len sources).
Proof. rewrite dedupe_loop_concat. apply loop_inv_fold. Qed.

Lemma dedupe_first (sources : list (list item)) (x : item) :
  x ∈ dedupe sources key_len <-> first_occurrence (concat sources) x.
Proof. apply (inv_first _ _ (dedupe_inv sources)). Qed.

Lemma dedupe_nodup (sources : list (list item)) :
  NoDup (key <$> dedupe sources key_len).
Proof. apply (inv_nodup _ _ (dedupe_inv sources)). Qed.

Lemma merge_dedupe_perm (sources : list (list item)) :
  merge_dedupe sources key_len ≡ₚ dedupe sources key_len.
Proof. apply sort_desc_perm. Qed.

Lemma merge_dedupe_first (sources : list (list item)) (x : item) :
  x ∈ merge_dedupe sources key_len <-> first_occurrence (concat sources) x.
Proof. by rewrite merge_dedupe_perm, dedupe_first. Qed.

Lemma merge_dedupe_nodup (sources : list (list item)) :
  NoDup (key <$> merge_dedupe sources key_len).
Proof. rewrite merge_dedupe_perm. apply dedupe_nodup. Qed.

(** A first occurrence lies in a source that is not later than any
    source holding an item with the same key. *)
Lemma first_occurrence_source (sources : list (list item)) (x y : item)
    (j : nat) (src : list item) :
  first_occurrence (concat sources) x ->
  sources !! j = Some src -> y ∈ src -> key y = key x ->
  exists i src', (i <= j)%nat /\ sources !! i = Some src' /\ x ∈ src'.
Proof.
  intros (l1 & l2 & Heq & Hfirst) Hj Hy Hk.
  assert (Hy' : y ∈ concat (take (S j) sources)).
  { apply elem_of_concat. exists src. split; [done |].
    apply list_elem_of_lookup. exists j.
    rewrite lookup_take_lt by lia. done. }
  rewrite <- (take_drop (S j) sources), concat_app in Heq.
  assert (Hx : x ∈ concat (take (S j) sources)).
  { symmetry in Heq.
    apply app_eq_inv in Heq as [(k & -> & Hk2) | (k & Hk1 & Hk2)].
    - destruct (Hfirst y); [| done]. apply elem_of_app. by left.
    - destruct k as [| x' k].
      + rewrite app_nil_r in Hk1. subst l1. by destruct (Hfirst y).
      + simpl in Hk2. injection Hk2 as -> _. rewrite Hk1.
        apply elem_of_app. right. by left. }
  apply elem_of_concat in Hx as (src' & Hx & Hsrc').
  apply list_elem_of_lookup in Hsrc' as (i & Hi).
  pose proof (lookup_lt_Some _ _ _ Hi) as Hlen.
  rewrite length_take in Hlen.
  exists i, src'. split; [lia |]. split; [| done].
  by rewrite lookup_take_lt in Hi by lia.
Qed.

End Dedupe.

(** ** Order of the merged list *)

Section MergeOrder.

Import Datetime Intel.


(** The test "the timestamp is unknown". *)
Definition unknown (it : item) : Prop := pub_dt it = None.

#[global] Instance unknown_dec (it : item) : Decision (unknown it).
Proof. unfold unknown. apply _. Defined.









End MergeOrder.

(** ** Substrings *)

Section Substrings.

Lemma startswith_spec (s p : pystr) :
  startswith s p = true <-> exists b, s = p ++ b.
Proof.
  revert s. induction p as [| c p IH]; intros s; simpl.
  - split; [intros _; by exists s | done].
  - destruct s as [| d s].
    + split; [done | by intros (b & ?)].
    + rewrite andb_true_iff, Z.eqb_eq, IH. split.
      * intros [-> (b & ->)]. by exists b.
      * intros (b & Heq). injection Heq as -> ->. split; [done | by exists b].
Qed.

Lemma contains_spec (sub s : pystr) :
  contains sub s = true <-> exists a b, s = a ++ sub ++ b.
Proof.
  induction s as [| d s IH].
  - simpl. rewrite orb_false_r, startswith_spec. split.
    + intros (b & Hb). by exists [], b.
    + intros (a & b & Heq). destruct a; [by exists b | done].
  - cbn [contains]. rewrite orb_true_iff, startswith_spec, IH. split.
    + intros [(b & Hb) | (a & b & ->)];
        [by exists [], b | by exists (d :: a), b].
    + intros (a & b & Heq). destruct a as [| d' a].
      * left. by exists b.
      * right. injection Heq as -> ->. by exists a, b.
Qed.

Lemma contains_elem (c : Z) (sub s : pystr) :
  contains sub s = true -> c ∈ sub -> c ∈ s.
Proof.
  intros (a & b & ->)%contains_spec Hc.
  apply elem_of_app. right. apply elem_of_app. by left.
Qed.

End Substrings.

(** ** Lowercasing *)

Section Lowercase.

Import Unicode.

(** A character that [lower] leaves alone wherever it stands. *)
Definition caseless (c : Z) : bool :=
  negb (c =? 0x3A3) && bool_decide (to_lower_full c = [c]).

Lemma lower_char_caseless (before after : pystr) (c : Z) :
  caseless c = true -> lower_char before c after = [c].
Proof.
  unfold caseless, lower_char.
  intros [Hs Hl%bool_decide_eq_true]%andb_true_iff.
  apply negb_true_iff in Hs. by rewrite Hs.
Qed.

Lemma lower_aux_caseless (before kw rest : pystr) :
  forallb caseless kw = true ->
  lower_aux before (kw ++ rest) = kw ++ lower_aux (rev kw ++ before) rest.
Proof.
  revert before. induction kw as [| c kw IH]; intros before; simpl; [done |].
  intros [Hc Hkw]%andb_true_iff.
  rewrite lower_char_caseless, IH, <- app_assoc by done. done.
Qed.

Lemma lower_aux_keeps (before a kw b : pystr) :
  forallb caseless kw = true ->
  exists x y, lower_aux before (a ++ kw ++ b) = x ++ kw ++ y.
Proof.
  intros Hkw. revert before. induction a as [| c a IH]; intros before.
  - exists [], (lower_aux (rev kw ++ before) b). simpl.
    by apply lower_aux_caseless.
  - destruct (IH (c :: before)) as (x & y & Heq).
    exists (lower_char before c (a ++ kw ++ b) ++ x), y.
    simpl. by rewrite Heq, <- app_assoc.
Qed.

(** A keyword without cased letters is found in the lowercase form of
    every text that holds it. *)
Lemma contains_lower (kw text : pystr) :
  forallb caseless kw = true ->
  contains kw text = true -> contains kw (lower text) = true.
Proof.
  intros Hkw (a & b & ->)%contains_spec.
  destruct (lower_aux_keeps [] a kw b Hkw) as (x & y & Heq).
  apply contains_spec. by exists x, y.
Qed.

(** A character that is the lowercase form of no character. *)
Definition never_lower (x : Z) : bool :=
  negb (x =? 0x3C2) && negb (x =? 0x3C3)
  && negb (x =? 0x69) && negb (x =? 0x307)
  && forallb (fun r => negb (in_lower_range (x - r.2) r)) lower_ranges
  && negb (mem x (to_lower_full x)).

Lemma never_lower_char (x : Z) (before after : pystr) (c : Z) :
  never_lower x = true -> x ∉ lower_char before c after.
Proof.
  unfold never_lower. rewrite !andb_true_iff, !negb_true_iff, !Z.eqb_neq.
  intros [[[[[H1 H2] H3] H4] Hr] Hx].
  unfold lower_char. destruct (c =? 0x3A3).
  - destruct (final_sigma before after);
      intros ->%list_elem_of_singleton; lia.
  - unfold to_lower_full in *. destruct (Z.eqb_spec c 0x130) as [-> | Hc].
    + intros [-> | ->%list_elem_of_singleton]%elem_of_cons; lia.
    + destruct (find (in_lower_range c) lower_ranges)
        as [[[[f l] st] d] |] eqn:Hf;
        intros ->%list_elem_of_singleton.
      * apply find_some in Hf as [Hin Hrange].
        rewrite forallb_forall in Hr. specialize (Hr _ Hin).
        cbn [snd] in Hr. replace (c + d - d) with c in Hr by lia.
        rewrite Hrange in Hr. discriminate.
      * apply Z.eqb_neq in Hc. rewrite Hc, Hf in Hx.
        simpl in Hx. by rewrite Z.eqb_refl in Hx.
Qed.

Lemma never_lower_aux (x : Z) (before s : pystr) :
  never_lower x = true -> x ∉ lower_aux before s.
Proof.
  intros Hx. revert before. induction s as [| c s IH]; intros before; simpl.
  - apply not_elem_of_nil.
  - rewrite elem_of_app. intros [H | H].
    + by apply (never_lower_char x before s c Hx).
    + by apply (IH (c :: before)).
Qed.

(** No lowercase form holds a capital I. *)
Lemma lower_no_capital_I (text : pystr) : 0x49 ∉ lower text.
Proof. apply never_lower_aux. by vm_compute. Qed.

End Lowercase.

(** ** Cutting a summary at a punctuation mark *)

Section Cut.

Import Intel.

(** The marks of [puncts] as characters. *)
Definition punct_chars : list Z :=
  [0x3002; 0xFF01; 0xFF1F; 0xFF1B; 0xFF0C; 0x3001; 0x2C; 0x2E].

Lemma puncts_chars : puncts = map (fun c => [c]) punct_chars.
Proof. reflexivity. Qed.

(** [c] occurs in [w] at an index greater than [bound]. *)
Definition occurs_past (w : pystr) (bound : Z) (c : Z) : Prop :=
  exists i : nat, bound < Z.of_nat i /\ w !! i = Some c.

(** The last occurrence of [c] in [w] is at index [i]. *)
Definition last_at (w : pystr) (c : Z) (i : nat) : Prop :=
  w !! i = Some c /\ forall j, (i < j)%nat -> w !! j <> Some c.

Lemma last_at_unique (w : pystr) (c : Z) (i j : nat) :
  last_at w c i -> last_at w c j -> i = j.
Proof.
  intros [Hi Hi'] [Hj Hj'].
  destruct (Nat.lt_trichotomy i j) as [H | [H | H]]; [| done |].
  - by destruct (Hi' j H).
  - by destruct (Hj' i H).
Qed.

(** [rfind] for a single character. *)
Lemma rfind_from_char (i : Z) (s : pystr) (c : Z) :
  0 <= i ->
  (rfind_from i s [c] = -1 /\ c ∉ s)
  \/ (exists k : nat, rfind_from i s [c] = i + Z.of_nat k /\ last_at s c k).
Proof.
  revert i. induction s as [| d s IH]; intros i Hi.
  - left. split; [done | apply not_elem_of_nil].
  - cbn [rfind_from].
    destruct (IH (i + 1) ltac:(lia)) as [[Hr Hnin] | (k & Hr & Hk & Hlast)].
    + rewrite Hr. cbn [Z.leb Z.compare]. simpl.
      rewrite andb_true_r. destruct (Z.eqb_spec c d) as [-> | Hcd].
      * right. exists 0%nat. split; [lia |]. split; [done |].
        intros [| j] Hj; [lia |]. simpl. intros Hin. apply Hnin.
        apply list_elem_of_lookup. by exists j.
      * left. split; [done |]. by apply not_elem_of_cons.
    + rewrite Hr. destruct (Z.leb_spec 0 (i + 1 + Z.of_nat k)) as [_ | Hneg].
      * right. exists (S k). split; [lia |]. split; [done |].
        intros [| j] Hj; [lia |]. simpl. apply Hlast. lia.
      * lia.
Qed.

Lemma rfind_char (s : pystr) (c : Z) :
  (rfind s [c] = -1 /\ c ∉ s)
  \/ (exists k : nat, rfind s [c] = Z.of_nat k /\ last_at s c k).
Proof.
  unfold rfind.
  destruct (rfind_from_char 0 s c ltac:(lia)) as [H | (k & Hr & Hk)];
    [by left | right].
  exists k. split; [lia | done].
Qed.

Section Loop.

Variables (t : pystr) (max_len : Z).
Hypothesis Hmax : 0 < max_len.

Local Abbreviation w := (slice_to t max_len).
Local Abbreviation bound := (max_len / 3).
Local Abbreviation marks := (map (fun c : Z => [c])).

Lemma bound_nonneg : 0 <= bound.
Proof. apply Z.div_pos; lia. Qed.

(** A mark without an occurrence behind the bound is passed over. *)
Lemma cut_at_punct_skip (c : Z) (cs : list Z) :
  ~ occurs_past w bound c ->
  cut_at_punct t max_len (marks (c :: cs))
  = cut_at_punct t max_len (marks cs).
Proof.
  intros Hno. cbn [map cut_at_punct]. pose proof bound_nonneg as Hb.
  destruct (rfind_char w c) as [[-> _] | (k & -> & Hk & _)].
  - destruct (Z.ltb_spec bound (-1)); [lia | done].
  - destruct (Z.ltb_spec bound (Z.of_nat k)) as [Hlt | _]; [| done].
    destruct Hno. by exists k.
Qed.

(** The first mark with an occurrence behind the bound decides. *)
Lemma cut_at_punct_first (before : list Z) (c : Z) (after : list Z)
    (i : nat) :
  (forall d, d ∈ before -> ~ occurs_past w bound d) ->
  last_at w c i -> bound < Z.of_nat i ->
  cut_at_punct t max_len (marks (before ++ c :: after))
  = Some (take (S i) t).
Proof.
  intros Hbefore Hlast Hi.
  induction before as [| d before IH]; simpl app.
  - cbn [map cut_at_punct].
    destruct (rfind_char w c) as [[_ Hnin] | (k & -> & Hk)].
    + destruct Hnin. apply list_elem_of_lookup. exists i. apply Hlast.
    + rewrite (last_at_unique _ _ _ _ Hk Hlast).
      destruct (Z.ltb_spec bound (Z.of_nat i)); [| lia].
      rewrite slice_to_nonneg by lia. do 2 f_equal. lia.
  - rewrite cut_at_punct_skip by (apply Hbefore; by left).
    apply IH. intros d' Hd'. apply Hbefore. by right.
Qed.

(** Without any such occurrence the loop falls through. *)
Lemma cut_at_punct_none (cs : list Z) :
  (forall d, d ∈ cs -> ~ occurs_past w bound d) ->
  cut_at_punct t max_len (marks cs) = None.
Proof.
  induction cs as [| c cs IH]; intros Hno; [done |].
  rewrite cut_at_punct_skip by (apply Hno; by left).
  apply IH. intros d Hd. apply Hno. by right.
Qed.

(** A cut at a mark stays within the budget. *)
Lemma cut_at_punct_length (cs : list Z) (r : pystr) :
  cut_at_punct t max_len (marks cs) = Some r -> len r <= max_len.
Proof.
  induction cs as [| c cs IH]; [done |].
  cbn [map cut_at_punct].
  destruct (rfind_char w c) as [[-> _] | (k & -> & Hk & _)].
  - pose proof bound_nonneg.
    destruct (Z.ltb_spec bound (-1)); [lia | exact IH].
  - destruct (Z.ltb_spec bound (Z.of_nat k)) as [Hlt | _]; [| exact IH].
    intros [= <-].
    apply lookup_lt_Some in Hk.
    pose proof (slice_to_length t max_len ltac:(lia)) as Hw.
    pose proof (slice_to_length t (Z.of_nat k + 1) ltac:(lia)) as Hr.
    unfold len in *. lia.
Qed.

End Loop.

Lemma cleaned_nil : cleaned [] = [].
Proof. reflexivity. Qed.

(** [smart_summary] in terms of the cleaned text. *)
Lemma smart_summary_cleaned (raw : pystr) (max_len : Z) :
  0 <= max_len ->
  smart_summary raw max_len =
    if len (cleaned raw) <=? max_len then cleaned raw
    else match cut_at_punct (cleaned raw) max_len puncts with
         | Some r => r
         | None => slice_to (cleaned raw) max_len ++ u "…"
         end.
Proof.
  intros Hmax. unfold smart_summary. destruct raw as [| c raw].
  - cbn [is_empty]. rewrite cleaned_nil.
    destruct (Z.leb_spec (len []) max_len) as [_ | H]; [done |].
    unfold len in H. simpl in H. lia.
  - cbn [is_empty]. destruct (cleaned (c :: raw)) as [| d t]; [| done].
    cbn [is_empty].
    destruct (Z.leb_spec (len []) max_len) as [_ | H]; [done |].
    unfold len in H. simpl in H. lia.
Qed.

End Cut.

(** ** Characters kept by the string operations *)

Section Kept.

Lemma lstrip_by_elem (p : Z -> bool) (s : pystr) (c : Z) :
  c ∈ lstrip_by p s -> c ∈ s.
Proof.
  induction s as [| d s IH]; simpl; [done |].
  destruct (p d); [| done]. intros H. right. by apply IH.
Qed.

Lemma elem_of_rev (s : pystr) (c : Z) : c ∈ rev s <-> c ∈ s.
Proof. rewrite !list_elem_of_In. symmetry. apply in_rev. Qed.

Lemma strip_by_elem (p : Z -> bool) (s : pystr) (c : Z) :
  c ∈ strip_by p s -> c ∈ s.
Proof.
  unfold strip_by, rstrip_by. rewrite elem_of_rev.
  intros H%lstrip_by_elem. rewrite elem_of_rev in H.
  by apply lstrip_by_elem in H.
Qed.

Lemma replace_aux_nil_elem (old : pystr) (skip : nat) (s : pystr) (c : Z) :
  c ∈ replace_aux old [] skip s -> c ∈ s.
Proof.
  revert skip. induction s as [| d s IH]; intros skip; simpl; [done |].
  destruct skip as [| k].
  - destruct (startswith (d :: s) old); simpl.
    + intros H. right. by apply IH in H.
    + intros [-> | H]%elem_of_cons; [by left | right; by apply IH in H].
  - intros H. right. by apply IH in H.
Qed.

(** Deleting the occurrences of a non-empty string adds no character. *)
Lemma replace_nil_elem (s old : pystr) (c : Z) :
  old <> [] -> c ∈ replace s old [] -> c ∈ s.
Proof.
  intros Hold. unfold replace. destruct old; [done |].
  apply replace_aux_nil_elem.
Qed.

End Kept.

(** ** Signs of the numbers read *)

Section Signs.

Import Unicode Exn PyNum.

(** [x] is not a number or has the sign bit [s]. *)
Definition has_sign (s : bool) (x : float) : Prop :=
  match x with
  | S754_nan => True
  | S754_zero s' | S754_infinity s' | S754_finite s' _ _ => s' = s
  end.

Lemma binary_round_aux_sign (sx : bool) (mx ex : Z) (lx : location) :
  has_sign sx (binary_round_aux prec emax sx mx ex lx).
Proof.
  unfold binary_round_aux.
  destruct (shr_fexp prec emax mx ex lx) as [mrs e'].
  destruct (shr_fexp prec emax _ e' loc_Exact) as [mrs' e''].
  destruct (shr_m mrs'); simpl; [done | | done].
  by destruct (e'' <=? emax - prec).
Qed.

Lemma binary_round_sign (sx : bool) (mx : positive) (ex : Z) :
  has_sign sx (binary_round prec emax sx mx ex).
Proof.
  unfold binary_round. destruct (shl_align mx ex _) as [mz ez].
  apply binary_round_aux_sign.
Qed.

Lemma float_of_decimal_sign (neg : bool) (d e10 : Z) :
  has_sign neg (float_of_decimal neg d e10).
Proof.
  unfold float_of_decimal. destruct d as [| p | p]; [done | | done].
  destruct (0 <=? e10); [apply binary_round_sign |].
  unfold SFdiv. destruct (SFdiv_core_binary _ _ _ _ _ _) as [[mz ez] lz].
  rewrite xorb_false_r. apply binary_round_aux_sign.
Qed.

Lemma fmul_sign (x : float) (m : positive) (e : Z) :
  has_sign false x -> has_sign false (fmul x (S754_finite false m e)).
Proof.
  destruct x as [s | s | | s m' e']; simpl; try done.
  - by intros ->.
  - by intros ->.
  - intros ->. apply binary_round_aux_sign.
Qed.

Lemma int_of_float_nonneg (x : float) (n : Z) :
  has_sign false x -> int_of_float x = Return n -> 0 <= n.
Proof.
  destruct x as [s | s | | s m e]; simpl; try done.
  - by intros _ [= <-].
  - intros -> [= <-]. destruct (Z.leb_spec 0 e).
    + apply Z.mul_nonneg_nonneg; [lia | apply Z.pow_nonneg; lia].
    + apply Z.div_pos; [lia |]. apply Z.pow_pos_nonneg; lia.
Qed.

(** *** The minus sign *)

Local Abbreviation minus := 0x2D.

Lemma decimal_range (c d : Z) : decimal c = Some d -> 0 <= d <= 9.
Proof.
  unfold decimal.
  destruct (find _ digit_zeros) as [z |] eqn:Hf; [| done].
  apply find_some in Hf as [_ Hz]. intros [= <-]. lia.
Qed.

Lemma digit_value_range (c d : Z) : digit_value c = Some d -> 0 <= d <= 9.
Proof.
  unfold digit_value.
  destruct ((0x30 <=? c) && (c <=? 0x39)) eqn:H; [| done].
  intros [= <-]. lia.
Qed.

Lemma to_ascii_aux_minus (s : pystr) :
  minus ∈ to_ascii_aux s -> minus ∈ s.
Proof.
  induction s as [| c s IH]; simpl; [done |].
  destruct (c <? 127).
  - intros [-> | H]%elem_of_cons; [by left | right; by apply IH].
  - destruct (isspace c).
    + intros [H | H]%elem_of_cons; [done | right; by apply IH].
    + destruct (decimal c) as [d |] eqn:Hd.
      * apply decimal_range in Hd.
        intros [H | H]%elem_of_cons; [lia | right; by apply IH].
      * by intros H%list_elem_of_singleton.
Qed.

Lemma to_ascii_minus (s : pystr) : minus ∈ to_ascii s -> minus ∈ s.
Proof.
  unfold to_ascii. destruct (forallb _ s); [done |].
  apply to_ascii_aux_minus.
Qed.

(** Without a minus sign in the string, no negative sign is read. *)
Lemma read_sign_minus (s t : pystr) (neg : bool) :
  read_sign s = (neg, t) -> minus ∉ s -> neg = false.
Proof.
  unfold read_sign. destruct s as [| c s]; [by intros [= <- _] |].
  destruct (Z.eqb_spec c minus) as [-> | _].
  - intros _ H. destruct H. by left.
  - destruct (c =? 0x2B); by intros [= <- _].
Qed.

Lemma int_digits_nonneg (acc n : Z) (b : bool) (s : pystr)
    (v k : Z) (rest : pystr) :
  0 <= acc -> int_digits acc n b s = Some (v, k, rest) -> 0 <= v.
Proof.
  revert acc n b. induction s as [| c s IH]; intros acc n b Hacc; simpl.
  - destruct b; [done | by intros [= <- _ _]].
  - destruct (c =? 0x5F).
    + destruct b; [done | by apply IH].
    + destruct (digit_value c) as [d |] eqn:Hd.
      * apply digit_value_range in Hd. apply IH. lia.
      * destruct b; [done | by intros [= <- _ _]].
Qed.

Lemma py_int_nonneg (s : pystr) (n : Z) :
  minus ∉ s -> py_int s = Return n -> 0 <= n.
Proof.
  intros Hs. unfold py_int.
  destruct (read_sign _) as [neg t] eqn:Hsign.
  apply read_sign_minus in Hsign as ->.
  2:{ intros H%lstrip_by_elem%to_ascii_minus. by apply Hs. }
  destruct (head_is 0x5F t); [done |].
  destruct (int_digits 0 0 false t) as [[[v k] rest] |] eqn:Hd; [| done].
  apply int_digits_nonneg in Hd; [| lia].
  destruct (k =? 0); [done |].
  destruct (int_max_str_digits <? k); [done |].
  destruct (is_empty _); [| done]. by intros [= <-].
Qed.

Lemma drop_underscores_elem (prev : Z) (s t : pystr) (c : Z) :
  drop_underscores prev s = Some t -> c ∈ t -> c ∈ s.
Proof.
  revert prev t. induction s as [| d s IH]; intros prev t; simpl.
  - destruct (prev =? 0x5F); [done |]. by intros [= <-].
  - destruct (d =? 0x5F).
    + destruct (is_digit prev); [| done].
      intros H Hc. right. by apply (IH _ _ H).
    + destruct ((prev =? 0x5F) && negb (is_digit d)); [done |].
      destruct (drop_underscores d s) as [t' |] eqn:Ht'; [| done].
      simpl. intros [= <-] [-> | Hc]%elem_of_cons; [by left | right].
      by apply (IH _ _ Ht').
Qed.

Lemma parse_decimal_sign (s rest : pystr) (x : float) :
  minus ∉ s -> parse_decimal s = Some (x, rest) -> has_sign false x.
Proof.
  intros Hs. unfold parse_decimal.
  destruct (read_sign s) as [neg s1] eqn:Hsign.
  apply read_sign_minus in Hsign as ->; [| done].
  destruct (digits 0 0 s1) as [[ip n_int] s2].
  destruct (if head_is 0x2E s2 then _ else _) as [[d n_frac] s3].
  destruct (n_int + n_frac =? 0); [done |].
  destruct (_ || _); [done |].
  destruct (read_exponent s3) as [e s4].
  intros [= <- _]. apply float_of_decimal_sign.
Qed.

Lemma parse_inf_or_nan_sign (s rest : pystr) (x : float) :
  minus ∉ s -> parse_inf_or_nan s = Some (x, rest) -> has_sign false x.
Proof.
  intros Hs. unfold parse_inf_or_nan.
  destruct (read_sign s) as [neg t] eqn:Hsign.
  apply read_sign_minus in Hsign as ->; [| done].
  destruct (match_word t (u "inf")) as [t1 |].
  - destruct (match_word t1 (u "inity")); by intros [= <- _].
  - destruct (match_word t (u "nan")); [by intros [= <- _] | done].
Qed.

Lemma py_float_sign (s : pystr) (x : float) :
  minus ∉ s -> py_float s = Return x -> has_sign false x.
Proof.
  intros Hs. unfold py_float.
  destruct (if mem 0x5F (to_ascii s) then _ else _) as [t |] eqn:Ht;
    [| done].
  assert (Hminus : minus ∉ strip_by c_isspace t).
  { intros H%strip_by_elem. apply Hs, to_ascii_minus.
    destruct (mem 0x5F (to_ascii s)).
    - by apply (drop_underscores_elem _ _ _ _ Ht).
    - by injection Ht as ->. }
  unfold strtod.
  destruct (parse_decimal _) as [[y rest] |] eqn:Hd.
  - destruct rest; [| done]. intros [= <-].
    by apply (parse_decimal_sign _ _ _ Hminus Hd).
  - destruct (parse_inf_or_nan _) as [[y rest] |] eqn:Hi; [| done].
    destruct rest; [| done]. intros [= <-].
    by apply (parse_inf_or_nan_sign _ _ _ Hminus Hi).
Qed.

Import Intel.

Lemma convert_likes_nonneg (s : pystr) (n : Z) :
  minus ∉ s -> convert_likes s = Return n -> 0 <= n.
Proof.
  intros Hs. unfold convert_likes. destruct (contains _ s).
  - destruct (py_float _) as [x | e] eqn:Hx; [| done]. simpl.
    apply int_of_float_nonneg.
    replace (float_of_int 10000)
      with (S754_finite false 5497558138880000 (-39)) by (by vm_compute).
    apply fmul_sign. refine (py_float_sign _ _ _ Hx).
    intros H%replace_nil_elem; [by apply Hs | done].
  - by apply py_int_nonneg.
Qed.

End Signs.

(** ** Multiplying by 1.0 *)

Section MulOne.

Import PyNum Dashboard.






End MulOne.

(** ** The matcher *)

Section Matcher.

Import Re Intel.

(** A matcher looks at its continuation only on rests that are not longer
    than the rest it starts from. *)
Lemma star_loop_ext (body : matcher) (k1 k2 : nat -> pystr -> option nat)
    (fuel pos : nat) (s : pystr) :
  (forall pos s k1 k2,
      (forall pos' s', (length s' <= length s)%nat ->
                       k1 pos' s' = k2 pos' s') ->
      body pos s k1 = body pos s k2) ->
  (forall pos' s', (length s' <= length s)%nat -> k1 pos' s' = k2 pos' s') ->
  star_loop body k1 fuel pos s = star_loop body k2 fuel pos s.
Proof.
  intros Hbody. revert pos s.
  induction fuel as [| fuel IH]; intros pos s Hk; cbn [star_loop].
  - by apply Hk.
  - rewrite (Hbody pos s _
               (fun pos' s' =>
                  if (length s' <? length s)%nat
                  then star_loop body k2 fuel pos' s' else None)).
    + by rewrite (Hk pos s).
    + intros pos' s' Hlen.
      destruct (Nat.ltb_spec (length s') (length s)); [| done].
      apply IH. intros pos'' s'' Hlen'. apply Hk. lia.
Qed.

Lemma run_ext (r : regex) (pos : nat) (s : pystr)
    (k1 k2 : nat -> pystr -> option nat) :
  (forall pos' s', (length s' <= length s)%nat -> k1 pos' s' = k2 pos' s') ->
  run r pos s k1 = run r pos s k2.
Proof.
  revert pos s k1 k2.
  induction r as [| items | items | r1 IH1 r2 IH2 | r1 IH1 r2 IH2
                  | r1 IH1 | |]; intros pos s k1 k2 Hk; cbn [run].
  - by apply Hk.
  - destruct s as [| c s]; [done |].
    destruct (existsb _ items); [| done]. apply Hk. simpl. lia.
  - destruct s as [| c s]; [done |].
    destruct (existsb _ items); [done |]. apply Hk. simpl. lia.
  - apply IH1. intros pos' s' Hlen. apply IH2.
    intros pos'' s'' Hlen'. apply Hk. lia.
  - by rewrite (IH1 pos s k1 k2 Hk), (IH2 pos s k1 k2 Hk).
  - by apply star_loop_ext.
  - destruct (pos =? 0)%nat; [by apply Hk | done].
  - destruct s as [| c [| d s]]; [by apply Hk | | done].
    destruct (c =? 10); [by apply Hk | done].
Qed.

(** More fuel than the rest has characters is as good as any. *)
Lemma star_loop_fuel (r : regex) (k : nat -> pystr -> option nat)
    (n m pos : nat) (s : pystr) :
  (length s < n)%nat -> (length s < m)%nat ->
  star_loop (run r) k n pos s = star_loop (run r) k m pos s.
Proof.
  revert m pos s. induction n as [| n IH]; intros m pos s Hn Hm; [lia |].
  destruct m as [| m]; [lia |]. cbn [star_loop].
  rewrite (run_ext r pos s _
             (fun pos' s' =>
                if (length s' <? length s)%nat
                then star_loop (run r) k m pos' s' else None)); [done |].
  intros pos' s' Hlen.
  destruct (Nat.ltb_spec (length s') (length s)); [| done].
  apply IH; lia.
Qed.

(** The repetition [r*] tries one more [r], which must consume a
    character, and then [r*] again, before it goes on. *)
Lemma run_star (r : regex) (pos : nat) (s : pystr)
    (k : nat -> pystr -> option nat) :
  run (Star r) pos s k =
    match run r pos s
            (fun pos' s' =>
               if (length s' <? length s)%nat
               then run (Star r) pos' s' k else None) with
    | Some e => Some e
    | None => k pos s
    end.
Proof.
  cbn [run star_loop].
  rewrite (run_ext r pos s _
             (fun pos' s' =>
                if (length s' <? length s)%nat
                then star_loop (run r) k (S (length s')) pos' s'
                else None)); [done |].
  intros pos' s' Hlen.
  destruct (Nat.ltb_spec (length s') (length s)); [| done].
  apply star_loop_fuel; lia.
Qed.

(** A lower bound on the length of a match. *)
Fixpoint min_len (r : regex) : nat :=
  match r with
  | Eps | Star _ | Bol | Eol => 0
  | OneOf _ | NoneOf _ => 1
  | Seq r1 r2 => min_len r1 + min_len r2
  | Alt r1 r2 => Nat.min (min_len r1) (min_len r2)
  end.

Lemma run_min_len (r : regex) (pos : nat) (s : pystr)
    (k : nat -> pystr -> option nat) (e : nat) :
  run r pos s k = Some e ->
  exists pos' s', k pos' s' = Some e /\ (pos + min_len r <= pos')%nat.
Proof.
  revert pos s k.
  induction r as [| items | items | r1 IH1 r2 IH2 | r1 IH1 r2 IH2
                  | r1 IH1 | |]; intros pos s k; cbn [run min_len].
  - intros H. exists pos, s. split; [done | lia].
  - destruct s as [| c s]; [done |].
    destruct (existsb _ items); [| done].
    intros H. exists (S pos), s. split; [done | lia].
  - destruct s as [| c s]; [done |].
    destruct (existsb _ items); [done |].
    intros H. exists (S pos), s. split; [done | lia].
  - intros (p1 & s1 & (p2 & s2 & H2 & Hp2)%IH2 & Hp1)%IH1.
    exists p2, s2. split; [done | lia].
  - destruct (run r1 pos s k) as [e1 |] eqn:H1.
    + intros [= ->]. apply IH1 in H1 as (p & s' & Hk & Hp).
      exists p, s'. split; [done | lia].
    + intros (p & s' & Hk & Hp)%IH2. exists p, s'. split; [done | lia].
  - generalize (S (length s)). intros fuel. revert pos s.
    induction fuel as [| fuel IHf]; intros pos s; cbn [star_loop].
    + intros H. exists pos, s. split; [done | lia].
    + destruct (run r1 pos s _) as [e1 |] eqn:H1.
      * intros [= ->]. apply IH1 in H1 as (p & s' & Hk & Hp).
        destruct (length s' <? length s)%nat; [| done].
        apply IHf in Hk as (p' & s'' & Hk & Hp').
        exists p', s''. split; [done | lia].
      * intros H. exists pos, s. split; [done | lia].
  - destruct (pos =? 0)%nat; [| done].
    intros H. exists pos, s. split; [done | lia].
  - destruct s as [| c [| d s]]; [| | done].
    + intros H. exists pos, []. split; [done | lia].
    + destruct (c =? 10); [| done].
      intros H. exists pos, [c]. split; [done | lia].
Qed.

Lemma match_at_min_len (r : regex) (pos : nat) (s : pystr) (e : nat) :
  match_at r pos s = Some e -> (pos + min_len r <= e)%nat.
Proof.
  intros (p & s' & [= ->] & Hp)%run_min_len. exact Hp.
Qed.

(** Every match of a pattern of [smart_summary] holds a character, so
    [Re.sub] is [re.sub] on them. *)
Lemma patterns_consume (r : regex) (pos : nat) (s : pystr) (e : nat) :
  In r [re_date_prefix; re_ago_prefix; re_tag; re_tags; re_dash_source;
        re_ellipsis] ->
  match_at r pos s = Some e -> (pos < e)%nat.
Proof.
  intros Hr Hm%match_at_min_len.
  assert (Hlen : (1 <= min_len r)%nat).
  { simpl in Hr.
    destruct Hr as [<- | [<- | [<- | [<- | [<- | [<- | []]]]]]];
      vm_compute; lia. }
  lia.
Qed.


End Matcher.

(** ** The merged list is taken from the sources *)

Section Selection.

Import Intel.

Lemma dedupe_fold_sublist (key_len : Z) (l : list item) :
  (fold_left (dedupe_step key_len) l (∅, [])).2 `sublist_of` l.
Proof.
  induction l as [| a l IH] using rev_ind; [done |].
  rewrite fold_left_app. simpl.
  destruct (fold_left (dedupe_step key_len) l (∅, [])) as [seen merged].
  unfold dedupe_step. simpl in *.
  destruct (decide (dedupe_key key_len a ∈ seen)); simpl.
  - by apply sublist_inserts_r.
  - by apply sublist_app.
Qed.

(** Before sorting, the merged list is a subsequence of the concatenated
    sources. *)
Lemma dedupe_sublist (sources : list (list item)) (key_len : Z) :
  dedupe sources key_len `sublist_of` concat sources.
Proof.
  unfold dedupe. rewrite dedupe_loop_concat. apply dedupe_fold_sublist.
Qed.

(** The output of [merge_dedupe] is not longer than the sources taken
    together, and each of its items is an item of a source. *)
Lemma merge_dedupe_selection (sources : list (list item)) (key_len : Z) :
  (length (merge_dedupe sources key_len) <= length (concat sources))%nat
  /\ (forall x, x ∈ merge_dedupe sources key_len ->
                exists src, src ∈ sources /\ x ∈ src)
  /\ (exists merged, merged `sublist_of` concat sources
                     /\ merge_dedupe sources key_len ≡ₚ merged).
Proof.
  pose proof (dedupe_sublist sources key_len) as Hsub.
  split; [| split].
  - rewrite (Permutation_length (merge_dedupe_perm key_len sources)).
    by apply sublist_length.
  - intros x Hx. rewrite (merge_dedupe_perm key_len sources) in Hx.
    pose proof (elem_of_sublist _ _ _ Hx Hsub) as Hin.
    apply elem_of_concat in Hin as (src & Hx' & Hsrc).
    by exists src.
  - exists (dedupe sources key_len). split; [done |].
    apply merge_dedupe_perm.
Qed.

End Selection.

(** ** The literals of the source *)

Section Literals.

Import Intel.

(** The code points of the literals that the functions test for. *)
Lemma literal_code_points :
  u "万" = [0x4E07] /\ u "," = [0x2C] /\ u "…" = [0x2026]
  /\ u "-·" = [0x2D; 0xB7] /\ u "-–—" = [0x2D; 0x2013; 0x2014]
  /\ u "_|" = [0x5F; 0x7C]
  /\ u "_|。！？，" = [0x5F; 0x7C; 0x3002; 0xFF01; 0xFF1F; 0xFF0C]
  /\ u "天小时分钟月年"
     = [0x5929; 0x5C0F; 0x65F6; 0x5206; 0x949F; 0x6708; 0x5E74]
  /\ u "年月日前" = [0x5E74; 0x6708; 0x65E5; 0x524D]
  /\ u "IPO" = [0x49; 0x50; 0x4F]
  /\ puncts = [[0x3002]; [0xFF01]; [0xFF1F]; [0xFF1B]; [0xFF0C]; [0x3001];
               [0x2C]; [0x2E]].
Proof. repeat split. Qed.

End Literals.

(* ================================================================== *)
(** * Main results *)

Section MergeDedupeResults.

Import Datetime Intel.

Local Abbreviation key20 := (dedupe_key default_key_len).

Lemma dedupe_key_default (it : item) : key20 it = take 20 (title it).
Proof. apply slice_to_nonneg. unfold default_key_len. lia. Qed.

Lemma dedupe_key_nil_iff (it : item) : key20 it = [] <-> title it = [].
Proof. apply slice_to_nil_iff. unfold default_key_len. lia. Qed.

Lemma NoDup_fmap_filter_le {A B} `{EqDecision B} (f : A -> B) (k : B)
    (l : list A) :
  NoDup (f <$> l) -> (length (filter (fun x => f x = k) l) <= 1)%nat.
Proof.
  induction l as [| a l IH]; simpl; [lia |].
  intros [Hnin Hnd]%NoDup_cons. rewrite filter_cons.
  destruct (decide (f a = k)) as [Hk | Hk]; [| by apply IH].
  assert (Hnil : filter (fun x => f x = k) l = []).
  { clear IH Hnd. induction l as [| b l IHl]; [done |].
    rewrite filter_cons. simpl in Hnin.
    apply not_elem_of_cons in Hnin as [Hab Hnin].
    destruct (decide (f b = k)); [congruence | by apply IHl]. }
  rewrite Hnil. simpl. lia.
Qed.

(** C1.  The output of [merge_dedupe] holds no two items with the same
    dedupe key, where the key of an item is the first 20 characters of
    its title; the items of the output are exactly the first occurrences
    of their keys in the concatenation of the source lists; and so the
    item kept for a key comes from a source list that is not later than
    any source list holding an item with that key. *)
Theorem merge_dedupe_unique_keys_first_wins (sources : list (list item)) :
  let out := merge_dedupe sources default_key_len in
  (forall it, key20 it = take 20 (title it))
  /\ NoDup (key20 <$> out)
  /\ (forall x,
        x ∈ out <-> first_occurrence default_key_len (concat sources) x)
  /\ (forall x y j src,
        x ∈ out -> sources !! j = Some src -> y ∈ src ->
        key20 y = key20 x ->
        exists i src',
          (i <= j)%nat /\ sources !! i = Some src' /\ x ∈ src').
Proof.
  simpl. split; [exact dedupe_key_default |].
  split; [apply merge_dedupe_nodup |].
  split; [apply merge_dedupe_first |].
  intros x y j src Hx. apply first_occurrence_source.
  by apply merge_dedupe_first.
Qed.





(** An item with an empty title. *)
Definition item_untitled : item :=
  {| title := []; source := u "sina"; link := []; pub_dt := None;
     category := "general"; extra := [(u "channel", u "sina")] |}.

(** C5, as stated, fails: an item with an empty title is kept. *)
Lemma merge_dedupe_keeps_empty_title :
  merge_dedupe [[item_untitled]] default_key_len = [item_untitled]
  /\ title item_untitled = [].
Proof. split; vm_compute; reflexivity. Qed.

(** C5, amended.  [merge_dedupe] is defined on items whose title is the
    empty string and treats the empty title as a key like any other: the
    output holds at most one item with an empty title, and an item with
    an empty title is in the output exactly when it is the first item
    with an empty title in the concatenation of the source lists. *)
Theorem merge_dedupe_empty_title (sources : list (list item)) :
  let out := merge_dedupe sources default_key_len in
  (length (filter (fun x => title x = []) out) <= 1)%nat
  /\ (forall x,
        x ∈ out /\ title x = [] <->
        exists l1 l2,
          concat sources = l1 ++ x :: l2 /\ title x = []
          /\ forall y, y ∈ l1 -> title y <> []).
Proof.
  simpl. split.
  - pose proof (NoDup_fmap_filter_le key20 [] _
                  (merge_dedupe_nodup default_key_len sources)) as H.
    erewrite list_filter_iff; [exact H |].
    intros x. simpl. symmetry. apply dedupe_key_nil_iff.
  - intros x. rewrite merge_dedupe_first. split.
    + intros [(l1 & l2 & Heq & Hfirst) Hx]. exists l1, l2.
      split; [done |]. split; [done |].
      intros y Hy Hy0. apply (Hfirst y Hy).
      transitivity ([] : pystr); [| symmetry]; by apply dedupe_key_nil_iff.
    + intros (l1 & l2 & Heq & Hx & Hfirst). split; [| done].
      exists l1, l2. split; [done |].
      intros y Hy Hk. apply (Hfirst y Hy).
      apply dedupe_key_nil_iff. rewrite Hk. by apply dedupe_key_nil_iff.
Qed.

End MergeDedupeResults.

Section ClassifyResults.

Import Unicode Intel.

Lemma keywords_caseless :
  forallb (forallb caseless) (KEYWORDS_ADJUST ++ KEYWORDS_PROMO) = true.
Proof. by vm_compute. Qed.

Lemma any_in_lower (kws : list pystr) (kw text : pystr) :
  forallb (forallb caseless) kws = true ->
  In kw kws -> contains kw text = true -> any_in kws (lower text) = true.
Proof.
  intros Hkws Hin Hc. apply existsb_exists. exists kw. split; [done |].
  apply contains_lower; [| done].
  rewrite forallb_forall in Hkws. by apply Hkws.
Qed.

(** C6.  [classify_text] returns one of the four labels; it tests the
    keyword lists against the lowercase text in the order adjust, promo,
    finance and returns "general" when none matches; it gives the four
    labels of the examples; and a text that holds an adjust keyword and
    a promo keyword is "adjust". *)
Theorem classify_text_priority :
  (forall text,
      In (classify_text text) ["adjust"; "promo"; "finance"; "general"]%string)
  /\ (forall text,
        let t := lower text in
        (classify_text text = "adjust"%string
           <-> any_in KEYWORDS_ADJUST t = true)
        /\ (classify_text text = "promo"%string
              <-> any_in KEYWORDS_ADJUST t = false
                  /\ any_in KEYWORDS_PROMO t = true)
        /\ (classify_text text = "finance"%string
              <-> any_in KEYWORDS_ADJUST t = false
                  /\ any_in KEYWORDS_PROMO t = false
                  /\ any_in KEYWORDS_FINANCE t = true)
        /\ (classify_text text = "general"%string
              <-> any_in KEYWORDS_ADJUST t = false
                  /\ any_in KEYWORDS_PROMO t = false
                  /\ any_in KEYWORDS_FINANCE t = false))
  /\ classify_text (u "老铺黄金调价通知") = "adjust"%string
  /\ classify_text (u "满减优惠活动") = "promo"%string
  /\ classify_text (u "Q3财报发布") = "finance"%string
  /\ classify_text (u "随便聊聊") = "general"%string
  /\ (forall text kwa kwp,
        In kwa KEYWORDS_ADJUST -> In kwp KEYWORDS_PROMO ->
        contains kwa text = true -> contains kwp text = true ->
        classify_text text = "adjust"%string).
Proof.
  split.
  { intros text. unfold classify_text.
    destruct (any_in KEYWORDS_ADJUST (lower text)); [simpl; tauto |].
    destruct (any_in KEYWORDS_PROMO (lower text)); [simpl; tauto |].
    destruct (any_in KEYWORDS_FINANCE (lower text)); simpl; tauto. }
  split.
  { intros text. unfold classify_text. cbv zeta.
    destruct (any_in KEYWORDS_ADJUST (lower text));
      destruct (any_in KEYWORDS_PROMO (lower text));
      destruct (any_in KEYWORDS_FINANCE (lower text));
      intuition congruence. }
  do 4 (split; [by vm_compute |]).
  intros text kwa kwp Ha _ Hca _. unfold classify_text.
  rewrite (any_in_lower KEYWORDS_ADJUST kwa text); [done | | done | done].
  pose proof keywords_caseless as H. rewrite forallb_app in H.
  by apply andb_true_iff in H as [H _].
Qed.

(** C10.  "IPO" is one of the finance keywords, but it occurs in no
    lowercase text, so it never matches: "公司IPO上市" is "general", and
    whenever [classify_text] returns "finance" it is on account of a
    finance keyword other than "IPO". *)
Theorem classify_text_ipo_never_matches :
  In (u "IPO") KEYWORDS_FINANCE
  /\ (forall text, contains (u "IPO") (lower text) = false)
  /\ classify_text (u "公司IPO上市") = "general"%string
  /\ (forall text,
        classify_text text = "finance"%string ->
        exists kw,
          In kw KEYWORDS_FINANCE /\ kw <> u "IPO"
          /\ contains kw (lower text) = true).
Proof.
  assert (Hipo : forall text, contains (u "IPO") (lower text) = false).
  { intros text. apply not_true_is_false. intros Hc.
    apply (lower_no_capital_I text).
    apply (contains_elem _ _ _ Hc). by left. }
  split; [vm_compute; tauto |].
  split; [exact Hipo |].
  split; [by vm_compute |].
  intros text. unfold classify_text.
  destruct (any_in KEYWORDS_ADJUST (lower text)); [discriminate |].
  destruct (any_in KEYWORDS_PROMO (lower text)); [discriminate |].
  destruct (any_in KEYWORDS_FINANCE (lower text)) eqn:Hf; [| discriminate].
  intros _. apply existsb_exists in Hf as (kw & Hin & Hc).
  exists kw. split; [done |]. split; [| done].
  intros ->. by rewrite Hipo in Hc.
Qed.

End ClassifyResults.

Section SummaryExample.

Import Unicode Re Intel.

(** C7.  On "2025年3月2日 - 老铺黄金涨价通知_品牌_市场" with a budget of 50,
    [smart_summary] removes the date prefix, then the tag "_市场", then
    the tag "_品牌", and returns "老铺黄金涨价通知". *)
Theorem smart_summary_date_and_tags :
  let raw := u "2025年3月2日 - 老铺黄金涨价通知_品牌_市场" in
  Re.sub re_date_prefix raw = u "老铺黄金涨价通知_品牌_市场"
  /\ Re.sub re_tag (u "老铺黄金涨价通知_品牌_市场") = u "老铺黄金涨价通知_品牌"
  /\ Re.sub re_tags (u "老铺黄金涨价通知_品牌") = u "老铺黄金涨价通知"
  /\ cleaned raw = u "老铺黄金涨价通知"
  /\ smart_summary raw 50 = u "老铺黄金涨价通知".
Proof. repeat split; by vm_compute. Qed.

End SummaryExample.

Section SummaryBudget.

Import Intel.

(** The reading of C8: the summary is cut behind the last mark, of any
    kind, that stands behind index [max_len // 3] in the first [max_len]
    characters of the cleaned text [t]. *)
Definition cut_after_last_mark (t : pystr) (max_len : Z) (r : pystr)
    : Prop :=
  forall (c : Z) (i : nat),
    c ∈ punct_chars -> slice_to t max_len !! i = Some c ->
    max_len / 3 < Z.of_nat i ->
    (forall d j, d ∈ punct_chars -> (i < j)%nat ->
                 slice_to t max_len !! j <> Some d) ->
    r = take (S i) t.

(** C8, as stated, fails: with a budget of 10 the text below holds a full
    stop at index 4 and a comma at index 9, both behind index 3; the last
    mark is the comma, but the full stop comes first in the list of
    marks and the summary is cut behind it. *)
Lemma smart_summary_prefers_earlier_mark :
  let raw := u "一二三四。五六七八，九十" in
  cleaned raw = raw
  /\ smart_summary raw 10 = u "一二三四。"
  /\ ~ cut_after_last_mark (cleaned raw) 10 (smart_summary raw 10).
Proof.
  split; [by vm_compute |]. split; [by vm_compute |].
  intros H. specialize (H 0xFF0C 9%nat).
  assert (Hlen : length (slice_to (cleaned (u "一二三四。五六七八，九十")) 10)
                 = 10%nat) by (by vm_compute).
  assert (Hr : smart_summary (u "一二三四。五六七八，九十") 10
               = take 10 (cleaned (u "一二三四。五六七八，九十"))).
  { apply H.
    - apply list_elem_of_In. vm_compute. tauto.
    - by vm_compute.
    - by vm_compute.
    - intros d j _ Hj Heq. apply lookup_lt_Some in Heq. lia. }
  vm_compute in Hr. discriminate Hr.
Qed.

(** C8, amended.  For a positive budget [max_len], [smart_summary]
    returns a string of at most [max_len] characters, or the first
    [max_len] characters of the cleaned text followed by the marker "…";
    a cleaned text within the budget is returned as it is; a longer one
    is cut behind the last occurrence, within its first [max_len]
    characters, of the first mark in the order 。！？；，、,. that occurs
    there behind index [max_len // 3]; and when no mark occurs there
    behind that index, the first [max_len] characters are returned with
    the marker "…" appended. *)
Theorem smart_summary_budget (raw : pystr) (max_len : Z) :
  0 < max_len ->
  let t := cleaned raw in
  let r := smart_summary raw max_len in
  let w := slice_to t max_len in
  (len r <= max_len \/ (max_len < len t /\ r = w ++ u "…"))
  /\ (len t <= max_len -> r = t)
  /\ (max_len < len t ->
        (forall before c after i,
            punct_chars = before ++ c :: after ->
            (forall d, d ∈ before -> ~ occurs_past w (max_len / 3) d) ->
            last_at w c i -> max_len / 3 < Z.of_nat i ->
            r = take (S i) t /\ len r <= max_len)
        /\ ((forall d, d ∈ punct_chars ->
                       ~ occurs_past w (max_len / 3) d) ->
            r = w ++ u "…")).
Proof.
  intros Hmax. cbv zeta.
  rewrite smart_summary_cleaned by lia. rewrite puncts_chars.
  destruct (Z.leb_spec (len (cleaned raw)) max_len) as [Hle | Hgt].
  - split; [by left |]. split; [done | lia].
  - split; [| split; [lia |]].
    + destruct (cut_at_punct _ _ _) as [r |] eqn:Hcut.
      * left. by apply (cut_at_punct_length _ _ Hmax _ _ Hcut).
      * by right.
    + intros _. split.
      * intros before c after i -> Hbefore Hlast Hi.
        pose proof (cut_at_punct_first _ _ Hmax before c after i
                      Hbefore Hlast Hi) as Hcut.
        rewrite Hcut. split; [done |].
        by apply (cut_at_punct_length _ _ Hmax _ _ Hcut).
      * intros Hno. by rewrite (cut_at_punct_none _ _ Hmax _ Hno).
Qed.

(** The budget theorem at "一二三四。五六七八，九十" and 10. *)
Lemma smart_summary_budget_witness :
  0 < 10
  /\ len (smart_summary (u "一二三四。五六七八，九十") 10) <= 10.
Proof.
  split; [lia |].
  destruct (smart_summary_budget (u "一二三四。五六七八，九十") 10
              ltac:(lia)) as (_ & _ & Hcut).
  destruct Hcut as [Hfirst _]; [by vm_compute |].
  apply (Hfirst [] 0x3002 [0xFF01; 0xFF1F; 0xFF1B; 0xFF0C; 0x3001; 0x2C; 0x2E]
           4%nat); [done | by intros d ?%elem_of_nil | | by vm_compute].
  split; [by vm_compute |].
  intros j Hj.
  destruct (decide (j < 10)%nat) as [Hlt | Hge].
  - do 10 (destruct j as [| j]; [try lia; by vm_compute |]). lia.
  - intros Heq. apply lookup_lt_Some in Heq.
    replace (length _) with 10%nat in Heq by (by vm_compute). lia.
Defined.

End SummaryBudget.

Section ParseLikesResults.

Import Unicode Exn PyNum Intel.

(** C4, as stated, fails: a count with a minus sign is read as a negative
    integer. *)
Lemma parse_likes_negative :
  parse_likes (u "-5") = Return (-5)
  /\ parse_likes (u "-1万") = Return (-10000).
Proof. split; by vm_compute. Qed.

(** C4, amended.  [parse_likes] gives 89000, 475, 0 and 0 on "8.9万",
    "475", "" and "abc"; it never raises [ValueError]: it returns 0 for
    the empty string and whenever [int] or [float] reject the text, or
    the float is not a number; and a result it returns is an integer
    that is non-negative when the string holds no minus sign. *)
Theorem parse_likes_result :
  parse_likes (u "8.9万") = Return 89000
  /\ parse_likes (u "475") = Return 475
  /\ parse_likes (u "") = Return 0
  /\ parse_likes (u "abc") = Return 0
  /\ (forall s, parse_likes s <> Raise ValueError)
  /\ (forall s,
        let s' := replace (strip s) (u ",") [] in
        contains (u "万") s' = false -> py_int s' = Raise ValueError ->
        parse_likes s = Return 0)
  /\ (forall s,
        let s' := replace (strip s) (u ",") [] in
        contains (u "万") s' = true ->
        py_float (replace s' (u "万") []) = Raise ValueError ->
        parse_likes s = Return 0)
  /\ (forall s n, 0x2D ∉ s -> parse_likes s = Return n -> 0 <= n).
Proof.
  do 4 (split; [by vm_compute |]).
  split; [| split; [| split]].
  - intros s. unfold parse_likes. destruct (is_empty s); [done |].
    by destruct (convert_likes _) as [n | []].
  - intros s s' Hc Hint. unfold parse_likes. destruct (is_empty s); [done |].
    fold s'. unfold convert_likes. by rewrite Hc, Hint.
  - intros s s' Hc Hfloat. unfold parse_likes.
    destruct (is_empty s); [done |].
    fold s'. unfold convert_likes. by rewrite Hc, Hfloat.
  - intros s n Hs. unfold parse_likes.
    destruct (is_empty s); [by intros [= <-] |].
    destruct (convert_likes _) as [k | []] eqn:Hc; simpl.
    + intros [= <-]. refine (convert_likes_nonneg _ _ _ Hc).
      intros H%replace_nil_elem; [| done].
      apply strip_by_elem in H. by apply Hs.
    + by intros [= <-].
    + done.
Qed.

(** C9: the handler of [parse_likes] catches [ValueError] only, and
    [int] raises [OverflowError] on an infinite float. *)
Theorem parse_likes_overflow_escapes :
  parse_likes (u "inf万") = Raise OverflowError
  /\ parse_likes (u "1e999万") = Raise OverflowError
  /\ parse_likes (u "1e308万") = Raise OverflowError.
Proof. repeat split; by vm_compute. Qed.

End ParseLikesResults.

Section DiscountResults.

Import Exn PyNum Dashboard.






End DiscountResults.

(* ================================================================== *)
(** * Further properties *)

(** ** [merge_dedupe] on its own output, without clashes, with empty keys *)

Section MergeDedupeMore.

Import Datetime Intel.

Lemma dedupe_fold_nodup_id (key_len : Z) (l : list item) :
  NoDup (dedupe_key key_len <$> l) ->
  (fold_left (dedupe_step key_len) l (∅, [])).2 = l.
Proof.
  induction l as [| a l IH] using rev_ind; [done |].
  rewrite fmap_app. intros (Hl & Hdisj & _)%NoDup_app.
  rewrite fold_left_app. simpl.
  pose proof (loop_inv_fold key_len l) as [Hseen _ _ _].
  specialize (IH Hl).
  destruct (fold_left (dedupe_step key_len) l (∅, [])) as [seen merged].
  simpl in *. subst merged. unfold dedupe_step. simpl.
  destruct (decide (dedupe_key key_len a ∈ seen)) as [Hin | Hnin]; [| done].
  apply Hseen in Hin as (y & Hy & Heq).
  destruct (Hdisj (dedupe_key key_len a)).
  - rewrite <- Heq. by apply list_elem_of_fmap_2.
  - by left.
Qed.

Lemma dedupe_nodup_id (key_len : Z) (sources : list (list item)) :
  NoDup (dedupe_key key_len <$> concat sources) ->
  dedupe sources key_len = concat sources.
Proof.
  intros H. unfold dedupe. rewrite dedupe_loop_concat.
  by apply dedupe_fold_nodup_id.
Qed.

Lemma insert_desc_head {A} (key : A -> datetime) (x : A) (l : list A) :
  Forall (fun y => ge (key x) (key y)) l -> insert_desc key x l = x :: l.
Proof.
  destruct l as [| y l]; [done |]. intros [Hy _]%Forall_cons. simpl.
  unfold lt, ge in *. destruct (Z.ltb_spec (instant (key x)) (instant (key y)));
    [lia | done].
Qed.

Lemma sort_desc_sorted_id {A} (key : A -> datetime) (l : list A) :
  StronglySorted (desc key) l -> sort_desc key l = l.
Proof.
  induction 1 as [| x l Hl IH Hx]; [done |].
  change (sort_desc key (x :: l)) with (insert_desc key x (sort_desc key l)).
  rewrite IH. by apply insert_desc_head.
Qed.

(** X1.  [merge_dedupe] is idempotent: merging its own output again,
    with the same key length, gives that output back, in the same
    order. *)
Theorem merge_dedupe_idempotent (sources : list (list item)) (key_len : Z) :
  merge_dedupe [merge_dedupe sources key_len] key_len
  = merge_dedupe sources key_len.
Proof.
  unfold merge_dedupe at 1.
  rewrite dedupe_nodup_id; simpl; rewrite app_nil_r.
  - apply sort_desc_sorted_id, sort_desc_sorted.
  - apply merge_dedupe_nodup.
Qed.

(** X2.  When no two items of the sources share a dedupe key,
    [merge_dedupe] drops nothing: its output is the stable descending
    sort of the concatenated sources, and has as many items. *)
Theorem merge_dedupe_without_clash (sources : list (list item))
    (key_len : Z) :
  NoDup (dedupe_key key_len <$> concat sources) ->
  merge_dedupe sources key_len = sort_desc sort_key (concat sources)
  /\ length (merge_dedupe sources key_len) = length (concat sources).
Proof.
  intros H. unfold merge_dedupe. rewrite (dedupe_nodup_id _ _ H).
  split; [done |]. apply Permutation_length, sort_desc_perm.
Qed.

(** The theorem at two sources of one item each. *)
Lemma merge_dedupe_without_clash_witness :
  let a := {| title := u "金价上调"; source := []; link := [];
              pub_dt := None; category := "adjust"; extra := [] |} in
  let b := {| title := u "门店活动"; source := []; link := [];
              pub_dt := None; category := "promo"; extra := [] |} in
  NoDup (dedupe_key 20 <$> concat [[a]; [b]])
  /\ length (merge_dedupe [[a]; [b]] 20) = 2%nat.
Proof.
  intros a b.
  assert (H : NoDup (dedupe_key 20 <$> concat [[a]; [b]])).
  { apply NoDup_cons. split.
    - intros Hin%list_elem_of_In. vm_compute in Hin.
      destruct Hin as [Hin | []]. discriminate.
    - apply NoDup_singleton. }
  split; [exact H |].
  destruct (merge_dedupe_without_clash [[a]; [b]] 20 H) as [_ Hlen].
  exact Hlen.
Defined.

(** X3.  With [key_len = 0] every item has the empty key, so
    [merge_dedupe] keeps the first item of the first non-empty source
    and nothing else. *)
Theorem merge_dedupe_key_len_zero (sources : list (list item)) :
  merge_dedupe sources 0 = take 1 (concat sources).
Proof.
  unfold merge_dedupe, dedupe. rewrite dedupe_loop_concat.
  destruct (concat sources) as [| a l]; [done |].
  simpl. unfold dedupe_step at 2. simpl.
  rewrite decide_False by apply not_elem_of_empty.
  assert (H : fold_left (dedupe_step 0) l
                ({[dedupe_key 0 a]} ∪ ∅, [a])
              = ({[dedupe_key 0 a]} ∪ ∅, [a])).
  { induction l as [| b l IH]; [done |]. simpl.
    unfold dedupe_step at 2. simpl.
    rewrite decide_True; [exact IH |].
    apply elem_of_union_l, elem_of_singleton. done. }
  rewrite H. simpl. done.
Qed.

End MergeDedupeMore.

(** ** [classify_text] on the text as written *)

Section ClassifyMore.

Import Unicode Intel.

(** A character that [lower] leaves alone and that is the lowercase
    form of no other character. *)
Definition steady (x : Z) : bool :=
  caseless x
  && negb (x =? 0x3C2) && negb (x =? 0x3C3)
  && negb (x =? 0x69) && negb (x =? 0x307)
  && forallb (fun r => negb (in_lower_range (x - r.2) r)) lower_ranges.

Lemma steady_caseless (x : Z) : steady x = true -> caseless x = true.
Proof. unfold steady. rewrite !andb_true_iff. tauto. Qed.

Lemma lower_char_steady (x : Z) (before after : pystr) (c : Z) :
  steady x = true -> x ∈ lower_char before c after -> c = x.
Proof.
  unfold steady. rewrite !andb_true_iff, !negb_true_iff, !Z.eqb_neq.
  intros [[[[[_ H1] H2] H3] H4] Hr].
  unfold lower_char. destruct (c =? 0x3A3).
  - destruct (final_sigma before after);
      intros ->%list_elem_of_singleton; lia.
  - unfold to_lower_full. destruct (Z.eqb_spec c 0x130) as [-> | Hc].
    + intros [-> | ->%list_elem_of_singleton]%elem_of_cons; lia.
    + destruct (find (in_lower_range c) lower_ranges)
        as [[[[f l] st] d] |] eqn:Hf;
        intros ->%list_elem_of_singleton; [| done].
      apply find_some in Hf as [Hin Hrange].
      rewrite forallb_forall in Hr. specialize (Hr _ Hin).
      cbn [snd] in Hr. replace (c + d - d) with c in Hr by lia.
      rewrite Hrange in Hr. discriminate.
Qed.

Lemma lower_char_cons (before after : pystr) (c : Z) :
  exists d ds, lower_char before c after = d :: ds.
Proof.
  unfold lower_char, to_lower_full. destruct (c =? 0x3A3); [by eexists _, _ |].
  destruct (c =? 0x130); [by eexists _, _ |].
  destruct (find (in_lower_range c) lower_ranges) as [[[[f l] st] d] |];
    by eexists _, _.
Qed.

Lemma startswith_lower_aux (kw : pystr) :
  forallb steady kw = true ->
  forall before s, startswith (lower_aux before s) kw = startswith s kw.
Proof.
  induction kw as [| k kw IH]; [done |].
  intros [Hk Hkw]%andb_true_iff before [| c s]; [done |].
  cbn [lower_aux startswith].
  destruct (Z.eqb_spec k c) as [<- | Hne].
  - rewrite lower_char_caseless by by apply steady_caseless.
    simpl. by rewrite Z.eqb_refl, IH.
  - destruct (lower_char_cons before s c) as (d & ds & Heq).
    rewrite Heq. simpl.
    destruct (Z.eqb_spec k d) as [<- | _]; [| done].
    destruct Hne. symmetry.
    apply (lower_char_steady k before s c Hk). rewrite Heq. by left.
Qed.

Lemma contains_skip (k : Z) (kw skipped rest : pystr) :
  k ∉ skipped ->
  contains (k :: kw) (skipped ++ rest) = contains (k :: kw) rest.
Proof.
  induction skipped as [| d l IH]; [done |].
  intros [Hd Hl]%not_elem_of_cons.
  cbn [app contains]. rewrite IH by done.
  simpl. by destruct (Z.eqb_spec k d).
Qed.

Lemma contains_lower_aux (kw : pystr) :
  forallb steady kw = true ->
  forall before s, contains kw (lower_aux before s) = contains kw s.
Proof.
  intros Hkw. destruct kw as [| k kw].
  { intros before s. by destruct (lower_aux before s), s. }
  intros before s. revert before.
  induction s as [| c s IH]; intros before; [done |].
  cbn [contains]. rewrite <- (startswith_lower_aux _ Hkw before (c :: s)).
  rewrite <- (IH (c :: before)). cbn [lower_aux].
  destruct (Z.eqb_spec k c) as [<- | Hne].
  - rewrite lower_char_caseless; [done |].
    apply steady_caseless. by apply andb_true_iff in Hkw as [? _].
  - rewrite contains_skip.
    + destruct (lower_char_cons before s c) as (d & ds & Heq).
      rewrite Heq. simpl.
      destruct (Z.eqb_spec k d) as [<- | _]; [| done].
      destruct Hne. symmetry.
      apply andb_true_iff in Hkw as [Hk _].
      apply (lower_char_steady k before s c Hk). rewrite Heq. by left.
    + intros Hin. apply Hne. symmetry.
      apply andb_true_iff in Hkw as [Hk _].
      by apply (lower_char_steady k before s c Hk).
Qed.

(** A keyword of steady characters is found in the lowercase text
    exactly when it is found in the text. *)
Lemma contains_lower_steady (kw text : pystr) :
  forallb steady kw = true ->
  contains kw (lower text) = contains kw text.
Proof. intros H. by apply contains_lower_aux. Qed.

Lemma any_in_lower_steady (kws : list pystr) (text : pystr) :
  forallb (forallb steady) kws = true ->
  any_in kws (lower text) = any_in kws text.
Proof.
  unfold any_in. induction kws as [| kw kws IH]; [done |].
  intros [Hkw Hkws]%andb_true_iff. simpl.
  by rewrite contains_lower_steady, IH.
Qed.

(** The finance keywords that can match. *)
Definition live_finance : list pystr :=
  filter (fun kw => kw <> u "IPO") KEYWORDS_FINANCE.

Lemma keywords_steady :
  forallb (forallb steady)
          (KEYWORDS_ADJUST ++ KEYWORDS_PROMO ++ live_finance) = true.
Proof. by vm_compute. Qed.

Lemma any_in_finance_lower (text : pystr) :
  any_in KEYWORDS_FINANCE (lower text) = any_in live_finance text.
Proof.
  assert (Hipo : contains (u "IPO") (lower text) = false).
  { apply not_true_is_false. intros Hc. apply (lower_no_capital_I text).
    apply (contains_elem _ _ _ Hc). by left. }
  pose proof keywords_steady as H.
  rewrite !forallb_app, !andb_true_iff in H. destruct H as (_ & _ & H).
  rewrite <- (any_in_lower_steady live_finance text H).
  unfold any_in. 
  change KEYWORDS_FINANCE with
    (map u ["财报"; "业绩"; "营收"; "利润"]%string ++ [u "IPO"]
     ++ map u ["股东"; "股权"; "分红"; "回购"; "评级"]%string).
  change live_finance with
    (map u ["财报"; "业绩"; "营收"; "利润"]%string
     ++ map u ["股东"; "股权"; "分红"; "回购"; "评级"]%string).
  rewrite !existsb_app. cbn [existsb]. by rewrite Hipo.
Qed.

Lemma classify_text_raw (text : pystr) :
  classify_text text
  = if any_in KEYWORDS_ADJUST text then "adjust"%string
    else if any_in KEYWORDS_PROMO text then "promo"%string
    else if any_in live_finance text then "finance"%string
    else "general"%string.
Proof.
  pose proof keywords_steady as H.
  rewrite !forallb_app, !andb_true_iff in H. destruct H as (Ha & Hp & _).
  unfold classify_text. cbv zeta.
  by rewrite (any_in_lower_steady _ _ Ha), (any_in_lower_steady _ _ Hp),
    any_in_finance_lower.
Qed.

(** X4.  Lowercasing never changes the label: [classify_text] returns
    "adjust" when the text as written holds an adjust keyword, else
    "promo" when it holds a promo keyword, else "finance" when it
    holds a finance keyword other than "IPO", else "general". *)
Theorem classify_text_as_written (text : pystr) :
  classify_text text
  = if any_in KEYWORDS_ADJUST text then "adjust"%string
    else if any_in KEYWORDS_PROMO text then "promo"%string
    else if any_in live_finance text then "finance"%string
    else "general"%string.
Proof. apply classify_text_raw. Qed.

(** *** Labels of longer texts *)

(** The place of a label in the order of the tests. *)
Definition rank (label : string) : nat :=
  if decide (label = "adjust"%string) then 0
  else if decide (label = "promo"%string) then 1
  else if decide (label = "finance"%string) then 2
  else 3.

(** The label that is tested first. *)
Definition stronger (a b : string) : string :=
  if (rank a <=? rank b)%nat then a else b.

Lemma startswith_sep (sp : Z) (kw a b : pystr) :
  sp ∉ kw -> startswith (a ++ sp :: b) kw = startswith a kw.
Proof.
  revert a. induction kw as [| k kw IH]; intros a Hsp; [done |].
  apply not_elem_of_cons in Hsp as [Hk Hsp].
  destruct a as [| c a]; simpl.
  - by destruct (Z.eqb_spec k sp) as [-> | _].
  - by rewrite IH.
Qed.

Lemma contains_sep (sp k : Z) (kw a b : pystr) :
  sp ∉ k :: kw ->
  contains (k :: kw) (a ++ sp :: b)
  = contains (k :: kw) a || contains (k :: kw) b.
Proof.
  intros Hsp. induction a as [| c a IH].
  - cbn [app contains]. pose proof (startswith_sep sp (k :: kw) [] b Hsp) as H.
    simpl in H. simpl. by rewrite H.
  - pose proof (startswith_sep sp (k :: kw) (c :: a) b Hsp) as H.
    cbn [app] in H. cbn [app contains]. rewrite IH, H.
    by rewrite orb_assoc.
Qed.

Lemma any_in_sep (sp : Z) (kws : list pystr) (a b : pystr) :
  forallb (fun kw => negb (is_empty kw) && negb (mem sp kw)) kws = true ->
  any_in kws (a ++ sp :: b) = any_in kws a || any_in kws b.
Proof.
  unfold any_in. induction kws as [| kw kws IH]; [done |].
  intros [[Hne Hsp]%andb_true_iff Hkws]%andb_true_iff. simpl.
  rewrite (IH Hkws). destruct kw as [| k kw]; [done |].
  rewrite contains_sep.
  - destruct (contains (k :: kw) a), (contains (k :: kw) b),
      (existsb (fun kw => contains kw a) kws); done.
  - apply negb_true_iff in Hsp. unfold mem in Hsp.
    intros Hin. apply list_elem_of_In in Hin.
    assert (existsb (Z.eqb sp) (k :: kw) = true); [| congruence].
    apply existsb_exists. exists sp. split; [done | apply Z.eqb_refl].
Qed.

Lemma any_in_grows (kws : list pystr) (a b c : pystr) :
  any_in kws a = true -> any_in kws (b ++ a ++ c) = true.
Proof.
  unfold any_in. rewrite !existsb_exists.
  intros (kw & Hin & (x & y & ->)%contains_spec).
  exists kw. split; [done |]. apply contains_spec.
  exists (b ++ x), (y ++ c). by rewrite <- !app_assoc.
Qed.

(** X5.  The label of a social item is the stronger of the labels of
    its title and of its preview, in the order adjust, promo, finance,
    general: the space that joins them keeps a keyword from matching
    across the two. *)
Theorem make_social_item_category
    (platform title preview source link : pystr)
    (pub_dt : option Datetime.datetime)
    (stats : option (list (pystr * pystr))) :
  category (Page._make_social_item platform title preview source link
                                   pub_dt stats)
  = stronger (classify_text title) (classify_text preview).
Proof.
  cbn [Page._make_social_item category].
  rewrite !classify_text_raw.
  change (u " " ++ preview) with (0x20 :: preview).
  rewrite !(any_in_sep 0x20) by by vm_compute.
  destruct (any_in KEYWORDS_ADJUST title),
    (any_in KEYWORDS_ADJUST preview),
    (any_in KEYWORDS_PROMO title), (any_in KEYWORDS_PROMO preview),
    (any_in live_finance title), (any_in live_finance preview); done.
Qed.

(** X6.  Text added before or after never weakens the label: the
    label of a text that holds [a] is tested no later than the label
    of [a]; so a text that holds an "adjust" text is "adjust". *)
Theorem classify_text_grows (a b c : pystr) :
  (rank (classify_text (b ++ a ++ c)) <= rank (classify_text a))%nat
  /\ (classify_text a = "adjust"%string ->
      classify_text (b ++ a ++ c) = "adjust"%string).
Proof.
  rewrite !classify_text_raw.
  pose proof (any_in_grows KEYWORDS_ADJUST a b c) as Ha.
  pose proof (any_in_grows KEYWORDS_PROMO a b c) as Hp.
  pose proof (any_in_grows live_finance a b c) as Hf.
  destruct (any_in KEYWORDS_ADJUST a), (any_in KEYWORDS_PROMO a),
    (any_in live_finance a);
    try rewrite Ha by done; try rewrite Hp by done;
    try rewrite Hf by done;
    destruct (any_in KEYWORDS_ADJUST (b ++ a ++ c)),
      (any_in KEYWORDS_PROMO (b ++ a ++ c)),
      (any_in live_finance (b ++ a ++ c));
    split; try done; vm_compute; lia.
Qed.

End ClassifyMore.

(** ** [esc] *)

Section Escape.

Import Page.

(** What [esc] writes for one character. *)
Definition esc_char (c : Z) : pystr :=
  if c =? 0x26 then u "&amp;"
  else if c =? 0x3C then u "&lt;"
  else if c =? 0x3E then u "&gt;"
  else if c =? 0x22 then u "&quot;"
  else if c =? 0x27 then u "&#x27;"
  else [c].

(** The characters that [esc] rewrites, the ampersand aside. *)
Definition markup : pystr := [0x3C; 0x3E; 0x22; 0x27].

Lemma replace_char (s : pystr) (c : Z) (new : pystr) :
  replace s [c] new = flat_map (fun d => if c =? d then new else [d]) s.
Proof.
  unfold replace. induction s as [| d s IH]; [done |].
  cbn [replace_aux startswith flat_map]. rewrite andb_true_r.
  destruct (c =? d); simpl; by rewrite <- IH.
Qed.

Lemma esc_flat_map (s : pystr) : esc s = flat_map esc_char s.
Proof.
  unfold esc, html_escape.
  change (u "&") with [0x26]. change (u "<") with [0x3C].
  change (u ">") with [0x3E]. change (u "'") with [0x27].
  rewrite !replace_char.
  induction s as [| c s IH]; [done |].
  cbn [flat_map]. rewrite !flat_map_app, IH. f_equal.
  unfold esc_char.
  destruct (Z.eqb_spec c 0x26) as [-> | H1]; [done |].
  destruct (Z.eqb_spec c 0x3C) as [-> | H2]; [done |].
  destruct (Z.eqb_spec c 0x3E) as [-> | H3]; [done |].
  destruct (Z.eqb_spec c 0x22) as [-> | H4]; [done |].
  destruct (Z.eqb_spec c 0x27) as [-> | H5]; [done |].
  destruct (Z.eqb_spec 0x26 c) as [? | _]; [lia |]. cbn [flat_map app].
  destruct (Z.eqb_spec 0x3C c) as [? | _]; [lia |]. cbn [flat_map app].
  destruct (Z.eqb_spec 0x3E c) as [? | _]; [lia |]. cbn [flat_map app].
  destruct (Z.eqb_spec 0x22 c) as [? | _]; [lia |]. cbn [flat_map app].
  destruct (Z.eqb_spec 0x27 c) as [? | _]; [lia |]. done.
Qed.

Lemma esc_char_cases (c : Z) :
  (c = 0x26 /\ esc_char c = u "&amp;")
  \/ (c = 0x3C /\ esc_char c = u "&lt;")
  \/ (c = 0x3E /\ esc_char c = u "&gt;")
  \/ (c = 0x22 /\ esc_char c = u "&quot;")
  \/ (c = 0x27 /\ esc_char c = u "&#x27;")
  \/ (c <> 0x26 /\ (c ∉ markup) /\ esc_char c = [c]).
Proof.
  unfold esc_char, markup.
  destruct (Z.eqb_spec c 0x26); [tauto |].
  destruct (Z.eqb_spec c 0x3C); [tauto |].
  destruct (Z.eqb_spec c 0x3E); [tauto |].
  destruct (Z.eqb_spec c 0x22); [tauto |].
  destruct (Z.eqb_spec c 0x27); [tauto |].
  do 5 right. split; [done |]. split; [| done].
  rewrite !elem_of_cons, elem_of_nil. tauto.
Qed.

Lemma esc_char_markup_free (c x : Z) : x ∈ markup -> x ∉ esc_char c.
Proof.
  intros Hx Hin.
  destruct (esc_char_cases c)
    as [[_ E] | [[_ E] | [[_ E] | [[_ E] | [[_ E] | (_ & Hc & E)]]]]];
    rewrite E in Hin.
  1-5: unfold markup in Hx; apply list_elem_of_In in Hin, Hx;
    vm_compute in Hin, Hx; intuition lia.
  apply list_elem_of_singleton in Hin. by subst.
Qed.

Lemma esc_markup_free (s : pystr) (x : Z) : x ∈ markup -> x ∉ esc s.
Proof.
  intros Hx. rewrite esc_flat_map.
  induction s as [| c s IH]; [apply not_elem_of_nil |].
  cbn [flat_map]. rewrite elem_of_app. intros [H | H]; [| done].
  by apply (esc_char_markup_free c x).
Qed.

Lemma esc_app (s t : pystr) : esc (s ++ t) = esc s ++ esc t.
Proof. rewrite !esc_flat_map. apply flat_map_app. Qed.

(** Reading the output of [esc] back. *)
Fixpoint unesc_aux (skip : nat) (s : pystr) : pystr :=
  match s with
  | [] => []
  | c :: s' =>
      match skip with
      | S k => unesc_aux k s'
      | O =>
          if negb (c =? 0x26) then c :: unesc_aux 0 s'
          else if startswith s' (u "amp;") then 0x26 :: unesc_aux 4 s'
          else if startswith s' (u "lt;") then 0x3C :: unesc_aux 3 s'
          else if startswith s' (u "gt;") then 0x3E :: unesc_aux 3 s'
          else if startswith s' (u "quot;") then 0x22 :: unesc_aux 5 s'
          else if startswith s' (u "#x27;") then 0x27 :: unesc_aux 5 s'
          else c :: unesc_aux 0 s'
      end
  end.

Lemma unesc_esc_char (c : Z) (rest : pystr) :
  unesc_aux 0 (esc_char c ++ rest) = c :: unesc_aux 0 rest.
Proof.
  destruct (esc_char_cases c)
    as [[-> E] | [[-> E] | [[-> E] | [[-> E] | [[-> E] | (Hc & _ & E)]]]]];
    rewrite E; [done .. |].
  cbn [app unesc_aux].
  destruct (Z.eqb_spec c 0x26) as [? | _]; [lia | done].
Qed.

Lemma unesc_esc (s : pystr) : unesc_aux 0 (esc s) = s.
Proof.
  rewrite esc_flat_map. induction s as [| c s IH]; [done |].
  cbn [flat_map]. by rewrite unesc_esc_char, IH.
Qed.

Lemma esc_char_length (c : Z) : (1 <= length (esc_char c) <= 6)%nat.
Proof.
  destruct (esc_char_cases c)
    as [[_ E] | [[_ E] | [[_ E] | [[_ E] | [[_ E] | (_ & _ & E)]]]]];
    rewrite E; vm_compute; lia.
Qed.

Lemma esc_length (s : pystr) :
  (length s <= length (esc s) <= 6 * length s)%nat.
Proof.
  rewrite esc_flat_map. induction s as [| c s IH]; [simpl; lia |].
  cbn [flat_map]. rewrite length_app. simpl length.
  pose proof (esc_char_length c). lia.
Qed.

Lemma esc_plain (s : pystr) :
  esc s = s <-> (0x26 ∉ s) /\ forall x, x ∈ markup -> x ∉ s.
Proof.
  split.
  - intros Heq. split.
    + rewrite esc_flat_map in Heq.
      induction s as [| c s IH]; [apply not_elem_of_nil |].
      cbn [flat_map] in Heq.
      destruct (esc_char_cases c)
        as [[-> E] | [[-> E] | [[-> E] | [[-> E] | [[-> E] | (Hc & _ & E)]]]]];
        rewrite E in Heq; try discriminate.
      * injection Heq as Heq.
        pose proof (esc_length s) as Hl. rewrite esc_flat_map in Hl.
        apply (f_equal length) in Heq. simpl in Heq. lia.
      * injection Heq as Heq. apply not_elem_of_cons. split; [done |].
        by apply IH.
    + intros x Hx. rewrite <- Heq. by apply esc_markup_free.
  - intros [Hamp Hm]. rewrite esc_flat_map.
    induction s as [| c s IH]; [done |].
    apply not_elem_of_cons in Hamp as [Hc Hamp].
    cbn [flat_map]. rewrite IH.
    + destruct (esc_char_cases c)
        as [[E _] | [[E _] | [[E _] | [[E _] | [[E _] | (_ & _ & E)]]]]];
        [by subst | exfalso .. | by rewrite E].
      all: apply (Hm c); [| by left]; unfold markup;
        rewrite !elem_of_cons; tauto.
    + done.
    + intros x Hx Hin. apply (Hm x Hx). by right.
Qed.

(** X7.  The output of [esc] holds none of the characters [<], [>],
    the double quote and the apostrophe, whatever the input. *)
Theorem esc_output_markup_free (text : pystr) :
  Forall (fun c => c <> 0x3C /\ c <> 0x3E /\ c <> 0x22 /\ c <> 0x27)
         (esc text).
Proof.
  apply list.Forall_forall. intros c Hc.
  repeat split; intros ->; apply (esc_markup_free text _) in Hc; try done;
    unfold markup; rewrite !elem_of_cons; tauto.
Qed.

(** X8.  [esc] loses nothing: two texts with the same escaped form are
    the same text. *)
Theorem esc_injective (s t : pystr) : esc s = esc t -> s = t.
Proof.
  intros H. rewrite <- (unesc_esc s), <- (unesc_esc t). by rewrite H.
Qed.

(** The theorem at "a<b". *)
Lemma esc_injective_witness :
  esc (u "a<b") = esc (u "a<b") /\ u "a<b" = u "a<b".
Proof.
  split; [reflexivity |].
  apply (esc_injective (u "a<b") (u "a<b")). reflexivity.
Defined.

(** X9.  [esc] works character by character: the escaped form of a
    concatenation is the concatenation of the escaped forms, it is
    at least as long as the text and at most six times as long, and
    it is the text itself exactly when the text holds none of [&],
    [<], [>], the double quote and the apostrophe. *)
Theorem esc_piecewise (s t : pystr) :
  esc (s ++ t) = esc s ++ esc t
  /\ len s <= len (esc s) <= 6 * len s
  /\ (esc s = s <->
      Forall (fun c => c <> 0x26 /\ c <> 0x3C /\ c <> 0x3E /\ c <> 0x22
                       /\ c <> 0x27) s).
Proof.
  split; [apply esc_app |]. split.
  - pose proof (esc_length s). unfold len. lia.
  - rewrite esc_plain, list.Forall_forall. unfold markup. split.
    + intros [Hamp Hm] c Hc.
      split; [by intros -> |].
      repeat split; intros ->; apply (Hm _) in Hc; try done;
        rewrite !elem_of_cons; tauto.
    + intros H. split.
      * intros Hc. apply H in Hc. tauto.
      * intros x Hx Hc. apply H in Hc.
        rewrite !elem_of_cons, elem_of_nil in Hx. lia.
Qed.

End Escape.

(** ** Numerals and [strftime] *)

Section Numerals.

Import Datetime Page.

(** A decimal digit or the minus sign. *)
Definition numeral (c : Z) : Prop := 0x30 <= c <= 0x39 \/ c = 0x2D.

Lemma digits_of_numeral (fuel : nat) (n : Z) :
  Forall numeral (digits_of fuel n).
Proof.
  revert n. induction fuel as [| fuel IH]; intros n; simpl; [constructor |].
  apply Forall_app. split.
  - destruct (n <? 10); [constructor | apply IH].
  - constructor; [| constructor]. left.
    pose proof (Z.mod_pos_bound n 10). lia.
Qed.

Lemma str_int_numeral (n : Z) : Forall numeral (str_int n).
Proof.
  unfold str_int. destruct (n <? 0).
  - constructor; [by right | apply digits_of_numeral].
  - apply digits_of_numeral.
Qed.

Lemma pad2_numeral (n : Z) : Forall numeral (pad2 n).
Proof.
  unfold pad2. cbv zeta. destruct (len (str_int n) <? 2).
  - constructor; [left; lia | apply str_int_numeral].
  - apply str_int_numeral.
Qed.

Lemma directive_numeral (c : Z) (d : datetime) (s : pystr) :
  directive c d = Some s -> Forall numeral s.
Proof.
  unfold directive.
  repeat (match goal with |- context [if ?b then _ else _] => destruct b end;
          [intros [= <-]; first [apply str_int_numeral | apply pad2_numeral]
          |]).
  discriminate.
Qed.

(** [strftime] writes numerals and the characters of its format. *)
Lemma strftime_chars (d : datetime) (fmt : pystr) :
  Forall (fun c => numeral c \/ c ∈ fmt) (strftime d fmt).
Proof.
  remember (length fmt) as k eqn:Hk.
  revert fmt Hk. induction (lt_wf k) as [k _ IH]. intros fmt ->.
  destruct fmt as [| c [| e rest]]; [constructor | |].
  { constructor; [right; by left | constructor]. }
  assert (Hrest : Forall (fun x => numeral x \/ x ∈ c :: e :: rest)
                         (strftime d (e :: rest))).
  { eapply Forall_impl; [eapply (IH _ _ (e :: rest) eq_refl) |].
    intros x [H | H]; [by left | right; by right]. }
  assert (Hrest' : Forall (fun x => numeral x \/ x ∈ c :: e :: rest)
                          (strftime d rest)).
  { eapply Forall_impl; [eapply (IH _ _ rest eq_refl) |].
    intros x [H | H]; [by left | right; by do 2 right]. }
  change (strftime d (c :: e :: rest)) with
    (if c =? 0x25 then
       match directive e d with
       | Some s => s ++ strftime d rest
       | None => c :: strftime d (e :: rest)
       end
     else c :: strftime d (e :: rest)).
  destruct (c =? 0x25);
    [destruct (directive e d) as [s |] eqn:Hdir |].
  - apply Forall_app. split; [| done].
    eapply Forall_impl; [exact (directive_numeral _ _ _ Hdir) |].
    intros x Hx. by left.
  - constructor; [right; by left | done].
  - constructor; [right; by left | done].
  Unshelve. all: simpl; lia.
Qed.

Lemma strftime_Ymd_HM (d : datetime) :
  strftime d (u "%Y-%m-%d %H:%M")
  = str_int (year d) ++ u "-" ++ pad2 (month d) ++ u "-" ++ pad2 (day d)
    ++ u " " ++ pad2 (hour d) ++ u ":" ++ pad2 (minute d).
Proof.
  transitivity
    (str_int (year d) ++ u "-" ++ pad2 (month d) ++ u "-" ++ pad2 (day d)
     ++ u " " ++ pad2 (hour d) ++ u ":" ++ pad2 (minute d) ++ []);
    [reflexivity | by rewrite app_nil_r].
Qed.

Lemma strftime_md_HM (d : datetime) :
  strftime d (u "%m-%d %H:%M")
  = pad2 (month d) ++ u "-" ++ pad2 (day d)
    ++ u " " ++ pad2 (hour d) ++ u ":" ++ pad2 (minute d).
Proof.
  transitivity
    (pad2 (month d) ++ u "-" ++ pad2 (day d)
     ++ u " " ++ pad2 (hour d) ++ u ":" ++ pad2 (minute d) ++ []);
    [reflexivity | by rewrite app_nil_r].
Qed.

End Numerals.

(** ** [build_alert_bar_text] *)

Section AlertBar.

Import Datetime Intel Page.

(** None of [<], [>], the double quote and the apostrophe. *)
Definition no_markup (s : pystr) : Prop :=
  Forall (fun c => c <> 0x3C /\ c <> 0x3E /\ c <> 0x22 /\ c <> 0x27) s.

Lemma no_markup_app (s t : pystr) :
  no_markup (s ++ t) <-> no_markup s /\ no_markup t.
Proof. apply Forall_app. Qed.

Lemma no_markup_esc (s : pystr) : no_markup (esc s).
Proof.
  apply list.Forall_forall. intros c Hc.
  repeat split; intros ->; apply (esc_markup_free s _) in Hc; try done;
    unfold markup; rewrite !elem_of_cons; tauto.
Qed.

(** A closed string passes the test by evaluation. *)
Definition no_markupb (s : pystr) : bool :=
  forallb (fun c => negb (mem c markup)) s.

Lemma no_markupb_spec (s : pystr) : no_markupb s = true -> no_markup s.
Proof.
  unfold no_markupb, no_markup. rewrite forallb_forall, list.Forall_forall.
  intros H c Hc%list_elem_of_In. specialize (H c Hc).
  apply negb_true_iff in H. unfold mem, markup in H. simpl in H.
  rewrite !orb_false_iff, !Z.eqb_neq in H. tauto.
Qed.

Lemma no_markup_strftime (d : datetime) (fmt : pystr) :
  no_markupb fmt = true -> no_markup (strftime d fmt).
Proof.
  intros Hfmt%no_markupb_spec.
  eapply Forall_impl; [apply strftime_chars |].
  intros c [[H | ->] | H]; [lia | lia |].
  unfold no_markup in Hfmt. rewrite list.Forall_forall in Hfmt.
  by apply Hfmt.
Qed.

Lemma of_category_first (k : string) (pre post : list item) (n : item) :
  category n = k -> (forall m, m ∈ pre -> category m <> k) ->
  exists rest, of_category k (pre ++ n :: post) = n :: rest.
Proof.
  intros Hn Hpre. unfold of_category. rewrite filter_app.
  assert (Hnil : filter (fun m => category m = k) pre = []).
  { induction pre as [| m pre IH]; [done |].
    rewrite filter_cons.
    destruct (decide (category m = k)) as [Hm | _].
    - destruct (Hpre m); [by left | done].
    - apply IH. intros m' Hm'. apply Hpre. by right. }
  rewrite Hnil, filter_cons. simpl.
  destruct (decide (category n = k)); [by eexists | done].
Qed.

Lemma of_category_none (k : string) (news : list item) :
  (forall m, m ∈ news -> category m <> k) -> of_category k news = [].
Proof.
  intros H. unfold of_category.
  induction news as [| m news IH]; [done |].
  rewrite filter_cons. destruct (decide (category m = k)) as [Hm | _].
  - destruct (H m); [by left | done].
  - apply IH. intros m' Hm'. apply H. by right.
Qed.

(** X10.  The alert bar text holds none of [<], [>], the double quote
    and the apostrophe, whatever the titles of the items and whatever
    the clock. *)
Theorem build_alert_bar_text_markup_free (now : datetime)
    (news : list item) :
  Forall (fun c => c <> 0x3C /\ c <> 0x3E /\ c <> 0x22 /\ c <> 0x27)
         (build_alert_bar_text now news).
Proof.
  change (no_markup (build_alert_bar_text now news)).
  unfold build_alert_bar_text. cbv zeta.
  destruct (of_category "adjust" news) as [| a ?];
    [destruct (of_category "promo" news) as [| p ?];
     [destruct news as [| n ?] | ] |];
    rewrite !no_markup_app; repeat split;
    first [apply no_markup_esc
          | by apply no_markup_strftime
          | by apply no_markupb_spec].
Qed.

(** X11.  The alert bar shows one item: the first "adjust" item if
    there is one, whatever stands before it; else the first "promo"
    item; else the first item of the list; its title is cut to 30
    characters (28 for the last case) before escaping.  The empty
    list gives the clock line. *)
Theorem build_alert_bar_text_choice (now : datetime) :
  (forall pre n post,
      category n = "adjust"%string ->
      (forall m, m ∈ pre -> category m <> "adjust"%string) ->
      build_alert_bar_text now (pre ++ n :: post)
      = u "⚡ " ++ esc (take 30 (title n))
        ++ u " · 点击「价格情报」查看详情")
  /\ (forall pre n post,
        category n = "promo"%string ->
        (forall m, m ∈ pre -> category m <> "promo"%string) ->
        (forall m, m ∈ pre ++ post -> category m <> "adjust"%string) ->
        build_alert_bar_text now (pre ++ n :: post)
        = u "🎁 " ++ esc (take 30 (title n))
          ++ u " · 点击「门店促销」查看详情")
  /\ (forall n rest,
        (forall m, m ∈ n :: rest ->
                   category m <> "adjust"%string
                   /\ category m <> "promo"%string) ->
        build_alert_bar_text now (n :: rest)
        = u "📰 最新：" ++ esc (take 28 (title n)))
  /\ build_alert_bar_text now []
     = u "金价数据已更新 · " ++ str_int (year now) ++ u "-"
       ++ pad2 (month now) ++ u "-" ++ pad2 (day now) ++ u " "
       ++ pad2 (hour now) ++ u ":" ++ pad2 (minute now) ++ u " CST".
Proof.
  split; [| split; [| split]].
  - intros pre n post Hn Hpre. unfold build_alert_bar_text. cbv zeta.
    destruct (of_category_first _ pre post n Hn Hpre) as (rest & ->).
    by rewrite slice_to_nonneg by lia.
  - intros pre n post Hn Hpre Hadj. unfold build_alert_bar_text. cbv zeta.
    destruct (of_category_first _ pre post n Hn Hpre) as (rest & ->).
    rewrite of_category_none.
    + by rewrite slice_to_nonneg by lia.
    + intros m [Hm | [-> | Hm]%elem_of_cons]%elem_of_app.
      * apply Hadj, elem_of_app. by left.
      * by rewrite Hn.
      * apply Hadj, elem_of_app. by right.
  - intros n rest H. unfold build_alert_bar_text. cbv zeta.
    rewrite !of_category_none by (intros m Hm; by apply H).
    by rewrite slice_to_nonneg by lia.
  - change (build_alert_bar_text now [])
      with (u "金价数据已更新 · " ++ strftime now (u "%Y-%m-%d %H:%M")
            ++ u " CST").
    by rewrite strftime_Ymd_HM, <- !app_assoc.
Qed.

End AlertBar.

(** ** The markup of the fragments *)

Section Skeleton.

Import Datetime Intel Page News.

(** The characters [<], [>], double quote and apostrophe of a string,
    in their order: what delimits its tags and attribute values. *)
Definition skeleton (s : pystr) : pystr :=
  List.filter (fun c => mem c markup) s.

Lemma skeleton_app (s t : pystr) :
  skeleton (s ++ t) = skeleton s ++ skeleton t.
Proof. apply List.filter_app. Qed.

Lemma skeleton_no_markup (s : pystr) : no_markup s -> skeleton s = [].
Proof.
  unfold no_markup, skeleton. induction 1 as [| c s Hc _ IH]; [done |].
  cbn [List.filter]. rewrite IH.
  replace (mem c markup) with false; [done |].
  unfold mem, markup. cbn [existsb].
  destruct Hc as (H1 & H2 & H3 & H4).
  apply Z.eqb_neq in H1, H2, H3, H4. by rewrite H1, H2, H3, H4.
Qed.

Lemma skeleton_esc (s : pystr) : skeleton (esc s) = [].
Proof. apply skeleton_no_markup, no_markup_esc. Qed.

Lemma skeleton_strftime (d : datetime) (fmt : pystr) :
  no_markupb fmt = true -> skeleton (strftime d fmt) = [].
Proof. intros H. by apply skeleton_no_markup, no_markup_strftime. Qed.

Lemma skeleton_numeral (s : pystr) : Forall numeral s -> skeleton s = [].
Proof.
  intros H. apply skeleton_no_markup. eapply Forall_impl; [exact H |].
  intros c [Hc | ->]; lia.
Qed.

Lemma skeleton_dt_str (n : item) : skeleton (dt_str n) = [].
Proof.
  unfold dt_str. destruct (pub_dt n); [| done].
  by apply skeleton_strftime.
Qed.

Lemma esc_nil_iff (s : pystr) : esc s = [] <-> s = [].
Proof.
  split; [| intros ->; by vm_compute].
  intros H. pose proof (esc_length s) as Hl. rewrite H in Hl.
  destruct s; [done | simpl in Hl; lia].
Qed.

Lemma is_empty_esc (s : pystr) : is_empty (esc s) = is_empty s.
Proof.
  destruct s as [| c s]; [by vm_compute |].
  destruct (esc (c :: s)) eqn:E; [| done].
  apply (proj1 (esc_nil_iff _)) in E. discriminate.
Qed.

(** Two strings with the same markup, empty together. *)
Definition alike (a b : pystr) : Prop :=
  (a = [] <-> b = []) /\ skeleton a = skeleton b.

Lemma skeleton_join (sep : pystr) (l l' : list pystr) :
  Forall2 (fun a b => skeleton a = skeleton b) l l' ->
  skeleton (join sep l) = skeleton (join sep l').
Proof.
  induction 1 as [| a b l l' Hab Hl IH]; [done |].
  cbn [join]. destruct Hl as [| a2 b2 l2 l2' _ _]; [done |].
  rewrite !skeleton_app. by rewrite Hab, IH.
Qed.

Lemma skeleton_flat_map {A} (f g : A -> pystr) (l l' : list A)
    (R : A -> A -> Prop) :
  (forall a b, R a b -> skeleton (f a) = skeleton (g b)) ->
  Forall2 R l l' ->
  skeleton (flat_map f l) = skeleton (flat_map g l').
Proof.
  intros Hfg. induction 1 as [| a b l l' Hab _ IH]; [done |].
  cbn [flat_map]. rewrite !skeleton_app. by rewrite (Hfg a b Hab), IH.
Qed.

Lemma join_nil_iff (sep : pystr) (l : list pystr) :
  Forall (fun c => c <> []) l -> join sep l = [] <-> l = [].
Proof.
  intros H. split; [| by intros ->].
  destruct H as [| c l Hc Hl]; [done |].
  cbn [join]. destruct l; [done |]. by destruct c.
Qed.

Lemma filter_nonempty_alike (l l' : list pystr) :
  Forall2 alike l l' ->
  Forall2 (fun a b => skeleton a = skeleton b)
          (filter (fun c => c <> []) l) (filter (fun c => c <> []) l').
Proof.
  induction 1 as [| a b l l' [Hne Hs] _ IH]; [constructor |].
  rewrite !filter_cons. repeat case_decide.
  - by constructor.
  - destruct a, b; try done. by destruct Hne as [_ Hne]; specialize (Hne eq_refl).
  - destruct a, b; try done. by destruct Hne as [Hne _]; specialize (Hne eq_refl).
  - done.
Qed.

Lemma join_filter_alike (sep : pystr) (l l' : list pystr) :
  Forall2 alike l l' ->
  alike (join sep (filter (fun c => c <> []) l))
        (join sep (filter (fun c => c <> []) l')).
Proof.
  intros H. split.
  - rewrite !join_nil_iff
      by (apply list.Forall_forall; intros c Hc;
          by apply list_elem_of_filter in Hc as [? _]).
    pose proof (filter_nonempty_alike _ _ H) as HF.
    split; intros E; rewrite E in HF; by inversion HF.
  - by apply skeleton_join, filter_nonempty_alike.
Qed.

(** Items with the same label whose links are both empty or both not. *)
Definition same_shape (a b : item) : Prop :=
  category a = category b /\ (link a = [] <-> link b = []).

Lemma same_shape_link (a b : item) :
  same_shape a b -> is_empty (esc (link a)) = is_empty (esc (link b)).
Proof.
  intros [_ H]. rewrite !is_empty_esc.
  destruct (link a), (link b); try done.
  - by destruct H as [H _]; specialize (H eq_refl).
  - by destruct H as [_ H]; specialize (H eq_refl).
Qed.

Lemma same_shape_filter (P : item -> Prop) `{!forall n, Decision (P n)}
    (l l' : list item) :
  (forall a b, same_shape a b -> P a <-> P b) ->
  Forall2 same_shape l l' ->
  Forall2 same_shape (filter P l) (filter P l').
Proof.
  intros HP. induction 1 as [| a b l l' Hab _ IH]; [constructor |].
  rewrite !filter_cons. pose proof (HP a b Hab) as Hiff.
  repeat case_decide; try tauto.
  by constructor.
Qed.

Lemma same_shape_of_category (k : string) (l l' : list item) :
  Forall2 same_shape l l' ->
  Forall2 same_shape (of_category k l) (of_category k l').
Proof.
  apply same_shape_filter. intros a b [Hc _]. by rewrite Hc.
Qed.

Lemma Forall2_map_skeleton (f g : item -> pystr) (l l' : list item) :
  (forall a b, same_shape a b -> skeleton (f a) = skeleton (g b)) ->
  Forall2 same_shape l l' ->
  Forall2 (fun a b => skeleton a = skeleton b) (map f l) (map g l').
Proof.
  intros Hfg. induction 1; constructor; auto.
Qed.

Lemma app_cons_not_nil (a b : pystr) : a <> [] -> a ++ b <> [].
Proof. by destruct a. Qed.

Ltac skel :=
  rewrite ?skeleton_app, ?skeleton_esc, ?skeleton_dt_str.

Lemma price_row_skeleton (a b : item) :
  same_shape a b -> skeleton (price_row a) = skeleton (price_row b).
Proof.
  intros H. unfold price_row. cbv zeta. rewrite (same_shape_link a b H).
  destruct (is_empty (esc (link b))); by skel.
Qed.

Lemma card_row_skeleton (color_hex : pystr) (a b : item) :
  same_shape a b ->
  skeleton (card_row color_hex a) = skeleton (card_row color_hex b).
Proof.
  intros H. unfold card_row. cbv zeta. rewrite (same_shape_link a b H).
  destruct (is_empty (esc (link b))); by skel.
Qed.

Lemma feed_row_skeleton (a b : item) :
  same_shape a b -> skeleton (feed_row a) = skeleton (feed_row b).
Proof.
  intros H. unfold feed_row. cbv zeta. rewrite (same_shape_link a b H).
  destruct H as [-> _].
  destruct (is_empty (esc (link b))); by skel.
Qed.

Lemma news_card_alike (items items' : list item)
    (color_hex bg_alpha title_emoji label : pystr) :
  Forall2 same_shape items items' ->
  alike (_news_card items color_hex bg_alpha title_emoji label)
        (_news_card items' color_hex bg_alpha title_emoji label).
Proof.
  intros H. destruct H as [| a b l l' Hab Hl]; [done |].
  assert (Hrows :
    skeleton (join (u "<br><br>") (map (card_row color_hex)
                                       (take 2 (a :: l))))
    = skeleton (join (u "<br><br>") (map (card_row color_hex)
                                         (take 2 (b :: l'))))).
  { apply skeleton_join, Forall2_map_skeleton;
      [apply card_row_skeleton |].
    apply Forall2_take. by constructor. }
  unfold _news_card. cbv zeta. split.
  - split; intros E; exfalso; revert E;
      apply app_cons_not_nil; by vm_compute.
  - skel. by rewrite Hrows.
Qed.

Lemma promo_cards_alike (now now' : datetime)
    (adj adj' promo promo' others others' : list item) :
  Forall2 same_shape adj adj' -> Forall2 same_shape promo promo' ->
  Forall2 same_shape others others' ->
  Forall2 alike (promo_cards now adj promo others)
                (promo_cards now' adj' promo' others').
Proof.
  intros Hadj Hpromo Hothers. unfold promo_cards. cbv zeta.
  destruct Hothers as [| a b l l' Hab Hl].
  - do 2 (constructor; [by apply news_card_alike |]). constructor.
  - cbn [app].
    do 2 (constructor; [by apply news_card_alike |]).
    constructor; [| constructor]. split.
    + split; intros E; exfalso; revert E;
        apply app_cons_not_nil; by vm_compute.
    + assert (Hrows : skeleton (flat_map feed_row (a :: l))
                      = skeleton (flat_map feed_row (b :: l'))).
      { apply (skeleton_flat_map _ _ _ _ same_shape);
          [apply feed_row_skeleton | by constructor]. }
      skel. rewrite !skeleton_strftime by done. by rewrite Hrows.
Qed.

(** X12.  The items cannot change the markup of the promo block: two
    lists whose items agree, place by place, on the label and on
    whether there is a link give blocks with the same characters [<],
    [>], double quote and apostrophe in the same order, whatever the
    titles, sources, links, timestamps and clocks. *)
Theorem build_promo_alert_block_markup (now now' : datetime)
    (news news' : list item) :
  Forall2 (fun a b => category a = category b
                      /\ (link a = [] <-> link b = [])) news news' ->
  skeleton (build_promo_alert_block now news)
  = skeleton (build_promo_alert_block now' news').
Proof.
  intros H. change (Forall2 same_shape news news') in H.
  unfold build_promo_alert_block. cbv zeta.
  pose proof (same_shape_of_category "adjust" _ _ H) as Hadj.
  pose proof (same_shape_of_category "promo" _ _ H) as Hpromo.
  assert (Hothers : Forall2 same_shape
    (take 8 (filter (fun n => category n = "finance"%string
                              \/ category n = "general"%string) news))
    (take 8 (filter (fun n => category n = "finance"%string
                              \/ category n = "general"%string) news'))).
  { apply Forall2_take, same_shape_filter; [| done].
    intros a b [Hc _]. by rewrite Hc. }
  pose proof (promo_cards_alike now now' _ _ _ _ _ _ Hadj Hpromo Hothers)
    as Hcards.
  destruct (join_filter_alike [10] _ _ Hcards) as [Hnil Hskel].
  revert Hnil Hskel.
  generalize (join [10] (filter (fun c => c <> [])
    (promo_cards now (of_category "adjust" news)
       (of_category "promo" news)
       (take 8 (filter (fun n => category n = "finance"%string
                                 \/ category n = "general"%string)
                       news))))).
  generalize (join [10] (filter (fun c => c <> [])
    (promo_cards now' (of_category "adjust" news')
       (of_category "promo" news')
       (take 8 (filter (fun n => category n = "finance"%string
                                 \/ category n = "general"%string)
                       news'))))).
  intros r' r Hnil Hskel.
  destruct r, r'; simpl is_empty; cbv iota; try done.
  - by destruct Hnil as [Hnil _]; specialize (Hnil eq_refl).
  - by destruct Hnil as [_ Hnil]; specialize (Hnil eq_refl).
Qed.

(** The theorem at two one-item lists with different texts. *)
Lemma build_promo_alert_block_markup_witness :
  let a := _make_news_item (u "<b>调价</b>") (u "x") (u "http://a") None
                           (u "sina") in
  let b := _make_news_item (u "涨价") (u "y&z") (u "'") None (u "sina") in
  skeleton (build_promo_alert_block min_CST [a])
  = skeleton (build_promo_alert_block min_CST [b]).
Proof.
  intros a b. apply build_promo_alert_block_markup.
  constructor; [| constructor]. split; [by vm_compute |].
  split; discriminate.
Defined.

End Skeleton.

(** ** What the promo block and the price card show *)

Section Cards.

Import Datetime Intel PyNum Page News.

Lemma filter_all {A} (P : A -> Prop) `{!forall a, Decision (P a)}
    (l : list A) :
  Forall P l -> filter P l = l.
Proof.
  induction 1 as [| a l Ha _ IH]; [done |].
  rewrite filter_cons, IH. by case_decide.
Qed.

Lemma filter_none {A} (P : A -> Prop) `{!forall a, Decision (P a)}
    (l : list A) :
  Forall (fun a => ~ P a) l -> filter P l = [].
Proof.
  induction 1 as [| a l Ha _ IH]; [done |].
  rewrite filter_cons, IH. by case_decide.
Qed.

Lemma Forall_filter_take {A} (P : A -> Prop) `{!forall a, Decision (P a)}
    (k : nat) (l : list A) :
  Forall P (take k (filter P l)).
Proof.
  apply Forall_take, list.Forall_forall.
  intros a Ha. by apply list_elem_of_filter in Ha as [? _].
Qed.

Local Abbreviation fin_gen :=
  (fun n : item => category n = "finance"%string
                   \/ category n = "general"%string).

(** The items that [build_promo_alert_block] shows. *)
Definition shown (news : list item) : list item :=
  take 2 (of_category "adjust" news)
  ++ take 2 (of_category "promo" news)
  ++ take 8 (filter fin_gen news).

Lemma news_card_take (items : list item)
    (color_hex bg_alpha title_emoji label : pystr) :
  _news_card (take 2 items) color_hex bg_alpha title_emoji label
  = _news_card items color_hex bg_alpha title_emoji label.
Proof.
  destruct items as [| a l]; [reflexivity |].
  change (take 2 (a :: l)) with (a :: take 1 l).
  unfold _news_card. cbv zeta.
  change (take 2 (a :: take 1 l)) with (a :: take 1 (take 1 l)).
  change (take 2 (a :: l)) with (a :: take 1 l).
  by rewrite take_take.
Qed.

Lemma shown_parts (news : list item) :
  of_category "adjust" (shown news) = take 2 (of_category "adjust" news)
  /\ of_category "promo" (shown news) = take 2 (of_category "promo" news)
  /\ take 8 (filter fin_gen (shown news)) = take 8 (filter fin_gen news).
Proof.
  unfold shown, of_category.
  set (A := fun n : item => category n = "adjust"%string).
  set (P := fun n : item => category n = "promo"%string).
  pose proof (Forall_filter_take A 2 news) as Ha.
  pose proof (Forall_filter_take P 2 news) as Hp.
  pose proof (Forall_filter_take fin_gen 8 news) as Ho.
  assert (Hap : filter A (take 2 (filter P news)) = []).
  { apply filter_none. eapply Forall_impl; [exact Hp |].
    unfold A, P. intros n H E. congruence. }
  assert (Hao : filter A (take 8 (filter fin_gen news)) = []).
  { apply filter_none. eapply Forall_impl; [exact Ho |].
    unfold A. intros n [H | H] E; congruence. }
  assert (Hpa : filter P (take 2 (filter A news)) = []).
  { apply filter_none. eapply Forall_impl; [exact Ha |].
    unfold A, P. intros n H E. congruence. }
  assert (Hpo : filter P (take 8 (filter fin_gen news)) = []).
  { apply filter_none. eapply Forall_impl; [exact Ho |].
    unfold P. intros n [H | H] E; congruence. }
  assert (Hoa : filter fin_gen (take 2 (filter A news)) = []).
  { apply filter_none. eapply Forall_impl; [exact Ha |].
    unfold A. intros n H [E | E]; congruence. }
  assert (Hop : filter fin_gen (take 2 (filter P news)) = []).
  { apply filter_none. eapply Forall_impl; [exact Hp |].
    unfold P. intros n H [E | E]; congruence. }
  rewrite !filter_app.
  rewrite Hap, Hao, Hpa, Hpo, Hoa, Hop.
  rewrite (filter_all A _ Ha), (filter_all P _ Hp),
    (filter_all fin_gen _ Ho).
  rewrite !app_nil_r. cbn [app]. by rewrite take_take.
Qed.

(** X13.  The promo block shows at most the first two "adjust" items,
    the first two "promo" items and the first eight "finance" or
    "general" items: the block of a list is the block of those items
    alone. *)
Theorem build_promo_alert_block_shown (now : datetime)
    (news : list item) :
  build_promo_alert_block now news
  = build_promo_alert_block now
      (take 2 (of_category "adjust" news)
       ++ take 2 (of_category "promo" news)
       ++ take 8 (filter (fun n => category n = "finance"%string
                                   \/ category n = "general"%string)
                         news))
  /\ (length (take 2 (of_category "adjust" news)
              ++ take 2 (of_category "promo" news)
              ++ take 8 (filter (fun n => category n = "finance"%string
                                          \/ category n = "general"%string)
                                news)) <= 12)%nat.
Proof.
  split.
  - change (build_promo_alert_block now news
            = build_promo_alert_block now (shown news)).
    unfold build_promo_alert_block. cbv zeta.
    destruct (shown_parts news) as (-> & -> & ->).
    unfold promo_cards. cbv zeta. by rewrite !news_card_take.
  - rewrite !length_app, !length_take. lia.
Qed.

(** *** The notice *)

(** How a card begins. *)
Definition opens (c : pystr) : Prop :=
  startswith c (h "<div style=`margin:0 16px 10px;b") = true
  \/ startswith c (h "<div c") = true.

Lemma startswith_app_prefix (p q x : pystr) :
  startswith (p ++ q ++ x) p = true.
Proof. apply startswith_spec. by exists (q ++ x). Qed.

Lemma startswith_app_l (c p x : pystr) :
  startswith c p = true -> startswith (c ++ x) p = true.
Proof.
  intros (b & ->)%startswith_spec. apply startswith_spec.
  exists (b ++ x). by rewrite app_assoc.
Qed.

Lemma opens_app (c x : pystr) : opens c -> opens (c ++ x).
Proof. intros [H | H]; [left | right]; by apply startswith_app_l. Qed.

Lemma opens_not_notice (c : pystr) : opens c -> c <> no_news_card /\ c <> [].
Proof.
  intros H. split; intros ->; destruct H as [H | H];
    by vm_compute in H.
Qed.

Lemma news_card_opens (items : list item)
    (color_hex bg_alpha title_emoji label : pystr) :
  items <> [] ->
  opens (_news_card items color_hex bg_alpha title_emoji label).
Proof.
  destruct items as [| a l]; [done |]. intros _. left.
  unfold _news_card. cbv zeta.
  change (h "<div style=`margin:0 16px 10px;background:rgba")
    with (h "<div style=`margin:0 16px 10px;b" ++ u "ackground:rgba").
  rewrite <- app_assoc. apply startswith_app_prefix.
Qed.

Lemma news_card_nil_or_opens (items : list item)
    (color_hex bg_alpha title_emoji label : pystr) :
  let c := _news_card items color_hex bg_alpha title_emoji label in
  c = [] \/ opens c.
Proof.
  destruct items as [| a l]; [by left | right].
  by apply news_card_opens.
Qed.

Lemma promo_cards_nil_or_opens (now : datetime)
    (adj promo others : list item) :
  Forall (fun c => c = [] \/ opens c) (promo_cards now adj promo others).
Proof.
  unfold promo_cards. cbv zeta.
  destruct others as [| a l]; cbn [app];
    do 2 (constructor; [apply news_card_nil_or_opens |]);
    [constructor |].
  constructor; [| constructor]. right. right.
  change (h "<div class=`news-feed`>")
    with (h "<div c" ++ h "lass=`news-feed`>").
  rewrite <- app_assoc. apply startswith_app_prefix.
Qed.

Lemma join_opens (sep : pystr) (l : list pystr) :
  Forall opens l -> l <> [] -> opens (join sep l).
Proof.
  intros H Hne. destruct H as [| c l Hc Hl]; [done |].
  cbn [join]. destruct l; [done |]. by apply opens_app.
Qed.

Lemma filter_nonempty_opens (l : list pystr) :
  Forall (fun c => c = [] \/ opens c) l ->
  Forall opens (filter (fun c => c <> []) l).
Proof.
  intros H. apply list.Forall_forall.
  intros c [Hc Hin]%list_elem_of_filter.
  rewrite list.Forall_forall in H. by destruct (H c Hin).
Qed.

Lemma filter_nonempty_elem (l : list pystr) (c : pystr) :
  c ∈ l -> c <> [] -> filter (fun c => c <> []) l <> [].
Proof.
  intros Hin Hc E.
  assert (H : c ∈ filter (fun c => c <> []) l)
    by by apply list_elem_of_filter.
  rewrite E in H. by apply elem_of_nil in H.
Qed.

Lemma promo_cards_nonempty (now : datetime)
    (adj promo others : list item) :
  adj <> [] \/ promo <> [] \/ others <> [] ->
  filter (fun c => c <> []) (promo_cards now adj promo others) <> [].
Proof.
  intros [H | [H | H]].
  - apply (filter_nonempty_elem _
             (_news_card adj (u "#E74C3C") (u "(192,57,43,0.07)") (u "⚡")
                         (u "调价动态"))).
    + unfold promo_cards. cbv zeta. destruct others; by left.
    + by apply opens_not_notice, news_card_opens.
  - apply (filter_nonempty_elem _
             (_news_card promo (u "#2ECC71") (u "(46,204,113,0.07)")
                         (u "🎁") (u "促销动态"))).
    + unfold promo_cards. cbv zeta. destruct others; right; by left.
    + by apply opens_not_notice, news_card_opens.
  - destruct others as [| o l]; [done |].
    unfold promo_cards. cbv zeta. cbn [app].
    eapply filter_nonempty_elem.
    + do 2 right. by left.
    + apply app_cons_not_nil. by vm_compute.
Qed.

Lemma block_notice_iff (now : datetime) (news : list item) :
  build_promo_alert_block now news = no_news_card
  <-> of_category "adjust" news = [] /\ of_category "promo" news = []
      /\ filter fin_gen news = [].
Proof.
  unfold build_promo_alert_block. cbv zeta.
  pose proof (promo_cards_nil_or_opens now (of_category "adjust" news)
                (of_category "promo" news)
                (take 8 (filter fin_gen news))) as Hcards.
  apply filter_nonempty_opens in Hcards.
  pose proof (promo_cards_nonempty now (of_category "adjust" news)
                (of_category "promo" news)
                (take 8 (filter fin_gen news))) as Hne.
  split.
  - intros Heq.
    destruct (decide (of_category "adjust" news = [])) as [Ea | Ea];
      [destruct (decide (of_category "promo" news = [])) as [Ep | Ep];
       [destruct (decide (filter fin_gen news = [])) as [Eo | Eo];
        [done |] |] |];
      exfalso.
    all: assert (Hne' : filter (fun c => c <> [])
           (promo_cards now (of_category "adjust" news)
              (of_category "promo" news)
              (take 8 (filter fin_gen news))) <> []);
      [apply Hne; first [by left | by (right; left) | right; right];
       by destruct (filter fin_gen news) |].
    all: pose proof (join_opens [10] _ Hcards Hne') as Ho;
      apply opens_not_notice in Ho as [Ho1 Ho2];
      revert Heq Ho1 Ho2;
      generalize (join [10] (filter (fun c => c <> [])
        (promo_cards now (of_category "adjust" news)
           (of_category "promo" news)
           (take 8 (filter fin_gen news)))));
      intros r Heq Ho1 Ho2; by destruct r.
  - intros (-> & -> & ->). reflexivity.
Qed.

(** X14.  The promo block is the notice "暂未获取到最新资讯，请稍后刷新"
    exactly when no item has one of the labels "adjust", "promo",
    "finance", "general"; for items labelled by [classify_text] that
    is exactly when the list is empty. *)
Theorem build_promo_alert_block_notice (now : datetime)
    (news : list item) :
  (build_promo_alert_block now news = no_news_card
   <-> forall n, n ∈ news ->
         ~ In (category n) ["adjust"; "promo"; "finance"; "general"]%string)
  /\ ((forall n, n ∈ news -> exists text, category n = classify_text text) ->
      build_promo_alert_block now news = no_news_card <-> news = []).
Proof.
  assert (Hiff : build_promo_alert_block now news = no_news_card
    <-> forall n, n ∈ news ->
          ~ In (category n) ["adjust"; "promo"; "finance"; "general"]%string).
  { rewrite block_notice_iff. unfold of_category. split.
    - intros (Ha & Hp & Ho) n Hn Hin.
      assert (Hx : forall (P : item -> Prop) `{!forall a, Decision (P a)},
                 filter P news = [] -> ~ P n).
      { intros P ? E HP.
        assert (Hin' : n ∈ filter P news) by by apply list_elem_of_filter.
        rewrite E in Hin'. by apply elem_of_nil in Hin'. }
      simpl in Hin.
      destruct Hin as [E | [E | [E | [E | []]]]]; symmetry in E.
      + by apply (Hx _ _ Ha).
      + by apply (Hx _ _ Hp).
      + apply (Hx _ _ Ho). by left.
      + apply (Hx _ _ Ho). by right.
    - intros H. repeat split; apply filter_none, list.Forall_forall;
        intros n Hn HP; apply (H n Hn); simpl;
        [| | destruct HP as [HP | HP]]; rewrite HP; tauto. }
  split; [exact Hiff |].
  intros Hcls. rewrite Hiff. split.
  - intros H. destruct news as [| n news]; [done |]. exfalso.
    apply (H n); [by left |].
    destruct (Hcls n) as (text & ->); [by left |].
    unfold classify_text. cbv zeta.
    destruct (any_in KEYWORDS_ADJUST _); [simpl; tauto |].
    destruct (any_in KEYWORDS_PROMO _); [simpl; tauto |].
    destruct (any_in KEYWORDS_FINANCE _); simpl; tauto.
  - intros -> n Hn. by apply elem_of_nil in Hn.
Qed.

(** *** The price card *)

Lemma format_1f_numeral (x : float) :
  Forall (fun c => numeral c \/ c ∈ u ".infa") (format_1f x).
Proof.
  assert (Hlit : forall s : pystr,
             forallb (fun c => mem c (u "-.infa0")) s = true ->
             Forall (fun c => numeral c \/ c ∈ u ".infa") s).
  { intros s Hs. apply list.Forall_forall. intros c Hc%list_elem_of_In.
    rewrite forallb_forall in Hs. specialize (Hs c Hc).
    unfold mem in Hs. apply existsb_exists in Hs as (d & Hd & ->%Z.eqb_eq).
    vm_compute in Hd.
    destruct Hd as [<- | [<- | [<- | [<- | [<- | [<- | [<- | []]]]]]]];
      first [ left; unfold numeral; lia
            | right; apply list_elem_of_In; vm_compute; tauto ]. }
  assert (Hnum : forall n, Forall (fun c => numeral c \/ c ∈ u ".infa")
                                  (str_int n)).
  { intros n. eapply Forall_impl; [apply str_int_numeral |]. by left. }
  assert (Hsign : forall s : bool,
             Forall (fun c => numeral c \/ c ∈ u ".infa")
                    (if s then u "-" else [])).
  { intros [|]; by apply Hlit. }
  destruct x as [s | s | | s m e]; unfold format_1f.
  - apply Forall_app. split; [apply Hsign | by apply Hlit].
  - apply Forall_app. split; [apply Hsign | by apply Hlit].
  - by apply Hlit.
  - cbv zeta. repeat (apply Forall_app; split);
      first [apply Hsign | apply Hnum | by apply Hlit].
Qed.

Lemma skeleton_format_1f (x : float) : skeleton (format_1f x) = [].
Proof.
  apply skeleton_no_markup.
  eapply Forall_impl; [apply format_1f_numeral |].
  intros c [[H | ->] | H%list_elem_of_In]; [lia | lia |].
  vm_compute in H. intuition lia.
Qed.



(** X16.  The items cannot change the markup of the price card: for
    one market, two lists whose items agree, place by place, on the
    label and on whether there is a link give cards with the same
    characters [<], [>], double quote and apostrophe in the same
    order. *)
Theorem build_price_alert_card_markup (now now' : datetime)
    (news news' : list item) (market : Market) :
  Forall2 (fun a b => category a = category b
                      /\ (link a = [] <-> link b = [])) news news' ->
  skeleton (build_price_alert_card now news market)
  = skeleton (build_price_alert_card now' news' market).
Proof.
  intros H. change (Forall2 same_shape news news') in H.
  pose proof (same_shape_of_category "adjust" _ _ H) as Hadj.
  unfold build_price_alert_card. cbv zeta.
  destruct Hadj as [| a b l l' Hab Hl].
  - destruct (SFleb _ _); [| done].
    rewrite !skeleton_app, !skeleton_format_1f.
    by rewrite !skeleton_strftime by done.
  - assert (Hrows :
      skeleton (join (u "<br><br>") (map price_row (take 3 (a :: l))))
      = skeleton (join (u "<br><br>") (map price_row (take 3 (b :: l'))))).
    { apply skeleton_join, Forall2_map_skeleton;
        [apply price_row_skeleton |].
      apply Forall2_take. by constructor. }
    rewrite !skeleton_app. by rewrite Hrows.
Qed.

(** The theorem at two one-item lists with different texts. *)
Lemma build_price_alert_card_markup_witness :
  let a := _make_news_item (u "<i>调价</i>") (u "x") (u "http://a") None
                           (u "sina") in
  let b := _make_news_item (u "涨价") (u "y&z") (u "'") None (u "sina") in
  let m := {| gold_spot := []; gold_change := S754_nan; gold_note := [];
              gold_cny := []; usd_cny := []; hk_price := [];
              hk_change := []; hk_color := [] |} in
  skeleton (build_price_alert_card min_CST [a] m)
  = skeleton (build_price_alert_card min_CST [b] m).
Proof.
  intros a b m. apply build_price_alert_card_markup.
  constructor; [| constructor]. split; [by vm_compute |].
  split; discriminate.
Defined.

End Cards.

(** ** Quotients that stay finite *)

Section FloatBounds.

Import Exn PyNum.


















End FloatBounds.

(** ** [rel_time] *)

Section RelTime.

Import Datetime Intel Exn PyNum Page News Social.













End RelTime.

(** ** Placeholders *)

Section Placeholders.

Import Datetime Intel Exn PyNum Re Page News Social.

















End Placeholders.

(** ** The social tab and the page *)

Section SocialTab.

Import Datetime Intel Exn PyNum Re Page News Social.







(** *** The markup of the social tab *)

Lemma rel_time_skeleton (clk : clock) (t : nat) (dt : option datetime)
    (s : pystr) (t' : nat) :
  rel_time clk t dt = Return (s, t') -> skeleton s = [].
Proof.
  unfold rel_time. destruct dt as [d |]; [| by intros [= <- _]].
  cbv zeta. destruct (astimezone_CST d) as [local | e]; [| done].
  cbn [bind]. destruct (int_of_float _) as [n | e]; [| done].
  cbn [bind].
  assert (Hnum : forall k lit,
             skeleton lit = [] -> skeleton (str_int k ++ lit) = []).
  { intros k lit Hlit. rewrite skeleton_app, Hlit, app_nil_r.
    apply skeleton_numeral, str_int_numeral. }
  destruct (n <? 1); [by intros [= <- _] |].
  destruct (n <? 60); [intros [= <- _]; by apply Hnum |].
  destruct (n / 60 <? 24); [intros [= <- _]; by apply Hnum |].
  destruct (n / 60 / 24 <? 7); [intros [= <- _]; by apply Hnum |].
  intros Heq.
  assert (s = strftime local (u "%m-%d")) as -> by congruence.
  by apply skeleton_strftime.
Qed.

Lemma platform_meta_plain (platform : pystr) :
  let meta := get PLATFORM_META platform (u "📰", u "weibo") in
  skeleton meta.1 = [] /\ skeleton meta.2 = [].
Proof.
  unfold PLATFORM_META. cbn [get]. repeat case_decide; by vm_compute.
Qed.

(** [item.get("preview", "")] *)
Definition preview_of (it : item) : pystr :=
  get (extra it) (u "preview") [].

(** Whether [stats.get("likes")] is true. *)
Definition has_likes (it : item) : bool :=
  match stats_likes it with
  | Some likes => negb (is_empty likes)
  | None => false
  end.

(** Social items that agree on the label and the timestamp, and on
    which of link, preview and likes they have. *)
Definition social_shape (a b : item) : Prop :=
  category a = category b /\ pub_dt a = pub_dt b
  /\ is_empty (link a) = is_empty (link b)
  /\ is_empty (preview_of a) = is_empty (preview_of b)
  /\ has_likes a = has_likes b.

Lemma likes_html_nonempty (x : pystr) : is_empty (u "❤️ " ++ x) = false.
Proof. reflexivity. Qed.

Lemma stats_html_skeleton (a b : item) :
  has_likes a = has_likes b ->
  skeleton (stats_html (likes_html a) (esc (source a)))
  = skeleton (stats_html (likes_html b) (esc (source b))).
Proof.
  unfold has_likes, stats_html, likes_html. intros Hk.
  destruct (stats_likes a) as [[| x la'] |],
    (stats_likes b) as [[| y lb'] |];
    try discriminate Hk; cbn [is_empty];
    rewrite ?likes_html_nonempty, ?skeleton_app, ?skeleton_esc;
    reflexivity.
Qed.

Lemma title_html_skeleton (la lb tag ta tb : pystr) :
  is_empty la = is_empty lb ->
  skeleton (title_html (esc la) tag (esc ta))
  = skeleton (title_html (esc lb) tag (esc tb)).
Proof.
  intros H. unfold title_html. rewrite !is_empty_esc, H.
  destruct (is_empty lb); by rewrite !skeleton_app, !skeleton_esc.
Qed.

Lemma link_html_skeleton (la lb : pystr) :
  is_empty la = is_empty lb ->
  skeleton (link_html (esc la)) = skeleton (link_html (esc lb)).
Proof.
  intros H. unfold link_html. rewrite !is_empty_esc, H.
  destruct (is_empty lb); by rewrite ?skeleton_app, ?skeleton_esc.
Qed.

Lemma preview_html_skeleton (pa pb : pystr) :
  is_empty pa = is_empty pb ->
  skeleton (preview_html (esc pa)) = skeleton (preview_html (esc pb)).
Proof.
  intros H. unfold preview_html. rewrite !is_empty_esc, H.
  destruct (is_empty pb); by rewrite ?skeleton_app, ?skeleton_esc.
Qed.

Lemma social_post_skeleton (a b : item) (ta tb : pystr) :
  social_shape a b -> skeleton ta = [] -> skeleton tb = [] ->
  skeleton (social_post a ta) = skeleton (social_post b tb).
Proof.
  intros (Hc & _ & Hl & Hp & Hk) Hta Htb. unfold social_post.
  pose proof (platform_meta_plain (get (extra a) (u "platform") (u "weibo")))
    as Ha.
  pose proof (platform_meta_plain (get (extra b) (u "platform") (u "weibo")))
    as Hb.
  cbv zeta in Ha, Hb. destruct Ha as [Hla Hca], Hb as [Hlb Hcb].
  cbv zeta. rewrite !skeleton_app.
  rewrite Hla, Hca, Hlb, Hcb, Hta, Htb, Hc.
  rewrite (stats_html_skeleton a b Hk).
  rewrite (title_html_skeleton (link a) (link b) _ _ (title b) Hl).
  rewrite (link_html_skeleton (link a) (link b) Hl).
  fold (preview_of a) (preview_of b).
  rewrite (preview_html_skeleton (preview_of a) (preview_of b) Hp).
  reflexivity.
Qed.

(** Two runs that raise the same exception or return strings with the
    same markup after the same number of readings of the clock. *)
Definition same_outcome (r r' : result (pystr * nat)) : Prop :=
  match r, r' with
  | Return x, Return x' => skeleton x.1 = skeleton x'.1 /\ x.2 = x'.2
  | Raise e, Raise e' => e = e'
  | _, _ => False
  end.

Lemma social_parts_alike (clk : clock) (items items' : list item) :
  Forall2 social_shape items items' ->
  forall t,
    match social_parts clk t items, social_parts clk t items' with
    | Return x, Return x' =>
        Forall2 (fun p q => skeleton p = skeleton q) x.1 x'.1
        /\ x.2 = x'.2
    | Raise e, Raise e' => e = e'
    | _, _ => False
    end.
Proof.
  induction 1 as [| a b l l' Hab _ IH]; intros t; [by split |].
  cbn [social_parts]. destruct Hab as (Hc & Hdt & Hrest).
  rewrite <- Hdt.
  destruct (rel_time clk t (pub_dt a)) as [[s t1] | e] eqn:Er; [| done].
  cbn [bind snd fst]. specialize (IH t1).
  destruct (social_parts clk t1 l) as [[ps t2] | e],
    (social_parts clk t1 l') as [[ps' t2'] | e']; try done.
  cbn [bind fst snd] in *. destruct IH as [Hps ->]. split; [| done].
  constructor; [| done].
  pose proof (rel_time_skeleton _ _ _ _ _ Er) as Hs.
  by apply social_post_skeleton.
Qed.

(** X20.  The items cannot change the markup of the social tab: two
    lists whose items agree, place by place, on the label, on the
    timestamp and on which of link, preview and likes they have give,
    with the same clock, either the same exception or tabs with the
    same characters [<], [>], double quote and apostrophe in the same
    order, whatever the titles, previews, sources, links, likes and
    platforms. *)
Theorem build_social_tab_html_markup (clk : clock) (t : nat)
    (items items' : list item) :
  Forall2 social_shape items items' ->
  same_outcome (build_social_tab_html clk t items)
               (build_social_tab_html clk t items').
Proof.
  intros H.
  pose proof (social_parts_alike clk items items' H (S t)) as Hparts.
  pose proof (Forall2_length _ _ _ H) as Hlen.
  destruct H as [| a b l l' Hab Hl]; [by split |].
  unfold build_social_tab_html. cbv zeta. rewrite <- Hlen.
  destruct (social_parts clk (S t) (a :: l)) as [[ps t1] | e],
    (social_parts clk (S t) (b :: l')) as [[ps' t1'] | e'];
    cbn [bind same_outcome fst snd] in *; [| done ..].
  destruct Hparts as [Hps ->]. split; [| done].
  rewrite !skeleton_app. by rewrite (skeleton_join _ _ _ Hps).
Qed.

(** The theorem at two one-item lists with different texts. *)
Lemma build_social_tab_html_markup_witness :
  let now := {| wall := 63900000000000000; utcoffset := CST |} in
  let a := _make_social_item (u "xhs") (u "<b>调价</b>") (u "p") (u "s")
                             (u "http://a") None None in
  let b := _make_social_item (u "weibo") (u "涨价") (u "q&r") (u "'")
                             (u "x") None None in
  same_outcome (build_social_tab_html (fun _ => now) 0 [a])
               (build_social_tab_html (fun _ => now) 0 [b]).
Proof.
  intros now a b. apply build_social_tab_html_markup.
  constructor; [| constructor]. by vm_compute.
Defined.

End SocialTab.

(** ** [smart_summary]: what is kept *)

Section SummaryMore.

Import Unicode Re Intel.

Lemma lstrip_by_suffix (p : Z -> bool) (s : pystr) :
  exists a, s = a ++ lstrip_by p s.
Proof.
  induction s as [| c s (a & IH)]; [by exists [] |]. simpl.
  destruct (p c); [| by exists []]. exists (c :: a). by rewrite IH at 1.
Qed.

Lemma strip_by_sublist (p : Z -> bool) (s : pystr) :
  strip_by p s `sublist_of` s.
Proof.
  unfold strip_by, rstrip_by.
  destruct (lstrip_by_suffix p s) as (a & Ha).
  destruct (lstrip_by_suffix p (rev (lstrip_by p s))) as (b & Hb).
  apply (f_equal (@rev Z)) in Hb. rewrite rev_involutive, rev_app_distr in Hb.
  rewrite Ha at 2. rewrite Hb at 2.
  apply sublist_inserts_l, sublist_inserts_r. done.
Qed.

Lemma sub_aux_sublist (r : regex) (pos skip : nat) (s : pystr) :
  sub_aux r pos skip s `sublist_of` s.
Proof.
  revert pos skip. induction s as [| c s IH]; intros pos skip; [done |].
  cbn [sub_aux]. destruct skip as [| n]; [| by apply sublist_cons].
  destruct (match_at r pos (c :: s)) as [e |];
    [destruct (pos <? e)%nat |];
    first [by apply sublist_cons | by apply sublist_skip].
Qed.

Lemma sub_sublist (r : regex) (s : pystr) : sub r s `sublist_of` s.
Proof. apply sub_aux_sublist. Qed.

Lemma cleaned_sublist (text : pystr) : cleaned text `sublist_of` text.
Proof.
  unfold cleaned, strip, strip_chars. cbv zeta.
  etrans; [apply strip_by_sublist |].
  do 6 (etrans; [apply sub_sublist |]).
  apply strip_by_sublist.
Qed.

Lemma slice_to_sublist (s : pystr) (n : Z) : slice_to s n `sublist_of` s.
Proof. unfold slice_to. apply sublist_take. Qed.

Lemma cut_at_punct_slice (t : pystr) (max_len : Z) (ps : list pystr)
    (r : pystr) :
  cut_at_punct t max_len ps = Some r ->
  exists idx, max_len / 3 < idx /\ r = slice_to t (idx + 1).
Proof.
  induction ps as [| p ps IH]; [done |]. cbn [cut_at_punct].
  destruct (Z.ltb_spec (max_len / 3) (rfind (slice_to t max_len) p));
    [| exact IH].
  intros [= <-]. by eexists.
Qed.

(** X21.  [smart_summary] invents nothing: its result is a selection
    of the characters of the text in their order, or such a selection
    with the ellipsis mark behind it (the hard cut). *)
Theorem smart_summary_keeps (text : pystr) (max_len : Z) :
  exists r,
    r `sublist_of` text
    /\ (smart_summary text max_len = r
        \/ smart_summary text max_len = r ++ u "…").
Proof.
  unfold smart_summary.
  destruct (is_empty text); [exists []; split; [apply sublist_nil_l | by left] |].
  pose proof (cleaned_sublist text) as Hc.
  destruct (is_empty (cleaned text));
    [exists []; split; [apply sublist_nil_l | by left] |].
  destruct (len (cleaned text) <=? max_len);
    [exists (cleaned text); split; [done | by left] |].
  destruct (cut_at_punct (cleaned text) max_len puncts) as [r |] eqn:E.
  - exists r. split; [| by left].
    apply cut_at_punct_slice in E as (idx & _ & ->).
    etrans; [apply slice_to_sublist | done].
  - exists (slice_to (cleaned text) max_len). split; [| by right].
    etrans; [apply slice_to_sublist | done].
Qed.

(** X22.  For a positive budget [smart_summary] returns the empty
    string exactly when nothing is left of the text after the
    clean-up; a cut never empties the summary. *)
Theorem smart_summary_empty_iff (text : pystr) (max_len : Z) :
  0 < max_len ->
  smart_summary text max_len = [] <-> cleaned text = [].
Proof.
  intros Hmax. rewrite smart_summary_cleaned by lia.
  destruct (Z.leb_spec (len (cleaned text)) max_len) as [_ | Hlen];
    [done |].
  assert (Hne : cleaned text <> []).
  { intros E. rewrite E in Hlen. unfold len in Hlen. simpl in Hlen. lia. }
  split; [| done]. intros Hr. exfalso.
  destruct (cut_at_punct (cleaned text) max_len puncts) as [r |] eqn:E.
  - subst r. apply cut_at_punct_slice in E as (idx & Hidx & E).
    pose proof (Z.div_pos max_len 3 ltac:(lia) ltac:(lia)).
    symmetry in E. apply slice_to_nil_iff in E; [done | lia].
  - by destruct (slice_to (cleaned text) max_len).
Qed.

(** The theorem at a text that the clean-up empties. *)
Lemma smart_summary_empty_iff_witness :
  0 < 50
  /\ (smart_summary (u "3天前 - ") 50 = [] <-> cleaned (u "3天前 - ") = []).
Proof.
  split; [lia |]. apply smart_summary_empty_iff. lia.
Defined.

End SummaryMore.

(** ** [parse_likes] on the numerals that [str] writes *)

Section LikesMore.

Import Unicode Exn PyNum Intel Page.

Definition ascii_digit (c : Z) : Prop := 0x30 <= c <= 0x39.

(** The value of a string of digits. *)
Definition digits_value (s : pystr) : Z :=
  fold_left (fun acc c => 10 * acc + (c - 0x30)) s 0.

Lemma digits_of_digits (fuel : nat) (n : Z) :
  Forall ascii_digit (digits_of fuel n).
Proof.
  revert n. induction fuel as [| fuel IH]; intros n; simpl; [constructor |].
  apply Forall_app. split.
  - destruct (n <? 10); [constructor | apply IH].
  - constructor; [| constructor]. unfold ascii_digit.
    pose proof (Z.mod_pos_bound n 10). lia.
Qed.

Lemma digits_of_value (fuel : nat) (n : Z) :
  0 <= n < 2 ^ Z.of_nat fuel -> digits_value (digits_of fuel n) = n.
Proof.
  revert n. induction fuel as [| fuel IH]; intros n Hn.
  - simpl in Hn. assert (n = 0) as -> by lia. done.
  - cbn [digits_of]. destruct (Z.ltb_spec n 10) as [Hlt | Hge].
    + unfold digits_value. cbn [app fold_left].
      rewrite Z.mod_small by lia. lia.
    + unfold digits_value. rewrite fold_left_app. cbn [fold_left].
      change (fold_left _ (digits_of fuel (n / 10)) 0)
        with (digits_value (digits_of fuel (n / 10))).
      rewrite IH.
      * pose proof (Z.div_mod n 10 ltac:(lia)). lia.
      * rewrite Nat2Z.inj_succ, Z.pow_succ_r in Hn by lia.
        split; [apply Z.div_pos; lia |].
        apply Z.div_lt_upper_bound; lia.
Qed.

Lemma digits_of_length (fuel k : nat) (n : Z) :
  0 <= n < 10 ^ Z.of_nat (S k) -> (length (digits_of fuel n) <= S k)%nat.
Proof.
  revert n k. induction fuel as [| fuel IH]; intros n k Hn; simpl; [lia |].
  rewrite length_app. simpl.
  destruct (Z.ltb_spec n 10) as [Hlt | Hge]; [simpl; lia |].
  destruct k as [| k]; [simpl in Hn; lia |].
  specialize (IH (n / 10) k).
  rewrite (Nat2Z.inj_succ (S k)), Z.pow_succ_r in Hn by lia.
  assert (0 <= n / 10 < 10 ^ Z.of_nat (S k)).
  { split; [apply Z.div_pos; lia |]. apply Z.div_lt_upper_bound; lia. }
  specialize (IH ltac:(done)). lia.
Qed.

Lemma digits_of_nonempty (fuel : nat) (n : Z) : digits_of (S fuel) n <> [].
Proof. simpl. by destruct (if n <? 10 then [] else digits_of fuel (n / 10)). Qed.

Lemma str_int_digits (n : Z) :
  0 <= n < 10 ^ 4300 ->
  Forall ascii_digit (str_int n) /\ str_int n <> []
  /\ digits_value (str_int n) = n /\ (length (str_int n) <= 4300)%nat.
Proof.
  intros Hn. unfold str_int.
  destruct (Z.ltb_spec n 0) as [? | _]; [lia |].
  split; [apply digits_of_digits |].
  split; [apply digits_of_nonempty |]. split.
  - apply digits_of_value. split; [lia |].
    destruct (Z.eq_dec n 0) as [-> | Hne]; [done |].
    pose proof (Z.log2_spec n ltac:(lia)) as Hlog.
    pose proof (Z.log2_nonneg n).
    rewrite Nat2Z.inj_succ, Z2Nat.id by lia. lia.
  - apply (digits_of_length _ 4299). exact Hn.
Qed.

(** What holds of each of the ten digits. *)
Lemma ascii_digit_facts (c : Z) :
  ascii_digit c ->
  isspace c = false /\ c_isspace c = false /\ digit_value c = Some (c - 0x30).
Proof.
  intros Hc.
  assert (Hin : In c [48; 49; 50; 51; 52; 53; 54; 55; 56; 57]).
  { unfold ascii_digit in Hc. simpl. lia. }
  assert (H : forallb (fun c => negb (isspace c) && negb (c_isspace c)
                        && bool_decide (digit_value c = Some (c - 0x30)))
                      [48; 49; 50; 51; 52; 53; 54; 55; 56; 57] = true)
    by by vm_compute.
  rewrite forallb_forall in H. specialize (H c Hin).
  rewrite !andb_true_iff, !negb_true_iff, bool_decide_eq_true in H. tauto.
Qed.

Lemma strip_by_id (p : Z -> bool) (s : pystr) :
  Forall (fun c => p c = false) s -> strip_by p s = s.
Proof.
  intros H. unfold strip_by, rstrip_by.
  assert (Hl : forall t, Forall (fun c => p c = false) t -> lstrip_by p t = t).
  { intros t [| c t' Hc _]; [done |]. simpl. by rewrite Hc. }
  rewrite (Hl s H), Hl, rev_involutive; [done |].
  by apply Forall_rev.
Qed.

Lemma replace_absent (s : pystr) (c : Z) (new : pystr) :
  c ∉ s -> replace s [c] new = s.
Proof.
  intros Hc. rewrite replace_char. induction s as [| d s IH]; [done |].
  apply not_elem_of_cons in Hc as [Hd Hs]. simpl.
  destruct (Z.eqb_spec c d) as [? | _]; [done |]. by rewrite IH.
Qed.

Lemma int_digits_all (s : pystr) (acc nd : Z) :
  Forall ascii_digit s ->
  int_digits acc nd false s
  = Some (fold_left (fun a c => 10 * a + (c - 0x30)) s acc,
          nd + Z.of_nat (length s), []).
Proof.
  intros H. revert acc nd.
  induction H as [| c s Hc _ IH]; intros acc nd.
  - simpl. by rewrite Z.add_0_r.
  - cbn [int_digits].
    destruct (ascii_digit_facts c Hc) as (_ & _ & ->).
    destruct (Z.eqb_spec c 0x5F) as [-> | _];
      [unfold ascii_digit in Hc; lia |].
    rewrite IH. cbn [fold_left length]. do 3 f_equal. lia.
Qed.

Lemma py_int_digits (s : pystr) :
  Forall ascii_digit s -> s <> [] -> (length s <= 4300)%nat ->
  py_int s = Return (digits_value s).
Proof.
  intros H Hne Hlen. unfold py_int.
  assert (Hascii : forallb (fun c => c <? 128) s = true).
  { apply forallb_forall. intros c Hc%list_elem_of_In.
    rewrite list.Forall_forall in H. specialize (H c Hc).
    unfold ascii_digit in H. apply Z.ltb_lt. lia. }
  unfold to_ascii. rewrite Hascii.
  destruct s as [| c s]; [done |].
  pose proof (Forall_inv H) as Hc.
  destruct (ascii_digit_facts c Hc) as (_ & Hsp & _).
  cbn [lstrip_by]. rewrite Hsp. unfold read_sign.
  unfold ascii_digit in Hc.
  destruct (Z.eqb_spec c 0x2D) as [? | _]; [lia |].
  destruct (Z.eqb_spec c 0x2B) as [? | _]; [lia |].
  unfold head_is.
  destruct (Z.eqb_spec c 0x5F) as [? | _]; [lia |].
  rewrite (int_digits_all (c :: s) 0 0 H).
  destruct (Z.eqb_spec (0 + Z.of_nat (length (c :: s))) 0) as [E | _];
    [simpl in E; lia |].
  unfold int_max_str_digits.
  destruct (Z.ltb_spec 4300 (0 + Z.of_nat (length (c :: s)))); [lia |].
  done.
Qed.

(** X23.  [parse_likes] reads back what [str] writes: for an integer
    [n] from 0 up to the 4300 digits that [int] accepts,
    [parse_likes(str(n))] is [n]. *)
Theorem parse_likes_str_int (n : Z) :
  0 <= n < 10 ^ 4300 -> parse_likes (str_int n) = Return n.
Proof.
  intros Hn. destruct (str_int_digits n Hn) as (Hd & Hne & Hv & Hlen).
  unfold parse_likes.
  destruct (str_int n) as [| c s] eqn:E; [done |]. cbn [is_empty].
  assert (Hstrip : strip (c :: s) = c :: s).
  { apply strip_by_id. eapply Forall_impl; [exact Hd |].
    intros d Hdig. by destruct (ascii_digit_facts d Hdig) as (-> & _). }
  assert (Hno : forall x, ~ ascii_digit x -> x ∉ c :: s).
  { intros x Hx Hin. rewrite list.Forall_forall in Hd. by apply Hx, Hd. }
  rewrite Hstrip. change (u ",") with [0x2C].
  rewrite replace_absent by (apply Hno; unfold ascii_digit; lia).
  unfold convert_likes.
  destruct (contains (u "万") (c :: s)) eqn:Hc.
  { exfalso. apply (Hno 0x4E07); [unfold ascii_digit; lia |].
    apply (contains_elem _ _ _ Hc). by left. }
  rewrite py_int_digits by done. by rewrite Hv.
Qed.

(** The theorem at 12345. *)
Lemma parse_likes_str_int_witness :
  0 <= 12345 < 10 ^ 4300 /\ parse_likes (str_int 12345) = Return 12345.
Proof.
  assert (H : 0 <= 12345 < 10 ^ 4300).
  { split; [lia |]. apply Z.ltb_lt. by vm_compute. }
  split; [exact H |]. exact (parse_likes_str_int 12345 H).
Defined.

End LikesMore.

(** ** [main]: the counts of the summary line *)

Section Counts.

Import Datetime Intel Page Social.

Lemma count_category_total (news : list item) :
  Forall (fun n => exists text, category n = classify_text text) news ->
  (count_category "adjust" news + count_category "promo" news
   + count_category "finance" news + count_category "general" news
   = length news)%nat.
Proof.
  unfold count_category, of_category.
  induction 1 as [| n news (text & Hn) _ IH]; [done |].
  rewrite !filter_cons, Hn. cbn [length].
  unfold classify_text. cbv zeta.
  destruct (any_in KEYWORDS_ADJUST _);
    [| destruct (any_in KEYWORDS_PROMO _);
       [| destruct (any_in KEYWORDS_FINANCE _)]];
    repeat case_decide; try done; cbn [length]; lia.
Qed.

(** X24.  The four counts that [main] prints add up to the number of
    merged news items, when every item of the sources has its label
    from [classify_text], as [_make_news_item] gives it. *)
Theorem main_counts_total (sources : list (list item)) :
  (forall src n, src ∈ sources -> n ∈ src ->
                 exists text, category n = classify_text text) ->
  let news := merge_dedupe sources default_key_len in
  (count_category "adjust" news + count_category "promo" news
   + count_category "finance" news + count_category "general" news
   = length news)%nat.
Proof.
  intros H news. apply count_category_total, list.Forall_forall.
  intros n Hn.
  destruct (merge_dedupe_selection sources default_key_len)
    as (_ & Hsrc & _).
  destruct (Hsrc n Hn) as (src & Hs & Hin). by apply (H src n).
Qed.

(** The theorem at two sources with a repeated item. *)
Lemma main_counts_total_witness :
  let a := _make_news_item (u "老铺黄金上调价格") [] [] None (u "sina") in
  let b := _make_news_item (u "门店活动") [] [] None (u "sina") in
  let news := merge_dedupe [[a]; [b; a]] default_key_len in
  (count_category "adjust" news + count_category "promo" news
   + count_category "finance" news + count_category "general" news
   = length news)%nat.
Proof.
  intros a b. apply main_counts_total.
  intros src n Hsrc Hn.
  assert (Hab : n = a \/ n = b).
  { rewrite !elem_of_cons, elem_of_nil in Hsrc.
    destruct Hsrc as [-> | [-> | []]];
      rewrite !elem_of_cons, elem_of_nil in Hn; tauto. }
  destruct Hab as [-> | ->]; by eexists.
Defined.

End Counts.
